(** * Garmin Connect exporter: a shallow embedding of [garmin_export.py]

    The class [GarminLLMExporter] is embedded as functions over an explicit
    world state.  Every effect the Python code has is written out:

    - calls of operations of the [garminconnect] client are answered by the
      [World] and recorded, with their outcome, in the [calls] log;
    - [print] appends a [Line] to [stdout];
    - [datetime.now()] reads the world's clock;
    - [open]/[json.dump] update the directory [files];
    - Python exceptions are the [Raise] outcome of the monad [M], with
      [try_except] for [try: ... except ...:].

    Dates are kept as proleptic Gregorian ordinals ([date.toordinal()]); the
    text [d.isoformat()] is represented by the ordinal of [d].  A fault is
    an instance of [Exception] with its text [str(e)].  Python's [str] on
    client data is a component of the world.  The repeated five-line
    pattern of an optional metric is the function [gated], and the bodies
    of the three [while] loops are functions of their own.  [main], which
    reads the number of days and calls [export_complete_dataset], is left
    out. *)

From Stdlib Require Import ZArith String List Bool Lia SpecFloat.
From stdpp Require Import base option list gmap strings pretty.

Set Warnings "-register-all".
Local Open Scope Z_scope.

(** ** Values exchanged with the client *)

(** Structured data as returned by the client ([response.json()]). *)
Inductive PyVal : Type :=
| PNone
| PBool (b : bool)
| PInt (n : Z)
| PFloat (x : spec_float)
| PStr (s : string)
| PList (items : list PyVal)
| PDict (entries : list (string * PyVal)).

(** Python truth value testing: [if v:]. *)
Definition truthy (v : PyVal) : bool :=
  match v with
  | PNone => false
  | PBool b => b
  | PInt n => negb (n =? 0)
  | PFloat (S754_zero _) => false
  | PFloat _ => true
  | PStr EmptyString => false
  | PStr _ => true
  | PList [] => false
  | PList _ => true
  | PDict [] => false
  | PDict _ => true
  end.

(** [type(v).__name__], used in the text of the interpreter's own errors. *)
Definition type_name (v : PyVal) : string :=
  match v with
  | PNone => "NoneType"
  | PBool _ => "bool"
  | PInt _ => "int"
  | PFloat _ => "float"
  | PStr _ => "str"
  | PList _ => "list"
  | PDict _ => "dict"
  end.

(** [needle in hay] on [str]. *)
Fixpoint contains (needle hay : string) : bool :=
  String.prefix needle hay
  || match hay with
     | EmptyString => false
     | String _ rest => contains needle rest
     end.

(** An instance of [Exception]: its class name and [str(e)]. *)
Record Exception := { exc_class : string; exc_text : string }.

Definition AttributeError (owner attr : string) : Exception :=
  {| exc_class := "AttributeError";
     exc_text := "'" +:+ owner +:+ "' object has no attribute '" +:+ attr +:+ "'" |}.

Definition TypeError (text : string) : Exception :=
  {| exc_class := "TypeError"; exc_text := text |}.

Definition OverflowError : Exception :=
  {| exc_class := "OverflowError"; exc_text := "date value out of range" |}.

(** What [input] and [getpass.getpass] raise at the end of the input. *)
Definition EOFError : Exception :=
  {| exc_class := "EOFError"; exc_text := "EOF when reading a line" |}.

Inductive Outcome (A : Type) : Type :=
| Ok (a : A)
| Raise (e : Exception).
Arguments Ok {A} a.
Arguments Raise {A} e.

(** An argument of a client operation: the ISO text of a date, or a value. *)
Inductive Arg : Type :=
| ADate (d : Z)
| AVal (v : PyVal).

Record Call := { op : string; args : list Arg }.

(** One entry of the call log: what was called and what came back. *)
Record CallRecord := { call : Call; outcome : Outcome PyVal }.

(** ** Time *)

Record DateTime := { dt_date : Z; dt_micros : Z }.

Definition date_min : Z := 1.
Definition date_max : Z := 3652059.

(** The file name [garmin_data_%Y%m%d_%H%M%S.json], kept as the day and
    the second of the day it is derived from. *)
Definition FileName : Type := Z * Z.

Definition strftime (t : DateTime) : FileName :=
  (dt_date t, dt_micros t / 1000000).

(** ** Document fragments *)

Record SamplePoint := { date : Z; data : PyVal }.

Record Indicator := { ind_date : Z; found_in_summary : bool }.

Record Metadata := {
  period_start : Z;
  period_end : Z;
  sampling_strategy : string
}.

Record Profile := {
  full_name : PyVal;
  unit_system : PyVal;
  user_summary : PyVal;
  devices : PyVal
}.

Record ActivitiesMetadata := {
  total_requested : Z;
  actual_count : nat;
  detailed_sample_count : nat
}.

Record Activities := {
  act_metadata : ActivitiesMetadata;
  all_activities : PyVal;
  last_activity : PyVal;
  detailed_sample : list PyVal
}.

Record DailyHealth := {
  dh_metadata : Metadata;
  daily_summaries : list SamplePoint;
  heart_rate_data : list SamplePoint;
  sleep_data : list SamplePoint;
  stress_data : list SamplePoint;
  steps_data : list SamplePoint;
  body_battery_indicators : list Indicator
}.

Record Fitness := {
  fm_metadata : Metadata;
  training_readiness : list SamplePoint;
  training_status : list SamplePoint;
  resting_heart_rate : list SamplePoint;
  body_composition : list SamplePoint;
  weight_measurements : PyVal
}.

Record Specialized := {
  sh_metadata : Metadata;
  respiration_data : list SamplePoint;
  pulse_ox_data : list SamplePoint;
  hydration_data : list SamplePoint;
  womens_health : gmap string PyVal
}.

(** The text [f"{count} activities recorded"]. *)
Inductive OverviewNote : Type :=
| ActivitiesRecorded (count : nat).

Record Instructions := {
  primary_focus : list string;
  data_format_notes : list string;
  recommended_approach : list string
}.

Record Context := {
  export_timestamp : DateTime;
  data_overview : gmap string OverviewNote;
  available_metrics : list string;
  suggested_analyses : list string;
  data_quality_notes : list string;
  analysis_instructions : Instructions
}.

(** The dict [all_data]; a section key is present once its fragment has
    been merged with [all_data.update]. *)
Record ExportDocument := {
  doc_user_profile : option Profile;
  doc_activities : option Activities;
  doc_daily_health_metrics : option DailyHealth;
  doc_fitness_metrics : option Fitness;
  doc_specialized_health : option Specialized;
  doc_llm_analysis_context : option Context
}.

(** What a file of the working directory holds: the whole JSON text of a
    document, or only a (possibly empty) initial part of such a text. *)
Inductive FileContent : Type :=
| Complete (doc : ExportDocument)
| Partial.

(** ** Console output *)

Inductive FaultClass : Type :=
| BadRequest                  (* "Bad request format (skipping)" *)
| NotFound                    (* "Data not found" *)
| InvalidParameters           (* "Invalid parameters" *)
| Other (excerpt : string).   (* the first 80 characters of the text *)

Inductive Line : Type :=
| AuthOkTokens
| AuthOkCredentials
| AuthFailed (e : Exception)
| PromptEmail
| PromptPassword
| Discovered (available total : nat)
| Warn (method_name : string) (c : FaultClass)
| ExportingProfile
| ExportingActivities
| ActivityDetails (i : nat)
| ExportingHealth (days_back : Z)
| Processing (d : Z)
| ExportingFitness
| ExportingSpecialized
| Banner (days_back : Z)
| ExportCompleted (filename : FileName) (sections_with_data : nat)
| SectionStatus (section_name : string) (has_data : bool)
| UploadAdvice (filename : FileName)
| ExportFailed (e : Exception).

(** ** The world and the exporter object *)

Record State := {
  stdout : list Line;
  calls : list CallRecord;
  ticks : nat;
  typed : nat;
  files : gmap FileName FileContent
}.

(** Everything outside the program.  [respond] answers a client call
    given the calls made before it; [clock n] is the [n]-th reading of
    [datetime.now()]; [keyboard n] is what the [n]-th prompt gives: the line typed, or
    the exception that reading raises there, as at the end of the input;
    [py_str] is Python's [str] on client data; [open_fault] and
    [dump_fault] are the faults of [open(filename, 'w')] and [json.dump]. *)
Record World := {
  clock : nat -> DateTime;
  keyboard : nat -> Outcome string;
  token_login : option Exception;
  credential_login : string -> string -> option Exception;
  has_attr : string -> bool;
  respond : list CallRecord -> Call -> Outcome PyVal;
  py_str : PyVal -> string;
  open_fault : FileName -> option Exception;
  dump_fault : ExportDocument -> option Exception
}.

(** The fields of [self].  [client] tells whether [self.client] is a
    [Garmin] object rather than [None]. *)
Record Exporter := {
  email : option string;
  password : option string;
  client : bool;
  api_methods : gmap string bool
}.

(** [GarminLLMExporter.__init__] *)
Definition init (email password : option string) : Exporter :=
  {| email := email; password := password; client := false; api_methods := ∅ |}.

(** ** The monad of effects *)

Definition M (A : Type) : Type := State -> Outcome A * State.

Definition ret {A} (a : A) : M A := fun s => (Ok a, s).

Definition bind {A B} (m : M A) (f : A -> M B) : M B :=
  fun s =>
    match m s with
    | (Ok a, s') => f a s'
    | (Raise e, s') => (Raise e, s')
    end.

Definition raise {A} (e : Exception) : M A := fun s => (Raise e, s).

(** [try: m  except Exception as e: handler e] *)
Definition try_except {A} (m : M A) (handler : Exception -> M A) : M A :=
  fun s =>
    match m s with
    | (Ok a, s') => (Ok a, s')
    | (Raise e, s') => handler e s'
    end.

Notation "'do' x <- m ; k" := (bind m (fun x => k))
  (at level 10, x name, m at level 100, k at level 200).
Notation "'do' ' p <- m ; k" := (bind m (fun x => match x with p => k end))
  (at level 10, p pattern, m at level 100, k at level 200).
Notation "'run' m ; k" := (bind m (fun _ => k))
  (at level 10, m at level 100, k at level 200).

Definition print (l : Line) : M unit :=
  fun s =>
    (Ok tt, {| stdout := stdout s ++ [l]; calls := calls s; ticks := ticks s;
               typed := typed s; files := files s |}).

Section Program.

Variable w : World.

(** [datetime.now()] *)
Definition now : M DateTime :=
  fun s =>
    (Ok (clock w (ticks s)),
     {| stdout := stdout s; calls := calls s; ticks := S (ticks s);
        typed := typed s; files := files s |}).

(** [input(prompt)] and [getpass.getpass(prompt)]: the prompt is shown and
    a line is read, which can raise (at the end of the input, [EOFError]). *)
Definition input (prompt : Line) : M string :=
  fun s =>
    (keyboard w (typed s),
     {| stdout := stdout s ++ [prompt]; calls := calls s; ticks := ticks s;
        typed := S (typed s); files := files s |}).

(** Calling the bound method [func] of the client with [args]. *)
Definition invoke (func : string) (args : list Arg) : M PyVal :=
  fun s =>
    let c := {| op := func; args := args |} in
    let r := respond w (calls s) c in
    (r, {| stdout := stdout s;
           calls := calls s ++ [{| call := c; outcome := r |}];
           ticks := ticks s; typed := typed s; files := files s |}).

(** [d + timedelta(days=n)]; the result must be a [date]. *)
Definition date_add (d n : Z) : M Z :=
  if (date_min <=? d + n) && (d + n <=? date_max) then ret (d + n)
  else raise OverflowError.

(** [self.client.<name>]: the bound method, when there is one. *)
Definition client_attr (self : Exporter) (name : string) : M string :=
  if client self then
    if has_attr w name then ret name else raise (AttributeError "Garmin" name)
  else raise (AttributeError "NoneType" name).

(** The branch of [safe_call]'s handler that is taken for [str(e)]. *)
Definition classify (text : string) : FaultClass :=
  if contains "400" text then BadRequest
  else if contains "404" text then NotFound
  else if contains "arguments" text then InvalidParameters
  else Other (String.substring 0 80 text).

(** [safe_call]: [func] is a bound method of the client, named by its
    [__name__]; failures become [None] and one diagnostic line. *)
Definition safe_call (func : string) (args : list Arg) : M PyVal :=
  try_except (invoke func args)
    (fun e => run print (Warn func (classify (exc_text e))); ret PNone).


(** *** Capability prober *)

Definition methods_to_check : list string :=
  [ "get_daily_steps"; "get_body_battery"; "get_floors"; "get_weigh_ins";
    "get_menstrual_calendar_data"; "get_pregnancy_summary"; "get_steps_data";
    "get_stress_data"; "get_heart_rates"; "get_sleep_data"; "get_hydration_data";
    "get_respiration_data"; "get_pulse_ox"; "get_training_readiness";
    "get_training_status"; "get_rhr_day"; "get_body_composition" ].

(** [hasattr(self.client, name)] *)
Definition hasattr (self : Exporter) (name : string) : bool :=
  client self && has_attr w name.

(** [sum(self.api_methods.values())] *)
Definition count_available (api : gmap string bool) : nat :=
  length (filter (fun b => b = true) (map_to_list api).*2).

Definition _discover_api_methods (self : Exporter) : M Exporter :=
  let api :=
    foldl (fun api method => <[method := hasattr self method]> api)
          (api_methods self) methods_to_check in
  run print (Discovered (count_available api) (length methods_to_check));
  ret {| email := email self; password := password self;
         client := client self; api_methods := api |}.

(** [self.api_methods.get(name, False)] *)
Definition available (self : Exporter) (name : string) : bool :=
  default false (api_methods self !! name).

(** *** Authentication *)

(** [self.client.login(...)] against the vendor. *)
Definition login (result : option Exception) : M unit :=
  match result with
  | None => ret tt
  | Some e => raise e
  end.

(** [if not self.email: self.email = input(...)] *)
Definition ask_if_missing (field : option string) (prompt : Line) : M string :=
  match field with
  | Some (String c rest) => ret (String c rest)
  | _ => input prompt
  end.

Definition authenticate (self : Exporter) : M (Exporter * bool) :=
  let self :=
    {| email := email self; password := password self;
       client := true; api_methods := api_methods self |} in
  try_except
    (run login (token_login w);
     run print AuthOkTokens;
     do self <- _discover_api_methods self;
     ret (self, true))
    (fun _ =>
       do email <- ask_if_missing (email self) PromptEmail;
       do password <- ask_if_missing (password self) PromptPassword;
       let self :=
         {| email := Some email; password := Some password;
            client := true; api_methods := api_methods self |} in
       try_except
         (run login (credential_login w email password);
          run print AuthOkCredentials;
          do self <- _discover_api_methods self;
          ret (self, true))
         (fun e => run print (AuthFailed e); ret (self, false))).

(** *** User profile *)

Definition export_user_profile (self : Exporter) : M Profile :=
  run print ExportingProfile;
  do t <- now;
  let today := dt_date t in
  do f <- client_attr self "get_full_name";
  do full_name <- safe_call f [];
  do f <- client_attr self "get_unit_system";
  do unit_system <- safe_call f [];
  do f <- client_attr self "get_user_summary";
  do user_summary <- safe_call f [ADate today];
  do f <- client_attr self "get_devices";
  do devices <- safe_call f [];
  ret {| full_name := full_name; unit_system := unit_system;
         user_summary := user_summary; devices := devices |}.

(** *** Activities *)

(** [v[:5]] followed by iteration over the slice. *)
Definition first_five (v : PyVal) : M (list PyVal) :=
  match v with
  | PList items => ret (take 5 items)
  | PStr s => ret (map (fun c => PStr (String c EmptyString)) (take 5 (list_ascii_of_string s)))
  | PDict _ => raise (TypeError "unhashable type: 'slice'")  (* a KeyError since CPython 3.12 *)
  | _ => raise (TypeError ("'" +:+ type_name v +:+ "' object is not subscriptable"))
  end.

(** [activity.get(key)] *)
Definition dict_get (activity : PyVal) (key : string) : M PyVal :=
  match activity with
  | PDict entries =>
      ret (default PNone (snd <$> List.find (fun kv => String.eqb (fst kv) key) entries))
  | _ => raise (AttributeError (type_name activity) "get")
  end.

(** [len(v)] *)
Definition py_len (v : PyVal) : M nat :=
  match v with
  | PList items => ret (length items)
  | PStr s => ret (String.length s)
  | PDict entries => ret (length entries)
  | _ => raise (TypeError ("object of type '" +:+ type_name v +:+ "' has no len()"))
  end.

(** The body of [for i, activity in enumerate(activities_list[:5])],
    over the activities still to visit. *)
Fixpoint detail_loop (self : Exporter) (i : nat) (todo : list PyVal)
    (detailed_activities : list PyVal) : M (list PyVal) :=
  match todo with
  | [] => ret detailed_activities
  | activity :: rest =>
      run print (ActivityDetails (S i));
      do activity_id <- dict_get activity "activityId";
      do detailed_activities <-
        (if truthy activity_id then
           do f <- client_attr self "get_activity";
           do details <- safe_call f [AVal activity_id];
           ret (if truthy details then detailed_activities ++ [details]
                else detailed_activities)
         else ret detailed_activities);
      detail_loop self (S i) rest detailed_activities
  end.

Definition export_activities (self : Exporter) (limit : Z) : M Activities :=
  run print ExportingActivities;
  do f <- client_attr self "get_activities";
  do activities_list <- safe_call f [AVal (PInt 0); AVal (PInt limit)];
  do f <- client_attr self "get_last_activity";
  do last_activity <- safe_call f [];
  do detailed_activities <-
    (if truthy activities_list then
       do todo <- first_five activities_list;
       detail_loop self 0 todo []
     else ret []);
  do count <- (if truthy activities_list then py_len activities_list else ret 0%nat);
  ret {| act_metadata :=
           {| total_requested := limit;
              actual_count := count;
              detailed_sample_count := length detailed_activities |};
         all_activities := activities_list;
         last_activity := last_activity;
         detailed_sample := detailed_activities |}.

(** *** Loops over dates *)

(** [while cond(st): st = body(st)], unrolled at most [fuel] times. *)
Fixpoint while_ {St : Type} (fuel : nat) (cond : St -> bool)
    (body : St -> M St) (st : St) : M St :=
  match fuel with
  | O => ret st
  | S fuel' =>
      if cond st then
        do st' <- body st;
        while_ fuel' cond body st'
      else ret st
  end.

(** The number of iterations that [current <= end_date] can hold for when
    [current] grows by at least a day each time. *)
Definition days_left (current end_date : Z) : nat :=
  Z.to_nat (end_date - current + 1).

(** The pattern repeated for every optional daily metric:
    [if self.api_methods.get(name, False): v = self.safe_call(self.client.name, date_str);
     if v: series.append({"date": date_str, "data": v})]. *)
Definition gated {H : Type} (self : Exporter) (name : string) (d : Z)
    (append : SamplePoint -> H -> H) (h : H) : M H :=
  if available self name then
    do f <- client_attr self name;
    do v <- safe_call f [ADate d];
    ret (if truthy v then append {| date := d; data := v |} h else h)
  else ret h.


(** *** Daily health metrics *)

Definition add_daily_summary (p : SamplePoint) (h : DailyHealth) : DailyHealth :=
  {| dh_metadata := dh_metadata h;
     daily_summaries := daily_summaries h ++ [p];
     heart_rate_data := heart_rate_data h;
     sleep_data := sleep_data h;
     stress_data := stress_data h;
     steps_data := steps_data h;
     body_battery_indicators := body_battery_indicators h |}.

Definition add_heart_rate (p : SamplePoint) (h : DailyHealth) : DailyHealth :=
  {| dh_metadata := dh_metadata h;
     daily_summaries := daily_summaries h;
     heart_rate_data := heart_rate_data h ++ [p];
     sleep_data := sleep_data h;
     stress_data := stress_data h;
     steps_data := steps_data h;
     body_battery_indicators := body_battery_indicators h |}.

Definition add_sleep (p : SamplePoint) (h : DailyHealth) : DailyHealth :=
  {| dh_metadata := dh_metadata h;
     daily_summaries := daily_summaries h;
     heart_rate_data := heart_rate_data h;
     sleep_data := sleep_data h ++ [p];
     stress_data := stress_data h;
     steps_data := steps_data h;
     body_battery_indicators := body_battery_indicators h |}.

Definition add_stress (p : SamplePoint) (h : DailyHealth) : DailyHealth :=
  {| dh_metadata := dh_metadata h;
     daily_summaries := daily_summaries h;
     heart_rate_data := heart_rate_data h;
     sleep_data := sleep_data h;
     stress_data := stress_data h ++ [p];
     steps_data := steps_data h;
     body_battery_indicators := body_battery_indicators h |}.

Definition add_steps (p : SamplePoint) (h : DailyHealth) : DailyHealth :=
  {| dh_metadata := dh_metadata h;
     daily_summaries := daily_summaries h;
     heart_rate_data := heart_rate_data h;
     sleep_data := sleep_data h;
     stress_data := stress_data h;
     steps_data := steps_data h ++ [p];
     body_battery_indicators := body_battery_indicators h |}.

Definition add_body_battery_indicator (i : Indicator) (h : DailyHealth) : DailyHealth :=
  {| dh_metadata := dh_metadata h;
     daily_summaries := daily_summaries h;
     heart_rate_data := heart_rate_data h;
     sleep_data := sleep_data h;
     stress_data := stress_data h;
     steps_data := steps_data h;
     body_battery_indicators := body_battery_indicators h ++ [i] |}.

(** The main daily summary of one retained date, with the scan of its
    text for the Body Battery keywords. *)
Definition daily_summary (self : Exporter) (current : Z) (h : DailyHealth) : M DailyHealth :=
  do f <- client_attr self "get_stats_and_body";
  do summary <- safe_call f [ADate current];
  ret (if truthy summary then
         let h := add_daily_summary {| date := current; data := summary |} h in
         let summary_str := py_str w summary in
         if contains "bodyBattery" summary_str
            || contains "bodyBatteryValuesArray" summary_str
         then add_body_battery_indicator
                {| ind_date := current; found_in_summary := true |} h
         else h
       else h).

(** What is done for a date with [day_counter % 2 == 0]. *)
Definition daily_day (self : Exporter) (current : Z) (h : DailyHealth) : M DailyHealth :=
  run print (Processing current);
  do h <- daily_summary self current h;
  do h <- gated self "get_heart_rates" current add_heart_rate h;
  do h <- gated self "get_sleep_data" current add_sleep h;
  do h <- gated self "get_stress_data" current add_stress h;
  gated self "get_steps_data" current add_steps h.

(** One turn of [while current <= end_date] in
    [export_daily_health_metrics]; the loop state is
    [(current, day_counter, health_data)]. *)
Definition daily_step (self : Exporter) (st : Z * Z * DailyHealth) : M (Z * Z * DailyHealth) :=
  let '(current, day_counter, h) := st in
  do h <- (if day_counter mod 2 =? 0 then daily_day self current h else ret h);
  do current <- date_add current 1;
  ret (current, day_counter + 1, h).

Definition export_daily_health_metrics (self : Exporter) (days_back : Z) : M DailyHealth :=
  run print (ExportingHealth days_back);
  do t <- now;
  let end_date := dt_date t in
  do start_date <- date_add end_date (- days_back);
  let health_data :=
    {| dh_metadata :=
         {| period_start := start_date; period_end := end_date;
            sampling_strategy := "every_2nd_day" |};
       daily_summaries := []; heart_rate_data := []; sleep_data := [];
       stress_data := []; steps_data := []; body_battery_indicators := [] |} in
  do st <- while_ (days_left start_date end_date)
             (fun st => st.1.1 <=? end_date)
             (daily_step self) (start_date, 0, health_data);
  ret st.2.

(** *** Fitness metrics *)

Definition add_training_readiness (p : SamplePoint) (f : Fitness) : Fitness :=
  {| fm_metadata := fm_metadata f;
     training_readiness := training_readiness f ++ [p];
     training_status := training_status f;
     resting_heart_rate := resting_heart_rate f;
     body_composition := body_composition f;
     weight_measurements := weight_measurements f |}.

Definition add_training_status (p : SamplePoint) (f : Fitness) : Fitness :=
  {| fm_metadata := fm_metadata f;
     training_readiness := training_readiness f;
     training_status := training_status f ++ [p];
     resting_heart_rate := resting_heart_rate f;
     body_composition := body_composition f;
     weight_measurements := weight_measurements f |}.

Definition add_resting_heart_rate (p : SamplePoint) (f : Fitness) : Fitness :=
  {| fm_metadata := fm_metadata f;
     training_readiness := training_readiness f;
     training_status := training_status f;
     resting_heart_rate := resting_heart_rate f ++ [p];
     body_composition := body_composition f;
     weight_measurements := weight_measurements f |}.

Definition add_body_composition (p : SamplePoint) (f : Fitness) : Fitness :=
  {| fm_metadata := fm_metadata f;
     training_readiness := training_readiness f;
     training_status := training_status f;
     resting_heart_rate := resting_heart_rate f;
     body_composition := body_composition f ++ [p];
     weight_measurements := weight_measurements f |}.

Definition set_weight_measurements (v : PyVal) (f : Fitness) : Fitness :=
  {| fm_metadata := fm_metadata f;
     training_readiness := training_readiness f;
     training_status := training_status f;
     resting_heart_rate := resting_heart_rate f;
     body_composition := body_composition f;
     weight_measurements := v |}.

(** One turn of [while current <= end_date] in [export_fitness_metrics];
    the loop state is [(current, fitness_data)]. *)
Definition fitness_step (self : Exporter) (st : Z * Fitness) : M (Z * Fitness) :=
  let '(current, f) := st in
  do f <- gated self "get_training_readiness" current add_training_readiness f;
  do f <- gated self "get_training_status" current add_training_status f;
  do f <- gated self "get_rhr_day" current add_resting_heart_rate f;
  do f <- gated self "get_body_composition" current add_body_composition f;
  do current <- date_add current 7;
  ret (current, f).

Definition export_fitness_metrics (self : Exporter) (days_back : Z) : M Fitness :=
  run print ExportingFitness;
  do t <- now;
  let end_date := dt_date t in
  do start_date <- date_add end_date (- days_back);
  let fitness_data :=
    {| fm_metadata :=
         {| period_start := start_date; period_end := end_date;
            sampling_strategy := "weekly" |};
       training_readiness := []; training_status := [];
       resting_heart_rate := []; body_composition := [];
       weight_measurements := PNone |} in
  do st <- while_ (days_left start_date end_date)
             (fun st => st.1 <=? end_date)
             (fitness_step self) (start_date, fitness_data);
  let fitness_data := st.2 in
  if available self "get_weigh_ins" then
    try_except
      (do f <- client_attr self "get_weigh_ins";
       do weight_data <- safe_call f [ADate start_date; ADate end_date];
       ret (set_weight_measurements weight_data fitness_data))
      (fun _ => ret fitness_data)
  else ret fitness_data.

(** *** Specialized health *)

Definition add_respiration (p : SamplePoint) (x : Specialized) : Specialized :=
  {| sh_metadata := sh_metadata x;
     respiration_data := respiration_data x ++ [p];
     pulse_ox_data := pulse_ox_data x;
     hydration_data := hydration_data x;
     womens_health := womens_health x |}.

Definition add_pulse_ox (p : SamplePoint) (x : Specialized) : Specialized :=
  {| sh_metadata := sh_metadata x;
     respiration_data := respiration_data x;
     pulse_ox_data := pulse_ox_data x ++ [p];
     hydration_data := hydration_data x;
     womens_health := womens_health x |}.

Definition add_hydration (p : SamplePoint) (x : Specialized) : Specialized :=
  {| sh_metadata := sh_metadata x;
     respiration_data := respiration_data x;
     pulse_ox_data := pulse_ox_data x;
     hydration_data := hydration_data x ++ [p];
     womens_health := womens_health x |}.

(** [specialized["specialized_health"]["womens_health"][key] = v] *)
Definition set_womens_health (key : string) (v : PyVal) (x : Specialized) : Specialized :=
  {| sh_metadata := sh_metadata x;
     respiration_data := respiration_data x;
     pulse_ox_data := pulse_ox_data x;
     hydration_data := hydration_data x;
     womens_health := <[key := v]> (womens_health x) |}.

(** One turn of [while current <= end_date] in
    [export_specialized_health]; the loop state is [(current, specialized)]. *)
Definition specialized_step (self : Exporter) (st : Z * Specialized) : M (Z * Specialized) :=
  let '(current, x) := st in
  do x <- gated self "get_respiration_data" current add_respiration x;
  do x <- gated self "get_pulse_ox" current add_pulse_ox x;
  do x <- gated self "get_hydration_data" current add_hydration x;
  do current <- date_add current 7;
  ret (current, x).

Definition export_specialized_health (self : Exporter) (days_back : Z) : M Specialized :=
  run print ExportingSpecialized;
  do t <- now;
  let end_date := dt_date t in
  do start_date <- date_add end_date (- days_back);
  let specialized :=
    {| sh_metadata :=
         {| period_start := start_date; period_end := end_date;
            sampling_strategy := "weekly" |};
       respiration_data := []; pulse_ox_data := []; hydration_data := [];
       womens_health := ∅ |} in
  do st <- while_ (days_left start_date end_date)
             (fun st => st.1 <=? end_date)
             (specialized_step self) (start_date, specialized);
  let specialized := st.2 in
  do specialized <-
    (if available self "get_menstrual_calendar_data" then
       do f <- client_attr self "get_menstrual_calendar_data";
       do menstrual <- safe_call f [ADate start_date; ADate end_date];
       ret (set_womens_health "menstrual" menstrual specialized)
     else ret specialized);
  if available self "get_pregnancy_summary" then
    do f <- client_attr self "get_pregnancy_summary";
    do pregnancy <- safe_call f [];
    ret (set_womens_health "pregnancy" pregnancy specialized)
  else ret specialized.


(** *** Context synthesizer *)

Definition analysis_instructions_text : Instructions :=
  {| primary_focus :=
       [ "Identify patterns in activity and health data";
         "Analyze correlations between sleep, stress, and performance";
         "Assess training load and recovery patterns";
         "Provide actionable health and fitness insights" ];
     data_format_notes :=
       [ "All dates in YYYY-MM-DD ISO format";
         "Some metrics sampled (every 2nd/7th day) to optimize file size";
         "Missing data points are normal - not all metrics available daily";
         "Look for trends rather than absolute values" ];
     recommended_approach :=
       [ "Start with data_overview to understand available metrics";
         "Focus on activities and daily_health_metrics for main insights";
         "Cross-reference sleep and stress with activity performance";
         "Provide specific, actionable recommendations" ] |}.

(** [llm_context["available_metrics"].append(metric)] together with
    [llm_context["suggested_analyses"].append(analysis)] *)
Definition note_metric (metric analysis : string) (c : Context) : Context :=
  {| export_timestamp := export_timestamp c;
     data_overview := data_overview c;
     available_metrics := available_metrics c ++ [metric];
     suggested_analyses := suggested_analyses c ++ [analysis];
     data_quality_notes := data_quality_notes c;
     analysis_instructions := analysis_instructions c |}.

(** [llm_context["suggested_analyses"].append(analysis)] *)
Definition suggest (analysis : string) (c : Context) : Context :=
  {| export_timestamp := export_timestamp c;
     data_overview := data_overview c;
     available_metrics := available_metrics c;
     suggested_analyses := suggested_analyses c ++ [analysis];
     data_quality_notes := data_quality_notes c;
     analysis_instructions := analysis_instructions c |}.

(** [llm_context["data_overview"][key] = note] *)
Definition set_overview (key : string) (note : OverviewNote) (c : Context) : Context :=
  {| export_timestamp := export_timestamp c;
     data_overview := <[key := note]> (data_overview c);
     available_metrics := available_metrics c;
     suggested_analyses := suggested_analyses c;
     data_quality_notes := data_quality_notes c;
     analysis_instructions := analysis_instructions c |}.

(** [if series: ...] on a list of sample points. *)
Definition nonempty {A} (series : list A) : bool :=
  match series with
  | [] => false
  | _ => true
  end.

(** The block [if "activities" in all_data and
    all_data["activities"].get("all_activities"): ...]. *)
Definition note_activities (all_data : ExportDocument) (llm_context : Context) : M Context :=
  match doc_activities all_data with
  | Some activities =>
      if truthy (all_activities activities) then
        do activities_count <- py_len (all_activities activities);
        ret (note_metric "activity_patterns" "activity_trends_and_performance_analysis"
               (set_overview "activities" (ActivitiesRecorded activities_count)
                  llm_context))
      else ret llm_context
  | None => ret llm_context
  end.

(** The block [if "daily_health_metrics" in all_data: ...]. *)
Definition note_daily_health (all_data : ExportDocument) (llm_context : Context) : Context :=
  match doc_daily_health_metrics all_data with
  | Some health =>
      let c := llm_context in
      let c := if nonempty (heart_rate_data health)
               then note_metric "heart_rate_data" "heart_rate_zone_analysis" c else c in
      let c := if nonempty (sleep_data health)
               then note_metric "sleep_patterns" "sleep_quality_and_recovery_assessment" c
               else c in
      if nonempty (stress_data health)
      then note_metric "stress_levels" "stress_impact_on_performance" c else c
  | None => llm_context
  end.

(** The block [if "fitness_metrics" in all_data: ...]. *)
Definition note_fitness (all_data : ExportDocument) (llm_context : Context) : Context :=
  match doc_fitness_metrics all_data with
  | Some fitness =>
      let c := llm_context in
      let c := if nonempty (training_readiness fitness)
               then suggest "training_readiness_optimization" c else c in
      if nonempty (resting_heart_rate fitness)
      then suggest "cardiovascular_fitness_trends" c else c
  | None => llm_context
  end.

Definition create_llm_analysis_context (all_data : ExportDocument) : M Context :=
  do t <- now;
  let llm_context :=
    {| export_timestamp := t;
       data_overview := ∅;
       available_metrics := [];
       suggested_analyses := [];
       data_quality_notes := [];
       analysis_instructions := analysis_instructions_text |} in
  do llm_context <- note_activities all_data llm_context;
  let llm_context := note_daily_health all_data llm_context in
  let llm_context := note_fitness all_data llm_context in
  ret llm_context.

(** *** Export driver *)

Definition empty_document : ExportDocument :=
  {| doc_user_profile := None; doc_activities := None;
     doc_daily_health_metrics := None; doc_fitness_metrics := None;
     doc_specialized_health := None; doc_llm_analysis_context := None |}.

(** [all_data.update({"user_profile": p})], and so on for each section. *)
Definition update_user_profile (p : Profile) (d : ExportDocument) : ExportDocument :=
  {| doc_user_profile := Some p; doc_activities := doc_activities d;
     doc_daily_health_metrics := doc_daily_health_metrics d;
     doc_fitness_metrics := doc_fitness_metrics d;
     doc_specialized_health := doc_specialized_health d;
     doc_llm_analysis_context := doc_llm_analysis_context d |}.

Definition update_activities (a : Activities) (d : ExportDocument) : ExportDocument :=
  {| doc_user_profile := doc_user_profile d; doc_activities := Some a;
     doc_daily_health_metrics := doc_daily_health_metrics d;
     doc_fitness_metrics := doc_fitness_metrics d;
     doc_specialized_health := doc_specialized_health d;
     doc_llm_analysis_context := doc_llm_analysis_context d |}.

Definition update_daily_health_metrics (h : DailyHealth) (d : ExportDocument) : ExportDocument :=
  {| doc_user_profile := doc_user_profile d; doc_activities := doc_activities d;
     doc_daily_health_metrics := Some h;
     doc_fitness_metrics := doc_fitness_metrics d;
     doc_specialized_health := doc_specialized_health d;
     doc_llm_analysis_context := doc_llm_analysis_context d |}.

Definition update_fitness_metrics (f : Fitness) (d : ExportDocument) : ExportDocument :=
  {| doc_user_profile := doc_user_profile d; doc_activities := doc_activities d;
     doc_daily_health_metrics := doc_daily_health_metrics d;
     doc_fitness_metrics := Some f;
     doc_specialized_health := doc_specialized_health d;
     doc_llm_analysis_context := doc_llm_analysis_context d |}.

Definition update_specialized_health (x : Specialized) (d : ExportDocument) : ExportDocument :=
  {| doc_user_profile := doc_user_profile d; doc_activities := doc_activities d;
     doc_daily_health_metrics := doc_daily_health_metrics d;
     doc_fitness_metrics := doc_fitness_metrics d;
     doc_specialized_health := Some x;
     doc_llm_analysis_context := doc_llm_analysis_context d |}.

Definition update_llm_analysis_context (c : Context) (d : ExportDocument) : ExportDocument :=
  {| doc_user_profile := doc_user_profile d; doc_activities := doc_activities d;
     doc_daily_health_metrics := doc_daily_health_metrics d;
     doc_fitness_metrics := doc_fitness_metrics d;
     doc_specialized_health := doc_specialized_health d;
     doc_llm_analysis_context := Some c |}.

(** The keys of [all_data] in insertion order.  Every section value is a
    dict with fixed keys, hence non-empty and true. *)
Definition section_names (d : ExportDocument) : list string :=
  (if doc_user_profile d is Some _ then ["user_profile"] else [])
  ++ (if doc_activities d is Some _ then ["activities"] else [])
  ++ (if doc_daily_health_metrics d is Some _ then ["daily_health_metrics"] else [])
  ++ (if doc_fitness_metrics d is Some _ then ["fitness_metrics"] else [])
  ++ (if doc_specialized_health d is Some _ then ["specialized_health"] else [])
  ++ (if doc_llm_analysis_context d is Some _ then ["llm_analysis_context"] else []).

Definition set_file (filename : FileName) (content : FileContent) : M unit :=
  fun s =>
    (Ok tt, {| stdout := stdout s; calls := calls s; ticks := ticks s;
               typed := typed s; files := <[filename := content]> (files s) |}).

(** [open(filename, 'w', encoding='utf-8')]: the file exists and is empty
    once this has succeeded. *)
Definition open_for_writing (filename : FileName) : M unit :=
  match open_fault w filename with
  | Some e => raise e
  | None => set_file filename Partial
  end.

(** [json.dump(all_data, f, ...)] inside [with open(...) as f]; a fault
    leaves what had been written so far. *)
Definition json_dump (filename : FileName) (all_data : ExportDocument) : M unit :=
  match dump_fault w all_data with
  | Some e => raise e
  | None => set_file filename (Complete all_data)
  end.

Fixpoint print_all (lines : list Line) : M unit :=
  match lines with
  | [] => ret tt
  | l :: rest => run print l; print_all rest
  end.

(** Steps 1 to 6 of the [try] block: the section collectors and the
    context synthesizer, merged into [all_data]. *)
Definition collect_sections (self : Exporter) (days_back : Z) : M ExportDocument :=
  let all_data := empty_document in
  do p <- export_user_profile self;
  let all_data := update_user_profile p all_data in
  do a <- export_activities self 300;
  let all_data := update_activities a all_data in
  do h <- export_daily_health_metrics self days_back;
  let all_data := update_daily_health_metrics h all_data in
  do f <- export_fitness_metrics self days_back;
  let all_data := update_fitness_metrics f all_data in
  do x <- export_specialized_health self days_back;
  let all_data := update_specialized_health x all_data in
  do c <- create_llm_analysis_context all_data;
  ret (update_llm_analysis_context c all_data).

(** "Save to file": the file name and the [with open(...)] block. *)
Definition save_document (all_data : ExportDocument) : M FileName :=
  do t <- now;
  let filename := strftime t in
  run open_for_writing filename;
  run json_dump filename all_data;
  ret filename.

(** The statistics and instructions printed after the file is written
    (the size in megabytes is left out). *)
Definition report (filename : FileName) (all_data : ExportDocument) : M unit :=
  let names := section_names all_data in
  run print (ExportCompleted filename (length names));
  run print_all (map (fun name => SectionStatus name true) names);
  print (UploadAdvice filename).

(** What [export_complete_dataset] returns: [False] or the file name. *)
Inductive Result : Type :=
| ReturnFalse
| ReturnFilename (filename : FileName).

Definition export_complete_dataset (self : Exporter) (days_back : Z) : M (Exporter * Result) :=
  do '(self, authenticated) <- authenticate self;
  if negb authenticated then ret (self, ReturnFalse)
  else
    run print (Banner days_back);
    try_except
      (do all_data <- collect_sections self days_back;
       do filename <- save_document all_data;
       run report filename all_data;
       ret (self, ReturnFilename filename))
      (fun e => run print (ExportFailed e); ret (self, ReturnFalse)).

End Program.

(** ** Vocabulary of the specifications *)

(** What [safe_call] hands back for an outcome of the operation. *)
Definition result_of (o : Outcome PyVal) : PyVal :=
  match o with
  | Ok v => v
  | Raise _ => PNone
  end.

Definition record (func : string) (args : list Arg) (o : Outcome PyVal) : CallRecord :=
  {| call := {| op := func; args := args |}; outcome := o |}.

(** [m] only appends to the call log, and [Φ] relates its outcome with the
    records it appends. *)
Definition logs {A} (m : M A) (Φ : Outcome A -> list CallRecord -> Prop) : Prop :=
  forall s, exists new, calls (m s).2 = calls s ++ new /\ Φ (m s).1 new.

(** Every value [m] returns satisfies [P]. *)
Definition returns {A} (m : M A) (P : A -> Prop) : Prop :=
  forall s a, (m s).1 = Ok a -> P a.

(** [m] leaves the working directory as it is. *)
Definition keeps_files {A} (m : M A) : Prop :=
  forall s, files (m s).2 = files s.

(** The calls [m] makes are those of [expected], in that order: all of
    them when [m] returns, and then the value returned satisfies [Q]; an
    initial part of them when [m] raises. *)
Definition emits_with {A} (m : M A) (expected : list Call) (Q : A -> Prop) : Prop :=
  logs m (fun r new =>
    match r with
    | Ok a => call <$> new = expected /\ Q a
    | Raise _ => (call <$> new) `prefix_of` expected
    end).

Definition emits {A} (m : M A) (expected : list Call) : Prop :=
  emits_with m expected (fun _ => True).

(** Every call [m] makes satisfies [P]. *)
Definition only_calls {A} (P : CallRecord -> Prop) (m : M A) : Prop :=
  logs m (fun _ new => Forall P new).

(** [m] always returns, with a value that satisfies [P]. *)
Definition total {A} (m : M A) (P : A -> Prop) : Prop :=
  forall s, exists a, (m s).1 = Ok a /\ P a.

(** *** Capability gating *)

(** The operations of the user profile and activities collectors. *)
Definition base_operations : list string :=
  [ "get_full_name"; "get_unit_system"; "get_user_summary"; "get_devices";
    "get_activities"; "get_last_activity"; "get_activity" ].

(** The gate as the specification words it: a call is made only for an
    available capability or for a base operation. *)
Definition base_or_available (self : Exporter) (r : CallRecord) : Prop :=
  available self (op (call r)) = true \/ op (call r) ∈ base_operations.

(** The operations the code calls without consulting the capability set. *)
Definition always_attempted : list string :=
  base_operations ++ [ "get_stats_and_body" ].

Definition gate (self : Exporter) (r : CallRecord) : Prop :=
  available self (op (call r)) = true \/ op (call r) ∈ always_attempted.

(** The calls of a loop whose turn at key [k] makes the calls [out k] and
    moves to [next k], for at most [fuel] turns. *)
Fixpoint schedule {K : Type} (fuel : nat) (cond : K -> bool) (next : K -> K)
    (out : K -> list Call) (k : K) : list Call :=
  match fuel with
  | O => []
  | S fuel' =>
      if cond k then out k ++ schedule fuel' cond next out (next k) else []
  end.

(** ** Stub collaborators

    Small worlds on which the definitions are run. *)

Definition idle : State :=
  {| stdout := []; calls := []; ticks := 0; typed := 0; files := ∅ |}.

(** Python's [repr] on data without floats and without quotes or escapes
    inside strings. *)
Fixpoint py_repr (v : PyVal) : string :=
  match v with
  | PNone => "None"
  | PBool true => "True"
  | PBool false => "False"
  | PInt n => pretty n
  | PFloat _ => "nan"
  | PStr s => "'" +:+ s +:+ "'"
  | PList items => "[" +:+ String.concat ", " (map py_repr items) +:+ "]"
  | PDict entries =>
      "{" +:+ String.concat ", "
                (map (fun kv => let '(k, x) := kv in "'" +:+ k +:+ "': " +:+ py_repr x)
                     entries) +:+ "}"
  end.

(** Python's [str] on the same data. *)
Definition py_str_stub (v : PyVal) : string :=
  match v with
  | PStr s => s
  | _ => py_repr v
  end.

(** The 4th of November 2026, at noon. *)
Definition noon : DateTime := {| dt_date := 739924; dt_micros := 43200000000 |}.

(** A client that has every operation and answers [None] to each call. *)
Definition quiet_world : World :=
  {| clock := fun _ => noon;
     keyboard := fun _ => Ok "";
     token_login := None;
     credential_login := fun _ _ => None;
     has_attr := fun _ => true;
     respond := fun _ _ => Ok PNone;
     py_str := py_str_stub;
     open_fault := fun _ => None;
     dump_fault := fun _ => None |}.

(** A client without any of the probed operations. *)
Definition bare_world : World :=
  {| clock := clock quiet_world;
     keyboard := keyboard quiet_world;
     token_login := None;
     credential_login := credential_login quiet_world;
     has_attr := fun name => bool_decide (name ∉ methods_to_check);
     respond := respond quiet_world;
     py_str := py_str_stub;
     open_fault := open_fault quiet_world;
     dump_fault := dump_fault quiet_world |}.

(** A client without the probed operations whose daily summary has
    Body Battery values on the 1st of November 2026, steps only on the
    3rd, and nothing on the other days. *)
Definition summary_world : World :=
  {| clock := clock quiet_world;
     keyboard := keyboard quiet_world;
     token_login := None;
     credential_login := credential_login quiet_world;
     has_attr := fun name => bool_decide (name ∉ methods_to_check);
     respond := fun _ c =>
       match args c with
       | [ADate d] =>
           if String.eqb (op c) "get_stats_and_body" then
             if d =? 739921 then
               Ok (PDict [("bodyBatteryValuesArray", PList []);
                          ("totalSteps", PInt 8042)])
             else if d =? 739923 then Ok (PDict [("totalSteps", PInt 12)])
             else Ok (PDict [])
           else Ok PNone
       | _ => Ok PNone
       end;
     py_str := py_str_stub;
     open_fault := fun _ => None;
     dump_fault := fun _ => None |}.

(** A client all of whose operations fail with "not found". *)
Definition not_found : Exception :=
  {| exc_class := "GarminConnectConnectionError";
     exc_text := "Error in request: 404 Client Error: Not Found" |}.

Definition missing_world : World :=
  {| clock := clock quiet_world;
     keyboard := keyboard quiet_world;
     token_login := None;
     credential_login := credential_login quiet_world;
     has_attr := has_attr quiet_world;
     respond := fun _ _ => Raise not_found;
     py_str := py_str_stub;
     open_fault := fun _ => None;
     dump_fault := fun _ => None |}.

(** The exporter as [authenticate] leaves it in a world. *)
Definition authenticated (w : World) : Exporter :=
  match authenticate w (init None None) idle with
  | (Ok (self, _), _) => self
  | _ => init None None
  end.

(** A world in which nothing more can be written once the output file
    has been created. *)
Definition full_disk_world : World :=
  {| clock := clock quiet_world;
     keyboard := keyboard quiet_world;
     token_login := None;
     credential_login := credential_login quiet_world;
     has_attr := has_attr quiet_world;
     respond := respond quiet_world;
     py_str := py_str_stub;
     open_fault := fun _ => None;
     dump_fault := fun _ =>
       Some {| exc_class := "OSError";
               exc_text := "[Errno 28] No space left on device" |} |}.

(** A world whose clock is stuck on the last day a [date] can hold, so
    that stepping to the next day overflows. *)
Definition last_day_world : World :=
  {| clock := fun _ => {| dt_date := date_max; dt_micros := 0 |};
     keyboard := keyboard quiet_world;
     token_login := None;
     credential_login := credential_login quiet_world;
     has_attr := has_attr quiet_world;
     respond := respond quiet_world;
     py_str := py_str_stub;
     open_fault := fun _ => None;
     dump_fault := fun _ => None |}.

(** A world in which neither the stored tokens nor any credentials are
    accepted. *)
Definition expired : Exception :=
  {| exc_class := "FileNotFoundError"; exc_text := "no stored tokens" |}.

Definition refused : Exception :=
  {| exc_class := "GarminConnectAuthenticationError"; exc_text := "401 Unauthorized" |}.

Definition locked_out_world : World :=
  {| clock := clock quiet_world;
     keyboard := fun n => Ok match n with O => "me@example.org" | _ => "secret" end;
     token_login := Some expired;
     credential_login := fun _ _ => Some refused;
     has_attr := has_attr quiet_world;
     respond := respond quiet_world;
     py_str := py_str_stub;
     open_fault := fun _ => None;
     dump_fault := fun _ => None |}.

(** A world without stored tokens in which the input has ended, as when
    the program runs with nothing to read from. *)
Definition closed_input_world : World :=
  {| clock := clock quiet_world;
     keyboard := fun _ => Raise EOFError;
     token_login := Some expired;
     credential_login := credential_login quiet_world;
     has_attr := has_attr quiet_world;
     respond := respond quiet_world;
     py_str := py_str_stub;
     open_fault := fun _ => None;
     dump_fault := fun _ => None |}.

(** *** Failure of the run *)

(** C3 as the specification words it, for a run that gets past
    authentication: a fault of the collector phase or of the
    serialization makes the driver return [False] with the working
    directory as it was. *)
Definition aborts_without_output (w : World) (self : Exporter) (days_back : Z)
    (s : State) : Prop :=
  forall self' s1, authenticate w self s = (Ok (self', true), s1) ->
    let s2 := (print (Banner days_back) s1).2 in
    let final := export_complete_dataset w self days_back s in
    (forall e s3, collect_sections w self' days_back s2 = (Raise e, s3) ->
       final.1 = Ok (self', ReturnFalse) /\ files final.2 = files s)
    /\ (forall all_data s3 e s4,
          collect_sections w self' days_back s2 = (Ok all_data, s3) ->
          save_document w all_data s3 = (Raise e, s4) ->
          final.1 = Ok (self', ReturnFalse) /\ files final.2 = files s).

(** *** Sampling *)

(** The operations called for every retained date, per collector. *)
Definition daily_operations (self : Exporter) : list string :=
  "get_stats_and_body"
  :: filter (fun name => available self name = true)
       [ "get_heart_rates"; "get_sleep_data"; "get_stress_data"; "get_steps_data" ].

Definition fitness_operations (self : Exporter) : list string :=
  filter (fun name => available self name = true)
    [ "get_training_readiness"; "get_training_status"; "get_rhr_day";
      "get_body_composition" ].

Definition specialized_operations (self : Exporter) : list string :=
  filter (fun name => available self name = true)
    [ "get_respiration_data"; "get_pulse_ox"; "get_hydration_data" ].

(** The calls made for the date [d] by a collector with per-date
    operations [ops]. *)
Definition calls_at (ops : list string) (d : Z) : list Call :=
  map (fun name => {| op := name; args := [ADate d] |}) ops.

(** The dates for which the operation [name] is called with that date as
    its only argument, in the order of the calls. *)
Definition dates_of (name : string) (l : list Call) : list Z :=
  flat_map
    (fun c =>
       if String.eqb (op c) name then
         match args c with
         | [ADate d] => [d]
         | _ => []
         end
       else [])
    l.

(** The dates a loop visits that starts at [current] and steps by [k]
    days while [current <= end_date]. *)
Fixpoint every_kth (fuel : nat) (k current end_date : Z) : list Z :=
  match fuel with
  | O => []
  | S fuel' =>
      if current <=? end_date
      then current :: every_kth fuel' k (current + k) end_date
      else []
  end.

(** The dates retained by a loop that steps by one day and keeps the
    dates at which [day_counter] is even. *)
Fixpoint every_other (fuel : nat) (current day_counter end_date : Z) : list Z :=
  match fuel with
  | O => []
  | S fuel' =>
      if current <=? end_date
      then (if day_counter mod 2 =? 0 then [current] else [])
           ++ every_other fuel' (current + 1) (day_counter + 1) end_date
      else []
  end.

(** The dates at which [m] calls [name] are those of [expected]: all of
    them when [m] returns, an initial part when it raises. *)
Definition dated {A} (name : string) (m : M A) (expected : list Z) : Prop :=
  logs m (fun r new =>
    match r with
    | Ok _ => dates_of name (call <$> new) = expected
    | Raise _ => dates_of name (call <$> new) `prefix_of` expected
    end).

(** A sequence of dates that, when it is not empty, starts at [start] and
    in which consecutive dates are exactly [k] days apart. *)
Definition strided (k start : Z) (dates : list Z) : Prop :=
  (forall d, dates !! 0%nat = Some d -> d = start)
  /\ (forall i a b, dates !! i = Some a -> dates !! S i = Some b -> b = a + k).

(** Every date of the range that is a multiple of [k] days after its start
    is among [dates]. *)
Definition covers (k start end_date : Z) (dates : list Z) : Prop :=
  forall j, 0 <= j -> start + k * j <= end_date -> start + k * j ∈ dates.

(** What C5 says of the calls [new] of one run of a collector with stride
    [k] and per-date operations [ops], for the operation [name]. *)
Definition sampled_every (k : Z) (ops : list string) (name : string)
    (start end_date : Z) (returned : bool) (new : list CallRecord) : Prop :=
  let dates := dates_of name (call <$> new) in
  strided k start dates
  /\ Forall (fun d => start <= d <= end_date) dates
  /\ (returned = true -> name ∈ ops -> covers k start end_date dates).

Definition is_ok {A} (r : Outcome A) : bool :=
  match r with
  | Ok _ => true
  | Raise _ => false
  end.

(** *** Range of the sample points *)

Definition in_range (start end_date : Z) (p : SamplePoint) : Prop :=
  start <= date p <= end_date.

(** Every sample point of a fragment is dated within [start, end_date]. *)
Definition daily_in_range (start end_date : Z) (h : DailyHealth) : Prop :=
  Forall (in_range start end_date) (daily_summaries h)
  /\ Forall (in_range start end_date) (heart_rate_data h)
  /\ Forall (in_range start end_date) (sleep_data h)
  /\ Forall (in_range start end_date) (stress_data h)
  /\ Forall (in_range start end_date) (steps_data h)
  /\ Forall (fun i => start <= ind_date i <= end_date) (body_battery_indicators h).

Definition fitness_in_range (start end_date : Z) (f : Fitness) : Prop :=
  Forall (in_range start end_date) (training_readiness f)
  /\ Forall (in_range start end_date) (training_status f)
  /\ Forall (in_range start end_date) (resting_heart_rate f)
  /\ Forall (in_range start end_date) (body_composition f).

Definition specialized_in_range (start end_date : Z) (x : Specialized) : Prop :=
  Forall (in_range start end_date) (respiration_data x)
  /\ Forall (in_range start end_date) (pulse_ox_data x)
  /\ Forall (in_range start end_date) (hydration_data x).

(** [P] holds of the value of an outcome, if there is one. *)
Definition when_ok {A} (r : Outcome A) (P : A -> Prop) : Prop :=
  match r with
  | Ok a => P a
  | Raise _ => True
  end.

(** *** Body Battery indicators *)

(** The test applied to the daily summary: it is true, and its text
    contains one of the two keywords. *)
Definition mentions_body_battery (w : World) (summary : PyVal) : bool :=
  truthy summary
  && (contains "bodyBattery" (py_str w summary)
      || contains "bodyBatteryValuesArray" (py_str w summary)).

(** What C10 says of the fragment [h] of a run with calls [new]. *)
Definition indicators_match (w : World) (new : list CallRecord) (h : DailyHealth) : Prop :=
  (forall d,
     (exists i, i ∈ body_battery_indicators h /\ ind_date i = d)
     <-> (exists v, record "get_stats_and_body" [ADate d] (Ok v) ∈ new
            /\ mentions_body_battery w v = true))
  /\ Forall (fun i => found_in_summary i = true) (body_battery_indicators h)
  /\ Forall (fun i => exists p, p ∈ daily_summaries h /\ date p = ind_date i)
       (body_battery_indicators h).

(** A step from [h] to [h'] with calls [new] keeps [indicators_match]. *)
Definition keeps_match (w : World) (new : list CallRecord) (h h' : DailyHealth) : Prop :=
  forall acc, indicators_match w acc h -> indicators_match w (acc ++ new) h'.

(** Every call [m] makes satisfies [Q], and every value it returns
    satisfies [P]. *)
Definition yields {A} (Q : CallRecord -> Prop) (P : A -> Prop) (m : M A) : Prop :=
  logs m (fun r new => Forall Q new /\ forall a, r = Ok a -> P a).

(** *** Whole-period results *)

(** What C9 says of the fitness fragment [f] of a run with calls [new]. *)
Definition weight_defaults_to_null (self : Exporter) (new : list CallRecord)
    (f : Fitness) : Prop :=
  (available self "get_weigh_ins" = false -> weight_measurements f = PNone)
  /\ (forall a e, record "get_weigh_ins" a (Raise e) ∈ new ->
        weight_measurements f = PNone).

(** What C9 says of one key of the grouping [womens_health] of the
    specialized health fragment [x] of a run with calls [new]. *)
Definition womens_health_placeholder (self : Exporter) (name key : string)
    (new : list CallRecord) (x : Specialized) : Prop :=
  (available self name = true -> is_Some (womens_health x !! key))
  /\ (forall a e, record name a (Raise e) ∈ new ->
        womens_health x !! key = Some PNone).

(** *** Activities *)

(** A detail call [r] made for one of the activities [todo]: it asks
    [get_activity] for the [activityId] of that activity. *)
Definition detail_of (todo : list PyVal) (r : CallRecord) : Prop :=
  op (call r) = "get_activity"
  /\ exists activity activity_id,
       activity ∈ todo
       /\ dict_get activity "activityId" = ret activity_id
       /\ args (call r) = [AVal activity_id].

(** The records of a listing of activities: the entries of the list, and
    none when the listing is not a list. *)
Definition records_of (activities_list : PyVal) : list PyVal :=
  match activities_list with
  | PList items => items
  | _ => []
  end.

(** The [activityId] of an activity record, [None] when it has none. *)
Definition activity_id_of (activity : PyVal) : PyVal :=
  match activity with
  | PDict entries =>
      default PNone
        (snd <$> List.find (fun kv => String.eqb (fst kv) "activityId") entries)
  | _ => PNone
  end.

(** The detail calls that the records [todo] call for: one call of
    [get_activity] for each record with a true [activityId], with that
    identifier, in the order of the records. *)
Definition detail_calls (todo : list PyVal) : list Call :=
  flat_map
    (fun activity =>
       if truthy (activity_id_of activity)
       then [{| op := "get_activity"; args := [AVal (activity_id_of activity)] |}]
       else [])
    todo.

(** What C8 says of the fragment [a] of a run of the activities
    collector with calls [new]. *)
Definition activities_as_specified (limit : Z) (new : list CallRecord)
    (a : Activities) : Prop :=
  exists listed last details,
    new = record "get_activities" [AVal (PInt 0); AVal (PInt limit)] listed
          :: record "get_last_activity" [] last :: details
    /\ all_activities a = result_of listed
    /\ last_activity a = result_of last
    /\ Forall (fun r => op (call r) = "get_activity") details
    /\ (forall items, all_activities a = PList items ->
          Forall (detail_of (take 5 items)) details)
    /\ (length details <= 5)%nat
    /\ detailed_sample a
       = List.filter truthy (map (fun r => result_of (outcome r)) details)
    /\ total_requested (act_metadata a) = limit
    /\ (truthy (all_activities a) = false -> actual_count (act_metadata a) = 0%nat)
    /\ (forall items, all_activities a = PList items ->
          actual_count (act_metadata a) = length items)
    /\ detailed_sample_count (act_metadata a) = length (detailed_sample a)
    /\ call <$> details = detail_calls (take 5 (records_of (all_activities a))).

(** *** Context synthesizer *)

(** Two summaries agree on everything but the export timestamp. *)
Definition same_summary (c1 c2 : Context) : Prop :=
  data_overview c1 = data_overview c2
  /\ available_metrics c1 = available_metrics c2
  /\ suggested_analyses c1 = suggested_analyses c2
  /\ data_quality_notes c1 = data_quality_notes c2
  /\ analysis_instructions c1 = analysis_instructions c2.

(** The presence checks, in the words of the specification: a section is
    in the document and the series under the given key is not empty. *)
Definition has_series {F : Type} (section : option F)
    (series : F -> list SamplePoint) : bool :=
  match section with
  | Some fragment => nonempty (series fragment)
  | None => false
  end.

Definition has_activities (all_data : ExportDocument) : bool :=
  match doc_activities all_data with
  | Some activities => truthy (all_activities activities)
  | None => false
  end.

Definition tag (present : bool) (name : string) : list string :=
  if present then [name] else [].

(** The list of available metrics that the presence checks call for. *)
Definition expected_metrics (all_data : ExportDocument) : list string :=
  tag (has_activities all_data) "activity_patterns"
  ++ tag (has_series (doc_daily_health_metrics all_data) heart_rate_data)
       "heart_rate_data"
  ++ tag (has_series (doc_daily_health_metrics all_data) sleep_data) "sleep_patterns"
  ++ tag (has_series (doc_daily_health_metrics all_data) stress_data) "stress_levels".

(** The list of suggested analyses that the presence checks call for. *)
Definition expected_analyses (all_data : ExportDocument) : list string :=
  tag (has_activities all_data) "activity_trends_and_performance_analysis"
  ++ tag (has_series (doc_daily_health_metrics all_data) heart_rate_data)
       "heart_rate_zone_analysis"
  ++ tag (has_series (doc_daily_health_metrics all_data) sleep_data)
       "sleep_quality_and_recovery_assessment"
  ++ tag (has_series (doc_daily_health_metrics all_data) stress_data)
       "stress_impact_on_performance"
  ++ tag (has_series (doc_fitness_metrics all_data) training_readiness)
       "training_readiness_optimization"
  ++ tag (has_series (doc_fitness_metrics all_data) resting_heart_rate)
       "cardiovascular_fitness_trends".

(** The context [c'] is [c] with [metrics] and [analyses] appended to its
    two lists, the overview apart. *)
Definition extends_context (c c' : Context) (metrics analyses : list string) : Prop :=
  available_metrics c' = available_metrics c ++ metrics
  /\ suggested_analyses c' = suggested_analyses c ++ analyses
  /\ export_timestamp c' = export_timestamp c
  /\ data_quality_notes c' = data_quality_notes c
  /\ analysis_instructions c' = analysis_instructions c.

(** What C7 says of two runs of the synthesizer on the same document,
    with outcomes [r1] and [r2], the first started when the clock showed
    [t1]. *)
Definition reproducible (w : World) (all_data : ExportDocument) (t1 : DateTime)
    (r1 r2 : Outcome Context) : Prop :=
  match r1, r2 with
  | Ok c1, Ok c2 =>
      same_summary c1 c2
      /\ export_timestamp c1 = t1
      /\ available_metrics c1 = expected_metrics all_data
      /\ suggested_analyses c1 = expected_analyses all_data
      /\ ("sleep_patterns" ∈ available_metrics c1
          <-> exists health, doc_daily_health_metrics all_data = Some health
                /\ sleep_data health <> [])
      /\ ("sleep_quality_and_recovery_assessment" ∈ suggested_analyses c1
          <-> exists health, doc_daily_health_metrics all_data = Some health
                /\ sleep_data health <> [])
  | Raise e1, Raise e2 => e1 = e2
  | _, _ => False
  end.

(** *** Capability prober and authentication *)

(** What the prober leaves under [name] in the capability set: the answer
    of the client for a probed name, and what was there before for any
    other name. *)
Definition probed (w : World) (self : Exporter) (name : string) : bool :=
  if bool_decide (name ∈ methods_to_check) then hasattr w self name
  else available self name.

(** [not field], for [self.email] and [self.password]. *)
Definition is_missing (field : option string) : bool :=
  match field with
  | Some (String _ _) => false
  | _ => true
  end.

(** The field after [if not field: field = input(...)] when [line] is
    what the prompt gives, a line or an exception. *)
Definition stored_or_typed (field : option string) (line : Outcome string)
    : Outcome string :=
  match field with
  | Some (String c rest) => Ok (String c rest)
  | _ => line
  end.

(** The credentials that [authenticate] sends when it is started in the
    state [s] and the stored tokens are refused (or the exception of the
    prompt for a credential), and the number of prompts shown by then. *)
Definition mail_sent (w : World) (self : Exporter) (s : State) : Outcome string :=
  stored_or_typed (email self) (keyboard w (typed s)).

Definition typed_after_mail (self : Exporter) (s : State) : nat :=
  if is_missing (email self) then S (typed s) else typed s.

Definition pass_sent (w : World) (self : Exporter) (s : State) : Outcome string :=
  stored_or_typed (password self) (keyboard w (typed_after_mail self s)).

Definition typed_after_pass (self : Exporter) (s : State) : nat :=
  if is_missing (password self) then S (typed_after_mail self s)
  else typed_after_mail self s.

(** The line of an outcome of a prompt, if there is one. *)
Definition line_of (o : Outcome string) : option string :=
  match o with
  | Ok line => Some line
  | Raise _ => None
  end.

(** How [authenticate] ends: with [True] when the stored tokens are
    accepted; else with the exception of a prompt for a missing
    credential, if that prompt raises; else with whether the credentials
    are accepted. *)
Definition login_outcome (w : World) (self : Exporter) (s : State) : Outcome bool :=
  match token_login w with
  | None => Ok true
  | Some _ =>
      match mail_sent w self s with
      | Raise e => Raise e
      | Ok mail =>
          match pass_sent w self s with
          | Raise e => Raise e
          | Ok pass =>
              Ok (match credential_login w mail pass with
                  | None => true
                  | Some _ => false
                  end)
          end
      end
  end.

(** An exception that a prompt of the world raises. *)
Definition raised_at_a_prompt (w : World) (e : Exception) : Prop :=
  exists n, keyboard w n = Raise e.

(** *** User profile and activities *)

(** The calls of the user profile collector on the day [today]. *)
Definition profile_calls (today : Z) : list Call :=
  [ {| op := "get_full_name"; args := [] |};
    {| op := "get_unit_system"; args := [] |};
    {| op := "get_user_summary"; args := [ADate today] |};
    {| op := "get_devices"; args := [] |} ].

(** The fields of the profile, in the order in which they are fetched. *)
Definition profile_fields (p : Profile) : list PyVal :=
  [ full_name p; unit_system p; user_summary p; devices p ].

(** Whether the loop over the first five activities gets past
    [activity]: it is a dict, and the client has [get_activity] when the
    [activityId] of the dict is true. *)
Definition detail_can_run (w : World) (activity : PyVal) : bool :=
  match activity with
  | PDict entries =>
      negb (truthy (default PNone
                      (snd <$> List.find (fun kv => String.eqb (fst kv) "activityId")
                                 entries)))
      || has_attr w "get_activity"
  | _ => false
  end.

(** Whether the activities collector gets past what [get_activities]
    gave it: nothing, or a list through whose first five entries the loop
    runs. *)
Definition listing_can_run (w : World) (activities_list : PyVal) : bool :=
  negb (truthy activities_list)
  || match activities_list with
     | PList items => forallb (detail_can_run w) (take 5 items)
     | _ => false
     end.

(** *** Provenance of the series *)

(** The sample points that the records [new] of a run give for the
    operation [name]: one for each call of [name] with a date as its only
    argument that returned a true value, in the order of the calls. *)
Definition points_of (name : string) (new : list CallRecord) : list SamplePoint :=
  flat_map
    (fun r =>
       if String.eqb name (op (call r)) then
         match args (call r), outcome r with
         | [ADate d], Ok v => if truthy v then [{| date := d; data := v |}] else []
         | _, _ => []
         end
       else [])
    new.

(** The series of each fragment, with the operation each is filled from. *)
Definition daily_series : list (string * (DailyHealth -> list SamplePoint)) :=
  [ ("get_stats_and_body", daily_summaries); ("get_heart_rates", heart_rate_data);
    ("get_sleep_data", sleep_data); ("get_stress_data", stress_data);
    ("get_steps_data", steps_data) ].

Definition fitness_series : list (string * (Fitness -> list SamplePoint)) :=
  [ ("get_training_readiness", training_readiness);
    ("get_training_status", training_status);
    ("get_rhr_day", resting_heart_rate);
    ("get_body_composition", body_composition) ].

Definition specialized_series : list (string * (Specialized -> list SamplePoint)) :=
  [ ("get_respiration_data", respiration_data); ("get_pulse_ox", pulse_ox_data);
    ("get_hydration_data", hydration_data) ].

(** From the fragment [h] to the fragment [h'] with the calls [new], every
    series of [table] has grown by the points that [new] gives for its
    operation, and the metadata are the same. *)
Definition filled_from {H : Type} (meta : H -> Metadata)
    (table : list (string * (H -> list SamplePoint)))
    (h : H) (new : list CallRecord) (h' : H) : Prop :=
  meta h' = meta h
  /\ Forall (fun ns => ns.2 h' = ns.2 h ++ points_of ns.1 new) table.

(** [append] adds its point to the series of [name], and to no other. *)
Definition appends_to {H : Type} (meta : H -> Metadata)
    (table : list (string * (H -> list SamplePoint)))
    (name : string) (append : SamplePoint -> H -> H) : Prop :=
  (forall p h, meta (append p h) = meta h)
  /\ Forall (fun ns => forall p h,
               ns.2 (append p h)
               = if String.eqb ns.1 name then ns.2 h ++ [p] else ns.2 h)
       table.

(** A fragment whose series are exactly the points of the calls [new]. *)
Definition daily_filled (new : list CallRecord) (h : DailyHealth) : Prop :=
  daily_summaries h = points_of "get_stats_and_body" new
  /\ heart_rate_data h = points_of "get_heart_rates" new
  /\ sleep_data h = points_of "get_sleep_data" new
  /\ stress_data h = points_of "get_stress_data" new
  /\ steps_data h = points_of "get_steps_data" new.

Definition fitness_filled (new : list CallRecord) (f : Fitness) : Prop :=
  training_readiness f = points_of "get_training_readiness" new
  /\ training_status f = points_of "get_training_status" new
  /\ resting_heart_rate f = points_of "get_rhr_day" new
  /\ body_composition f = points_of "get_body_composition" new.

Definition specialized_filled (new : list CallRecord) (x : Specialized) : Prop :=
  respiration_data x = points_of "get_respiration_data" new
  /\ pulse_ox_data x = points_of "get_pulse_ox" new
  /\ hydration_data x = points_of "get_hydration_data" new.

(** *** Order of the sample points *)

(** A series whose dates go up: any two of its points are a positive
    multiple of [k] days apart, the later in the series being the later in
    time. *)
Definition ascending (k : Z) (series : list SamplePoint) : Prop :=
  forall i j p q, (i < j)%nat -> series !! i = Some p -> series !! j = Some q ->
    exists n, 0 < n /\ date q = date p + k * n.

(** *** Number of calls *)

(** The number of dates of a range of [days_back] days that a loop with
    stride [k] retains. *)
Definition retained_count (k days_back : Z) : nat :=
  Z.to_nat (days_back / k + 1).

(** In the calls [new] of a run with stride [k], no operation is called
    for more dates than are retained, and when the run returned each of
    the per-date operations [ops] has been called for exactly that many. *)
Definition called_once_per_date (k days_back : Z) (ops : list string)
    (returned : bool) (new : list CallRecord) : Prop :=
  (forall name,
     (length (dates_of name (call <$> new)) <= retained_count k days_back)%nat)
  /\ (if returned
      then Forall (fun name => length (dates_of name (call <$> new))
                               = retained_count k days_back) ops
      else True).

(** *** Export driver *)

(** The keys of a document that all the collectors and the synthesizer
    have contributed to. *)
Definition all_sections : list string :=
  [ "user_profile"; "activities"; "daily_health_metrics"; "fitness_metrics";
    "specialized_health"; "llm_analysis_context" ].

(** What the driver has done to the working directory [before] when it
    answers [result] and leaves the directory [after]: a file name is
    returned only for a file that holds a whole document with all its
    sections, and nothing else has changed; with [False] the directory is
    as it was, but for the file that a failed [json.dump] leaves. *)
Definition written (w : World) (before after : gmap FileName FileContent)
    (result : Result) : Prop :=
  match result with
  | ReturnFilename filename =>
      exists all_data,
        after = <[filename := Complete all_data]> before
        /\ section_names all_data = all_sections
        /\ dump_fault w all_data = None
        /\ open_fault w filename = None
  | ReturnFalse =>
      after = before
      \/ exists filename all_data,
           after = <[filename := Partial]> before
           /\ is_Some (dump_fault w all_data)
  end.

(** Values on which [len] is defined. *)
Definition has_len (v : PyVal) : bool :=
  match v with
  | PList _ | PStr _ | PDict _ => true
  | _ => false
  end.

(** The call with which the driver asks for the activities. *)
Definition listing_call : Call :=
  {| op := "get_activities"; args := [AVal (PInt 0); AVal (PInt 300)] |}.

(** The clock never shows a day from which the range of [days_back] days
    or the step to the next date would leave the days that a [date] can
    hold. *)
Definition dates_fit (w : World) (days_back : Z) : Prop :=
  forall n,
    date_min <= dt_date (clock w n) - days_back <= date_max
    /\ dt_date (clock w n) + 7 <= date_max.

(** A client that lists three activities, the first of them with an
    identifier, and answers [None] to every other call. *)
Definition listed_activities : PyVal :=
  PList [PDict [("activityId", PInt 1)]; PDict []; PDict []].

Definition listing_world : World :=
  {| clock := clock quiet_world;
     keyboard := keyboard quiet_world;
     token_login := None;
     credential_login := credential_login quiet_world;
     has_attr := has_attr quiet_world;
     respond := fun _ c =>
       if String.eqb (op c) "get_activities" then Ok listed_activities else Ok PNone;
     py_str := py_str_stub;
     open_fault := fun _ => None;
     dump_fault := fun _ => None |}.

(** The fragment that the activities collector returns for this client. *)
Definition three_activities : Activities :=
  {| act_metadata := {| total_requested := 300; actual_count := 3;
                        detailed_sample_count := 0 |};
     all_activities := listed_activities;
     last_activity := PNone;
     detailed_sample := [] |}.

(** *** Classes of faults *)

(** [needle] occurs in [text] as a run of consecutive characters. *)
Definition occurs (needle text : string) : Prop :=
  exists before after, text = before +:+ needle +:+ after.

(** *** Order of the calls *)

(** The dates that a loop with stride [k] retains of a range of
    [days_back] days that starts at [start]. *)
Definition retained_dates (k start days_back : Z) : list Z :=
  (fun j => start + k * Z.of_nat j) <$> seq 0 (retained_count k days_back).

(** A call for the whole period, when it is asked for. *)
Definition whole_period_call (asked : bool) (name : string) (a : list Arg) : list Call :=
  if asked then [{| op := name; args := a |}] else [].

(** The calls [made] by a run with outcome [r] follow [expected]: they
    are all of them when the run returned, and an initial part of them
    when it raised. *)
Definition follows {A} (r : Outcome A) (made expected : list Call) : Prop :=
  match r with
  | Ok _ => made = expected
  | Raise _ => made `prefix_of` expected
  end.


(** ** Reasoning rules for the monad *)

Section Rules.

Variable w : World.

Lemma bind_ok {A B} (m : M A) (f : A -> M B) s a s' :
  m s = (Ok a, s') -> bind m f s = f a s'.
Proof. unfold bind. by intros ->. Qed.

Lemma bind_raise {A B} (m : M A) (f : A -> M B) s e s' :
  m s = (Raise e, s') -> bind m f s = (Raise e, s').
Proof. unfold bind. by intros ->. Qed.

Lemma logs_ret {A} (a : A) (Φ : Outcome A -> list CallRecord -> Prop) :
  Φ (Ok a) [] -> logs (ret a) Φ.
Proof. intros H s. exists []. by rewrite app_nil_r. Qed.

Lemma logs_raise {A} e (Φ : Outcome A -> list CallRecord -> Prop) :
  Φ (Raise e) [] -> logs (raise e) Φ.
Proof. intros H s. exists []. by rewrite app_nil_r. Qed.

Lemma logs_print l (Φ : Outcome unit -> list CallRecord -> Prop) :
  Φ (Ok tt) [] -> logs (print l) Φ.
Proof. intros H s. exists []. by rewrite app_nil_r. Qed.

Lemma logs_now (Φ : Outcome DateTime -> list CallRecord -> Prop) :
  (forall t, Φ (Ok t) []) -> logs (now w) Φ.
Proof. intros H s. exists []. simpl. by rewrite app_nil_r. Qed.

Lemma logs_weaken {A} (m : M A) (Φ Ψ : Outcome A -> list CallRecord -> Prop) :
  logs m Φ -> (forall r new, Φ r new -> Ψ r new) -> logs m Ψ.
Proof. intros Hm HΦ s. destruct (Hm s) as (new & ? & ?). eauto. Qed.

Lemma logs_bind {A B} (m : M A) (f : A -> M B)
    (Φ1 : Outcome A -> list CallRecord -> Prop)
    (Φ2 : A -> Outcome B -> list CallRecord -> Prop)
    (Φ : Outcome B -> list CallRecord -> Prop) :
  logs m Φ1 ->
  (forall a, logs (f a) (Φ2 a)) ->
  (forall a n1 r n2, Φ1 (Ok a) n1 -> Φ2 a r n2 -> Φ r (n1 ++ n2)) ->
  (forall e n1, Φ1 (Raise e) n1 -> Φ (Raise e) n1) ->
  logs (bind m f) Φ.
Proof.
  intros Hm Hf Hok Hraise s. unfold bind.
  destruct (Hm s) as (n1 & Hc1 & H1).
  destruct (m s) as [[a|e] s1]; simpl in *.
  - destruct (Hf a s1) as (n2 & Hc2 & H2).
    exists (n1 ++ n2). rewrite Hc2, Hc1, app_assoc. eauto.
  - exists n1. eauto.
Qed.

Lemma logs_try {A} (m : M A) (handler : Exception -> M A)
    (Φ1 : Outcome A -> list CallRecord -> Prop)
    (Φ2 : Exception -> Outcome A -> list CallRecord -> Prop)
    (Φ : Outcome A -> list CallRecord -> Prop) :
  logs m Φ1 ->
  (forall e, logs (handler e) (Φ2 e)) ->
  (forall a n1, Φ1 (Ok a) n1 -> Φ (Ok a) n1) ->
  (forall e n1 r n2, Φ1 (Raise e) n1 -> Φ2 e r n2 -> Φ r (n1 ++ n2)) ->
  logs (try_except m handler) Φ.
Proof.
  intros Hm Hh Hok Hraise s. unfold try_except.
  destruct (Hm s) as (n1 & Hc1 & H1).
  destruct (m s) as [[a|e] s1]; simpl in *.
  - exists n1. eauto.
  - destruct (Hh e s1) as (n2 & Hc2 & H2).
    exists (n1 ++ n2). rewrite Hc2, Hc1, app_assoc. eauto.
Qed.

Lemma logs_safe_call func args :
  logs (safe_call w func args)
    (fun r new => exists o, new = [record func args o] /\ r = Ok (result_of o)).
Proof.
  intros s. unfold safe_call, try_except, invoke, bind, print, ret, record. simpl.
  destruct (respond w (calls s) _) as [v|e] eqn:E; simpl.
  - exists [record func args (Ok v)]. split; [done|]. by exists (Ok v).
  - exists [record func args (Raise e)]. split; [done|]. by exists (Raise e).
Qed.

Lemma logs_client_attr self name :
  logs (client_attr w self name)
    (fun r new => new = [] /\ (r = Ok name \/ exists e, r = Raise e)).
Proof.
  intros s. exists []. rewrite app_nil_r. unfold client_attr.
  destruct (client self), (has_attr w name); simpl; eauto.
Qed.

Lemma logs_date_add d n :
  logs (date_add d n)
    (fun r new => new = [] /\ (r = Ok (d + n) \/ exists e, r = Raise e)).
Proof.
  intros s. exists []. rewrite app_nil_r. unfold date_add.
  destruct (_ && _); simpl; eauto.
Qed.

(** The complete behaviour of one optional daily metric. *)
Lemma logs_gated {H} self name d (append : SamplePoint -> H -> H) h :
  logs (gated w self name d append h)
    (fun r new =>
       if available self name then
         (new = [] /\ exists e, r = Raise e)
         \/ exists o, new = [record name [ADate d] o]
              /\ r = Ok (if truthy (result_of o)
                         then append {| date := d; data := result_of o |} h else h)
       else new = [] /\ r = Ok h).
Proof.
  intros s. unfold gated, client_attr, safe_call, try_except, invoke, bind, print, ret, raise.
  destruct (available self name); [|exists []; by rewrite app_nil_r].
  destruct (client self); [|exists []; rewrite app_nil_r; eauto].
  destruct (has_attr w name); simpl; [|exists []; rewrite app_nil_r; eauto].
  destruct (respond w (calls s) _) as [v|e] eqn:E; simpl.
  - exists [record name [ADate d] (Ok v)]. split; [done|]. right. by exists (Ok v).
  - exists [record name [ADate d] (Raise e)]. split; [done|]. right. by exists (Raise e).
Qed.

(** [safe_call] always returns, and adds exactly one record. *)
Lemma safe_call_run func args s :
  let o := respond w (calls s) {| op := func; args := args |} in
  exists s1,
    safe_call w func args s = (Ok (result_of o), s1)
    /\ calls s1 = calls s ++ [record func args o]
    /\ files s1 = files s /\ ticks s1 = ticks s.
Proof.
  unfold safe_call, try_except, invoke, bind, print, ret, record. simpl.
  destruct (respond w (calls s) _) as [v|e]; simpl; eauto.
Qed.

(** Reading an attribute of the client, calling it safely and going on
    with the result. *)
Lemma logs_attr_call {B} self name args (k : PyVal -> M B)
    (Φ : Outcome B -> list CallRecord -> Prop) :
  (forall o, logs (k (result_of o)) (fun r new => Φ r (record name args o :: new))) ->
  (forall e, Φ (Raise e) []) ->
  logs (do f <- client_attr w self name; do v <- safe_call w f args; k v) Φ.
Proof.
  intros Hk Hraise s. unfold client_attr.
  destruct (client self); [destruct (has_attr w name)|];
    try (exists []; rewrite app_nil_r; split; [done|apply Hraise]).
  destruct (safe_call_run name args s) as (s1 & Hrun & Hcalls & _).
  destruct (Hk (respond w (calls s) {| op := name; args := args |}) s1)
    as (new & Hnew & HΦ).
  unfold bind, ret. simpl. rewrite Hrun.
  eexists. split; [|exact HΦ]. rewrite Hnew, Hcalls, <- app_assoc. done.
Qed.

(** *** Loops *)

Lemma logs_while {St} (Inv : St -> list CallRecord -> Prop) cond (body : St -> M St) :
  (forall st acc, Inv st acc -> cond st = true ->
     logs (body st) (fun r new => forall st', r = Ok st' -> Inv st' (acc ++ new))) ->
  forall fuel st acc, Inv st acc ->
    logs (while_ fuel cond body st)
      (fun r new => forall st', r = Ok st' -> Inv st' (acc ++ new)).
Proof.
  intros Hbody. induction fuel as [|fuel IH]; intros st acc Hinv s; simpl.
  - exists []. rewrite !app_nil_r. split; [done|]. by intros st' [= <-].
  - destruct (cond st) eqn:Hc.
    + destruct (Hbody st acc Hinv Hc s) as (n1 & Hc1 & H1). unfold bind.
      destruct (body st s) as [[st1|e] s1]; simpl in *.
      * destruct (IH st1 (acc ++ n1) (H1 st1 eq_refl) s1) as (n2 & Hc2 & H2).
        exists (n1 ++ n2). rewrite Hc2, Hc1, !app_assoc. by split.
      * exists n1. by split.
    + exists []. rewrite !app_nil_r. split; [done|]. by intros st' [= <-].
Qed.

Lemma emits_with_ret {A} (a : A) (Q : A -> Prop) : Q a -> emits_with (ret a) [] Q.
Proof. intros H. by apply logs_ret. Qed.

Lemma emits_with_weaken {A} (m : M A) l (Q Q' : A -> Prop) :
  emits_with m l Q -> (forall a, Q a -> Q' a) -> emits_with m l Q'.
Proof.
  intros Hm HQ. eapply logs_weaken; [exact Hm|].
  intros [a|e] new; [|done]. intros [? ?]. eauto.
Qed.

Lemma emits_with_bind {A B} (m : M A) (f : A -> M B) l1 l2
    (Q1 : A -> Prop) (Q : B -> Prop) :
  emits_with m l1 Q1 -> (forall a, Q1 a -> emits_with (f a) l2 Q) ->
  emits_with (bind m f) (l1 ++ l2) Q.
Proof.
  intros Hm Hf s. unfold bind.
  destruct (Hm s) as (n1 & Hc1 & H1).
  destruct (m s) as [[a|e] s1]; simpl in *.
  - destruct H1 as [<- HQ1]. destruct (Hf a HQ1 s1) as (n2 & Hc2 & H2).
    exists (n1 ++ n2). rewrite Hc2, Hc1, app_assoc. split; [done|].
    rewrite fmap_app.
    destruct (f a s1).1; [destruct H2 as [-> ?]; done|by apply prefix_app].
  - exists n1. split; [done|]. by apply prefix_app_r.
Qed.

Lemma emits_bind {A B} (m : M A) (f : A -> M B) l1 l2 (Q : B -> Prop) :
  emits m l1 -> (forall a, emits_with (f a) l2 Q) -> emits_with (bind m f) (l1 ++ l2) Q.
Proof. intros Hm Hf. eapply emits_with_bind; [exact Hm|]. intros a _. apply Hf. Qed.

Lemma emits_eq {A} (m : M A) l l' (Q : A -> Prop) :
  emits_with m l Q -> l = l' -> emits_with m l' Q.
Proof. by intros H <-. Qed.

Lemma emits_ret {A} (a : A) : emits (ret a) [].
Proof. by apply emits_with_ret. Qed.

Lemma emits_print l : emits (print l) [].
Proof. by apply logs_print. Qed.

Lemma emits_with_date_add d n : emits_with (date_add d n) [] (fun d' => d' = d + n).
Proof.
  eapply logs_weaken; [apply logs_date_add|].
  intros r new [-> [->|[e ->]]]; done.
Qed.

Lemma emits_gated {H} self name d (append : SamplePoint -> H -> H) h :
  emits (gated w self name d append h)
    (if available self name then [{| op := name; args := [ADate d] |}] else []).
Proof.
  eapply logs_weaken; [apply logs_gated|]. simpl.
  intros r new. destruct (available self name).
  - intros [(-> & e & ->)|(o & -> & ->)]; [apply prefix_nil|done].
  - by intros [-> ->].
Qed.

Lemma emits_attr_call {B} self name args (k : PyVal -> M B) (Q : B -> Prop) :
  (forall v, emits_with (k v) [] Q) ->
  emits_with (do f <- client_attr w self name; do v <- safe_call w f args; k v)
    [{| op := name; args := args |}] Q.
Proof.
  intros Hk. apply logs_attr_call; [|intros; apply prefix_nil].
  intros o. eapply logs_weaken; [apply Hk|].
  intros [b|e] new; cbv beta iota.
  - intros [Hnil HQ]. split; [|done]. by rewrite fmap_cons, Hnil.
  - intros Hpre. apply prefix_nil_inv in Hpre. by rewrite fmap_cons, Hpre.
Qed.

Lemma emits_while {St K} (key : St -> K) condK next out cond (body : St -> M St) :
  (forall st, cond st = condK (key st)) ->
  (forall st, emits_with (body st) (out (key st)) (fun st' => key st' = next (key st))) ->
  forall fuel st, emits (while_ fuel cond body st) (schedule fuel condK next out (key st)).
Proof.
  intros Hcond Hbody. induction fuel as [|fuel IH]; intros st s; simpl.
  - exists []. by rewrite app_nil_r.
  - rewrite <- Hcond. destruct (cond st); [|exists []; by rewrite app_nil_r].
    destruct (Hbody st s) as (n1 & Hc1 & H1). unfold bind.
    destruct (body st s) as [[st1|e] s1]; simpl in *.
    + destruct H1 as [Hout Hkey]. destruct (IH st1 s1) as (n2 & Hc2 & H2).
      exists (n1 ++ n2). rewrite Hc2, Hc1, app_assoc. split; [done|].
      rewrite fmap_app, Hout, <- Hkey.
      destruct (while_ fuel cond body st1 s1).1;
        [destruct H2 as [-> _]; done|by apply prefix_app].
    + exists n1. split; [done|]. by apply prefix_app_r.
Qed.

(** *** Dates of the calls of one operation *)

Lemma emits_dated {A} name (m : M A) l (Q : A -> Prop) :
  emits_with m l Q -> dated name m (dates_of name l).
Proof.
  intros Hm. eapply logs_weaken; [exact Hm|].
  intros [a|e] new; simpl.
  - by intros [-> _].
  - intros [rest ->]. unfold dates_of. rewrite flat_map_app. by apply prefix_app_r.
Qed.

Lemma dated_ret {A} name (a : A) : dated name (ret a) [].
Proof. by apply logs_ret. Qed.

Lemma dated_raise {A} name e : dated name (@raise A e) [].
Proof. by apply logs_raise. Qed.

Lemma dated_bind {A B} name (m : M A) (f : A -> M B) d1 d2 :
  dated name m d1 -> (forall a, dated name (f a) d2) -> dated name (bind m f) (d1 ++ d2).
Proof.
  intros Hm Hf.
  eapply logs_bind with
    (Φ2 := fun _ r new =>
       match r with
       | Ok _ => dates_of name (call <$> new) = d2
       | Raise _ => dates_of name (call <$> new) `prefix_of` d2
       end); [exact Hm|exact Hf| |]; simpl.
  - intros a n1 r n2 <- H2. unfold dates_of in *. rewrite fmap_app, flat_map_app.
    destruct r; [by rewrite H2|by apply prefix_app].
  - intros e n1 H1. by apply prefix_app_r.
Qed.

Lemma dated_try_nil {A} name (m : M A) handler :
  dated name m [] -> (forall e, dated name (handler e) []) ->
  dated name (try_except m handler) [].
Proof.
  intros Hm Hh.
  eapply logs_try with
    (Φ2 := fun _ r new =>
       match r with
       | Ok _ => dates_of name (call <$> new) = []
       | Raise _ => dates_of name (call <$> new) `prefix_of` []
       end); [exact Hm|exact Hh| |]; simpl; [done|].
  intros e n1 r n2 H1 H2. unfold dates_of in *. rewrite fmap_app, flat_map_app.
  apply prefix_nil_inv in H1. rewrite H1. simpl. exact H2.
Qed.

(** A whole-period call, whose arguments are not a single date. *)
Lemma dated_attr_call {B} name self func args (k : PyVal -> M B) :
  (forall d, args <> [ADate d]) ->
  (forall v, dated name (k v) []) ->
  dated name (do f <- client_attr w self func; do v <- safe_call w f args; k v) [].
Proof.
  intros Hargs Hk. apply logs_attr_call; [|intros; apply prefix_nil].
  intros o. eapply logs_weaken; [apply Hk|].
  assert (forall new, dates_of name (call <$> record func args o :: new)
                      = dates_of name (call <$> new)) as Hskip.
  { intros new. rewrite fmap_cons. unfold dates_of. simpl.
    destruct (String.eqb func name); [|done].
    destruct args as [|[d|v] [|? ?]]; try done. by destruct (Hargs d). }
  intros r new H. cbv beta. by rewrite Hskip.
Qed.

(** *** Calls of a given kind only *)

Lemma only_calls_ret {A} P (a : A) : only_calls P (ret a).
Proof. by apply logs_ret. Qed.

Lemma only_calls_print P l : only_calls P (print l).
Proof. by apply logs_print. Qed.

Lemma only_calls_now P : only_calls P (now w).
Proof. by apply logs_now. Qed.

Lemma only_calls_bind {A B} P (m : M A) (f : A -> M B) :
  only_calls P m -> (forall a, only_calls P (f a)) -> only_calls P (bind m f).
Proof.
  intros Hm Hf.
  eapply logs_bind with (Φ2 := fun _ _ new => Forall P new);
    [exact Hm|exact Hf| |]; simpl; [|done].
  intros a n1 r n2 H1 H2. by apply Forall_app.
Qed.

Lemma only_calls_try {A} P (m : M A) handler :
  only_calls P m -> (forall e, only_calls P (handler e)) ->
  only_calls P (try_except m handler).
Proof.
  intros Hm Hh.
  eapply logs_try with (Φ2 := fun _ _ new => Forall P new);
    [exact Hm|exact Hh| |]; simpl; [done|].
  intros e n1 r n2 H1 H2. by apply Forall_app.
Qed.

Lemma only_calls_date_add P d n : only_calls P (date_add d n).
Proof. eapply logs_weaken; [apply logs_date_add|]. by intros r new [-> _]. Qed.

Lemma only_calls_attr_call {B} (P : CallRecord -> Prop) self name args (k : PyVal -> M B) :
  (forall o, P (record name args o)) ->
  (forall v, only_calls P (k v)) ->
  only_calls P (do f <- client_attr w self name; do v <- safe_call w f args; k v).
Proof.
  intros HP Hk. apply logs_attr_call; [|done].
  intros o. eapply logs_weaken; [apply Hk|]. intros r new H. by constructor.
Qed.

Lemma only_calls_gated {H} (P : CallRecord -> Prop) self name d
    (append : SamplePoint -> H -> H) h :
  (available self name = true -> forall o, P (record name [ADate d] o)) ->
  only_calls P (gated w self name d append h).
Proof.
  intros HP. eapply logs_weaken; [apply logs_gated|]. simpl.
  intros r new. destruct (available self name).
  - intros [(-> & _)|(o & -> & _)]; [done|]. constructor; [by apply HP|done].
  - by intros [-> _].
Qed.

Lemma only_calls_while {St} P cond (body : St -> M St) fuel st :
  (forall st, only_calls P (body st)) ->
  only_calls P (while_ fuel cond body st).
Proof.
  intros Hbody. revert st. induction fuel as [|fuel IH]; intros st; simpl.
  - by apply logs_ret.
  - destruct (cond st); [|by apply logs_ret].
    apply only_calls_bind; [apply Hbody|apply IH].
Qed.

(** More fuel than the measure of the loop state changes nothing: the
    loop has then left through its test. *)
Lemma while_enough_fuel {St} (measure : St -> nat) cond (body : St -> M St) :
  (forall st, cond st = true -> (0 < measure st)%nat) ->
  (forall st, cond st = true ->
     returns (body st) (fun st' => (measure st' < measure st)%nat)) ->
  forall fuel1 fuel2 st s,
    (measure st <= fuel1)%nat -> (measure st <= fuel2)%nat ->
    while_ fuel1 cond body st s = while_ fuel2 cond body st s.
Proof.
  intros Hpos Hdec. induction fuel1 as [|fuel1 IH]; intros fuel2 st s H1 H2.
  - destruct fuel2 as [|fuel2]; [done|]. simpl.
    destruct (cond st) eqn:Hc; [|done]. specialize (Hpos st Hc). lia.
  - destruct fuel2 as [|fuel2]; simpl.
    + destruct (cond st) eqn:Hc; [|done]. specialize (Hpos st Hc). lia.
    + destruct (cond st) eqn:Hc; [|done]. unfold bind.
      pose proof (Hdec st Hc s) as Hstep.
      destruct (body st s) as [[st'|e] s']; [|done].
      specialize (Hstep st' eq_refl). apply IH; lia.
Qed.

Lemma emits_with_returns {A} (m : M A) l (Q : A -> Prop) :
  emits_with m l Q -> returns m Q.
Proof.
  intros Hm s a Hrun. destruct (Hm s) as (new & _ & H).
  rewrite Hrun in H. by destruct H.
Qed.

(** *** The working directory *)

Lemma keeps_files_ret {A} (a : A) : keeps_files (ret a).
Proof. done. Qed.

Lemma keeps_files_raise {A} e : keeps_files (@raise A e).
Proof. done. Qed.

Lemma keeps_files_print l : keeps_files (print l).
Proof. done. Qed.

Lemma keeps_files_now : keeps_files (now w).
Proof. done. Qed.

Lemma keeps_files_input l : keeps_files (input w l).
Proof. done. Qed.

Lemma keeps_files_bind {A B} (m : M A) (f : A -> M B) :
  keeps_files m -> (forall a, keeps_files (f a)) -> keeps_files (bind m f).
Proof.
  intros Hm Hf s. unfold bind. specialize (Hm s).
  destruct (m s) as [[a|e] s1]; simpl in *; [|done].
  by rewrite Hf.
Qed.

Lemma keeps_files_try {A} (m : M A) handler :
  keeps_files m -> (forall e, keeps_files (handler e)) ->
  keeps_files (try_except m handler).
Proof.
  intros Hm Hh s. unfold try_except. specialize (Hm s).
  destruct (m s) as [[a|e] s1]; simpl in *; [done|].
  by rewrite Hh.
Qed.

Lemma keeps_files_safe_call func args : keeps_files (safe_call w func args).
Proof.
  intros s. destruct (safe_call_run func args s) as (s1 & -> & _ & Hf & _). done.
Qed.

Lemma keeps_files_client_attr self name : keeps_files (client_attr w self name).
Proof. intros s. unfold client_attr. by destruct (client self), (has_attr w name). Qed.

Lemma keeps_files_date_add d n : keeps_files (date_add d n).
Proof. intros s. unfold date_add. by destruct (_ && _). Qed.

Lemma keeps_files_while {St} cond (body : St -> M St) fuel st :
  (forall st, keeps_files (body st)) -> keeps_files (while_ fuel cond body st).
Proof.
  intros Hbody. revert st. induction fuel as [|fuel IH]; intros st; simpl; [done|].
  destruct (cond st); [|done]. by apply keeps_files_bind.
Qed.

(** *** Returned values *)

Lemma returns_ret {A} (a : A) (P : A -> Prop) : P a -> returns (ret a) P.
Proof. intros H s a' [= <-]. done. Qed.

Lemma returns_weaken {A} (m : M A) (P Q : A -> Prop) :
  returns m P -> (forall a, P a -> Q a) -> returns m Q.
Proof. intros Hm HPQ s a H. eauto. Qed.

Lemma returns_bind {A B} (m : M A) (f : A -> M B) (P : A -> Prop) (Q : B -> Prop) :
  returns m P -> (forall a, P a -> returns (f a) Q) -> returns (bind m f) Q.
Proof.
  intros Hm Hf s b. unfold bind. specialize (Hm s).
  destruct (m s) as [[a|e] s1]; simpl in *; [|done].
  apply Hf. by apply Hm.
Qed.

Lemma returns_try {A} (m : M A) handler (P : A -> Prop) :
  returns m P -> (forall e, returns (handler e) P) -> returns (try_except m handler) P.
Proof.
  intros Hm Hh s a. unfold try_except. specialize (Hm s).
  destruct (m s) as [[a'|e] s1]; simpl in *.
  - intros [= <-]. by apply Hm.
  - apply Hh.
Qed.

Lemma returns_any {A} (m : M A) : returns m (fun _ => True).
Proof. done. Qed.

Lemma returns_date_add d n : returns (date_add d n) (fun d' => d' = d + n).
Proof. intros s d'. unfold date_add. by destruct (_ && _); intros [= <-]. Qed.

Lemma returns_while {St} (Inv : St -> Prop) cond (body : St -> M St) fuel st :
  (forall st, Inv st -> cond st = true -> returns (body st) Inv) ->
  Inv st -> returns (while_ fuel cond body st) Inv.
Proof.
  intros Hbody. revert st. induction fuel as [|fuel IH]; intros st Hinv; simpl.
  - by apply returns_ret.
  - destruct (cond st) eqn:Hc; [|by apply returns_ret].
    eapply returns_bind; [by apply Hbody|]. intros st'. apply IH.
Qed.

(** One optional daily metric keeps the fragment or appends one point
    for the date it was asked about. *)
Lemma returns_gated {H} self name d (append : SamplePoint -> H -> H) h :
  returns (gated w self name d append h)
    (fun h' => h' = h \/ exists v, h' = append {| date := d; data := v |} h).
Proof.
  intros s h' Hrun. destruct (logs_gated self name d append h s) as (new & _ & Hspec).
  rewrite Hrun in Hspec. destruct (available self name).
  - destruct Hspec as [(_ & e & ?)|(o & _ & [= ->])]; [done|].
    destruct (truthy _); eauto.
  - destruct Hspec as [_ [= ->]]. by left.
Qed.

(** *** Calls and values together *)

Lemma yields_ret {A} Q (P : A -> Prop) a : P a -> yields Q P (ret a).
Proof. intros H. apply logs_ret. split; [done|]. by intros a' [= <-]. Qed.

Lemma yields_bind {A B} Q (P1 : A -> Prop) (P : B -> Prop) (m : M A) (f : A -> M B) :
  yields Q P1 m -> (forall a, P1 a -> yields Q P (f a)) -> yields Q P (bind m f).
Proof.
  intros Hm Hf s. unfold bind.
  destruct (Hm s) as (n1 & Hc1 & HQ1 & HP1).
  destruct (m s) as [[a|e] s1]; simpl in *.
  - destruct (Hf a (HP1 a eq_refl) s1) as (n2 & Hc2 & HQ2 & HP2).
    exists (n1 ++ n2). rewrite Hc2, Hc1, app_assoc.
    split; [done|]. split; [by apply Forall_app|done].
  - exists n1. by repeat split.
Qed.

Lemma yields_date_add Q d n : yields Q (fun d' => d' = d + n) (date_add d n).
Proof.
  eapply logs_weaken; [apply logs_date_add|].
  intros r new [-> [->|[e ->]]]; split; try done. by intros a [= <-].
Qed.

Lemma yields_gated {H} Q (P : H -> Prop) self name d (append : SamplePoint -> H -> H) h :
  P h -> (forall p, P (append p h)) -> (forall o, Q (record name [ADate d] o)) ->
  yields Q P (gated w self name d append h).
Proof.
  intros Hh Happend HQ. eapply logs_weaken; [apply logs_gated|]. simpl.
  intros r new Hspec. destruct (available self name).
  - destruct Hspec as [(-> & e & ->)|(o & -> & ->)]; [done|].
    split; [by apply Forall_singleton|]. intros a [= <-]. by destruct (truthy _).
  - destruct Hspec as [-> ->]. split; [done|]. by intros a [= <-].
Qed.

Lemma yields_while {St} Q (Inv : St -> Prop) cond (body : St -> M St) fuel st :
  (forall st, Inv st -> yields Q Inv (body st)) ->
  Inv st -> yields Q Inv (while_ fuel cond body st).
Proof.
  intros Hbody. revert st. induction fuel as [|fuel IH]; intros st Hinv; simpl.
  - by apply yields_ret.
  - destruct (cond st); [|by apply yields_ret].
    eapply yields_bind; [by apply Hbody|]. intros st'. apply IH.
Qed.

End Rules.

Ltac files_step :=
  first
    [ apply keeps_files_ret
    | apply keeps_files_raise
    | apply keeps_files_print
    | apply keeps_files_now
    | apply keeps_files_input
    | apply keeps_files_safe_call
    | apply keeps_files_client_attr
    | apply keeps_files_date_add
    | apply keeps_files_bind; [|intros ?]
    | apply keeps_files_try; [|intros ?]
    | apply keeps_files_while; intros ?
    | match goal with
      | |- keeps_files (if ?b then _ else _) => destruct b
      | |- keeps_files (match ?x with _ => _ end) => destruct x
      end ].

(** ** Safe invoker *)

Section SafeInvoker.

Variable w : World.

(** C2.  For every operation, argument list and state, [safe_call] returns
    the operation's own result unchanged, printing nothing, when the call
    succeeds.  When the call raises, [safe_call] still returns normally,
    with [None], and prints one diagnostic line whose class is bad-request
    if the fault text contains "400", else not-found if it contains "404",
    else invalid-parameters if it contains "arguments", else other.  In
    both cases exactly this one call is added to the log. *)
Theorem safe_call_contains_faults func args s :
  let answer := respond w (calls s) {| op := func; args := args |} in
  let after := safe_call w func args s in
  calls after.2 = calls s ++ [record func args answer]
  /\ match answer with
     | Ok v => after.1 = Ok v /\ stdout after.2 = stdout s
     | Raise e =>
         let text := exc_text e in
         after.1 = Ok PNone
         /\ exists c, stdout after.2 = stdout s ++ [Warn func c]
            /\ (contains "400" text = true -> c = BadRequest)
            /\ (contains "400" text = false -> contains "404" text = true ->
                c = NotFound)
            /\ (contains "400" text = false -> contains "404" text = false ->
                contains "arguments" text = true -> c = InvalidParameters)
            /\ (contains "400" text = false -> contains "404" text = false ->
                contains "arguments" text = false ->
                c = Other (String.substring 0 80 text))
     end.
Proof.
  unfold safe_call, try_except, invoke, bind, print, ret, record. simpl.
  destruct (respond w (calls s) _) as [v|e]; simpl; split; try done.
  split; [done|]. exists (classify (exc_text e)). split; [done|].
  unfold classify.
  destruct (contains "400" _), (contains "404" _), (contains "arguments" _);
    repeat split; congruence.
Qed.

End SafeInvoker.

(** ** Authentication failure *)

Section AuthenticationFailure.

Variable w : World.

(** C4.  When the login with stored tokens raises and the login with the
    credentials (those of the exporter, or else those typed at the
    prompts) raises too, [export_complete_dataset] returns [False] at
    once: no client operation has been called, the clock has not been
    read, no file has been touched, and the only lines printed after the
    prompts are the failure notice. *)
Theorem export_aborts_when_authentication_fails
    self days_back s e1 e2 mail s1 pass s2 :
  token_login w = Some e1 ->
  ask_if_missing w (email self) PromptEmail s = (Ok mail, s1) ->
  ask_if_missing w (password self) PromptPassword s1 = (Ok pass, s2) ->
  credential_login w mail pass = Some e2 ->
  exists self' s',
    export_complete_dataset w self days_back s = (Ok (self', ReturnFalse), s')
    /\ stdout s' = stdout s2 ++ [AuthFailed e2]
    /\ calls s' = calls s /\ ticks s' = ticks s /\ files s' = files s.
Proof.
  intros Htoken Hmail Hpass Hcred.
  unfold export_complete_dataset, authenticate.
  unfold bind at 1. unfold try_except at 1. unfold bind at 1.
  rewrite Htoken. simpl.
  rewrite (bind_ok _ _ _ _ _ Hmail), (bind_ok _ _ _ _ _ Hpass).
  unfold try_except, bind at 1. rewrite Hcred. simpl.
  eexists _, _. split; [reflexivity|]. simpl.
  assert (Hframe : forall field prompt a b t,
             ask_if_missing w field prompt a = (Ok t, b) ->
             calls b = calls a /\ ticks b = ticks a /\ files b = files a).
  { intros field prompt a b t. unfold ask_if_missing, input, ret.
    destruct field as [[|c r]|]; intros [= _ <-]; done. }
  destruct (Hframe _ _ _ _ _ Hmail) as (Hc1 & Ht1 & Hf1).
  destruct (Hframe _ _ _ _ _ Hpass) as (Hc2 & Ht2 & Hf2).
  repeat split; congruence.
Qed.

End AuthenticationFailure.

(** A run of C4: with no stored tokens and refused credentials the driver
    stops after the two prompts and the failure notice. *)
Lemma export_aborts_when_locked_out :
  token_login locked_out_world = Some expired
  /\ credential_login locked_out_world "me@example.org" "secret" = Some refused
  /\ exists self' s',
       export_complete_dataset locked_out_world (init None None) 30 idle
       = (Ok (self', ReturnFalse), s')
       /\ stdout s' = [PromptEmail; PromptPassword; AuthFailed refused]
       /\ calls s' = [] /\ files s' = ∅.
Proof.
  split; [reflexivity|]. split; [reflexivity|].
  destruct (export_aborts_when_authentication_fails locked_out_world
              (init None None) 30 idle expired refused
              "me@example.org" (input locked_out_world PromptEmail idle).2
              "secret"
              (input locked_out_world PromptPassword
                 (input locked_out_world PromptEmail idle).2).2
              eq_refl eq_refl eq_refl eq_refl)
    as (self' & s' & Hrun & Hout & Hcalls & _ & Hfiles).
  exists self', s'. split; [exact Hrun|]. split; [exact Hout|].
  split; [exact Hcalls|exact Hfiles].
Defined.

(** ** Capability gating of the collectors *)

Section Gating.

Variable w : World.

Lemma always_attempted_gate self name args o :
  name ∈ always_attempted -> gate self (record name args o).
Proof. intros H. by right. Qed.

Lemma available_gate self name args o :
  available self name = true -> gate self (record name args o).
Proof. intros H. by left. Qed.

Ltac attempted :=
  intros; apply always_attempted_gate; apply (bool_decide_unpack _); by vm_compute.

Ltac gating_step :=
  first
    [ apply only_calls_ret
    | apply only_calls_print
    | apply only_calls_now
    | apply only_calls_date_add
    | apply only_calls_attr_call; [attempted|intros ?]
    | apply only_calls_gated; intros; by apply available_gate
    | apply only_calls_bind; [|intros ?] ].

Ltac gating_seq := apply only_calls_bind; [solve [repeat gating_step]|intros ?].

Lemma profile_gated self : only_calls (gate self) (export_user_profile w self).
Proof. unfold export_user_profile. repeat gating_step. Qed.

Lemma detail_loop_gated self i todo detailed :
  only_calls (gate self) (detail_loop w self i todo detailed).
Proof.
  revert i detailed. induction todo as [|activity rest IH]; intros i detailed; simpl.
  - gating_step.
  - apply only_calls_bind; [gating_step|intros _].
    apply only_calls_bind.
    { unfold dict_get. destruct activity; gating_step || by apply logs_raise. }
    intros activity_id. apply only_calls_bind; [|intros ?; apply IH].
    destruct (truthy activity_id); repeat gating_step.
Qed.

Lemma activities_gated self limit :
  only_calls (gate self) (export_activities w self limit).
Proof.
  unfold export_activities.
  apply only_calls_bind; [gating_step|intros _].
  apply only_calls_attr_call; [attempted|intros activities_list].
  apply only_calls_attr_call; [attempted|intros last].
  apply only_calls_bind.
  { destruct (truthy activities_list); [|gating_step].
    apply only_calls_bind; [|intros ?; apply detail_loop_gated].
    unfold first_five. destruct activities_list; gating_step || by apply logs_raise. }
  intros detailed. apply only_calls_bind; [|intros ?; gating_step].
  destruct (truthy activities_list); [|gating_step].
  unfold py_len. destruct activities_list; gating_step || by apply logs_raise.
Qed.

Lemma daily_gated self days_back :
  only_calls (gate self) (export_daily_health_metrics w self days_back).
Proof.
  unfold export_daily_health_metrics. do 3 gating_seq.
  apply only_calls_bind; [|intros ?; gating_step].
  apply only_calls_while. intros [[current day_counter] h]. unfold daily_step.
  apply only_calls_bind; [|intros ?; repeat gating_step].
  destruct (_ =? _); [|gating_step].
  unfold daily_day, daily_summary. repeat gating_step.
Qed.

Lemma fitness_gated self days_back :
  only_calls (gate self) (export_fitness_metrics w self days_back).
Proof.
  unfold export_fitness_metrics. do 3 gating_seq.
  apply only_calls_bind.
  { apply only_calls_while. intros [current f]. unfold fitness_step.
    repeat gating_step. }
  intros st. destruct (available self "get_weigh_ins") eqn:Hav; [|gating_step].
  apply only_calls_try; [|intros ?; gating_step].
  apply only_calls_attr_call; [intros; by apply available_gate|intros ?; gating_step].
Qed.

Lemma specialized_gated self days_back :
  only_calls (gate self) (export_specialized_health w self days_back).
Proof.
  unfold export_specialized_health. do 3 gating_seq.
  apply only_calls_bind.
  { apply only_calls_while. intros [current x]. unfold specialized_step.
    repeat gating_step. }
  intros st. apply only_calls_bind.
  { destruct (available self "get_menstrual_calendar_data") eqn:Hav; [|gating_step].
    apply only_calls_attr_call;
      [intros; by apply available_gate|intros ?; gating_step]. }
  intros x. destruct (available self "get_pregnancy_summary") eqn:Hav; [|gating_step].
  apply only_calls_attr_call; [intros; by apply available_gate|intros ?; gating_step].
Qed.

(** C1, as the code has it.  Every call made by a section collector is
    either for an operation that the capability set marks available or
    for one of the operations that are attempted unconditionally: those
    of the user profile and activities collectors and the combined daily
    summary [get_stats_and_body] of the daily health collector.  Hence no
    probed operation that is not marked available is ever called. *)
Theorem optional_calls_are_gated self days_back limit :
  only_calls (gate self) (export_user_profile w self)
  /\ only_calls (gate self) (export_activities w self limit)
  /\ only_calls (gate self) (export_daily_health_metrics w self days_back)
  /\ only_calls (gate self) (export_fitness_metrics w self days_back)
  /\ only_calls (gate self) (export_specialized_health w self days_back)
  /\ (forall r, gate self r -> op (call r) ∈ methods_to_check ->
        available self (op (call r)) = true).
Proof.
  split; [apply profile_gated|]. split; [apply activities_gated|].
  split; [apply daily_gated|]. split; [apply fitness_gated|].
  split; [apply specialized_gated|].
  intros r [Hav|Hin] Hprobed; [done|]. exfalso. revert Hprobed.
  unfold always_attempted, base_operations in Hin. simpl in Hin.
  repeat (apply elem_of_cons in Hin as [->|Hin]);
    try (apply (bool_decide_unpack _); by vm_compute).
  by apply elem_of_nil in Hin.
Qed.

End Gating.

(** C1, as stated, fails.  With a client that lacks every probed
    operation the capability set marks nothing available, yet the daily
    health collector calls [get_stats_and_body], which is not an
    operation of the user profile or activities collectors. *)
Lemma daily_summary_is_not_gated :
  ~ only_calls (base_or_available (authenticated bare_world))
      (export_daily_health_metrics bare_world (authenticated bare_world) 0).
Proof.
  intros H. destruct (H idle) as (new & Hcalls & Hall).
  vm_compute in Hcalls. subst new.
  apply Forall_cons in Hall as [[Hav|Hbase] _].
  - by vm_compute in Hav.
  - revert Hbase. apply (bool_decide_unpack _). by vm_compute.
Qed.

(** ** Failure of the run *)

Section RunFailure.

Variable w : World.

Lemma gated_keeps_files {H} self name d (append : SamplePoint -> H -> H) h :
  keeps_files (gated w self name d append h).
Proof. unfold gated. repeat files_step. Qed.

Lemma detail_loop_keeps_files self i todo detailed :
  keeps_files (detail_loop w self i todo detailed).
Proof.
  revert i detailed. induction todo as [|activity rest IH]; intros i detailed; simpl.
  - files_step.
  - unfold dict_get.
    repeat first [apply IH | files_step].
Qed.

Lemma authenticate_keeps_files self : keeps_files (authenticate w self).
Proof.
  unfold authenticate, login, _discover_api_methods, ask_if_missing.
  repeat files_step.
Qed.

Lemma collect_sections_keeps_files self days_back :
  keeps_files (collect_sections w self days_back).
Proof.
  unfold collect_sections, export_user_profile, export_activities,
    export_daily_health_metrics, export_fitness_metrics, export_specialized_health,
    create_llm_analysis_context, note_activities, daily_step, daily_day, daily_summary,
    fitness_step, specialized_step, first_five, py_len.
  repeat first [apply gated_keeps_files | apply detail_loop_keeps_files | files_step].
Qed.

(** Past authentication the driver is its [try] block, entered after the
    banner has been printed. *)
Lemma driver_after_authentication self days_back s self' s1 :
  authenticate w self s = (Ok (self', true), s1) ->
  export_complete_dataset w self days_back s
  = try_except
      (do all_data <- collect_sections w self' days_back;
       do filename <- save_document w all_data;
       run report filename all_data;
       ret (self', ReturnFilename filename))
      (fun e => run print (ExportFailed e); ret (self', ReturnFalse))
      (print (Banner days_back) s1).2.
Proof.
  intros H. unfold export_complete_dataset.
  by rewrite (bind_ok _ _ _ _ _ H).
Qed.

(** C3, as the code has it.  In a run that gets past authentication, a
    fault that escapes the collector phase makes [export_complete_dataset]
    print the failure notice and return [False] with no file written:
    the working directory is as it was.  A fault that escapes the
    serialization also ends in the failure notice and [False]. *)
Theorem export_fails_when_a_fault_escapes self days_back s self' s1 :
  authenticate w self s = (Ok (self', true), s1) ->
  let s2 := (print (Banner days_back) s1).2 in
  let final := export_complete_dataset w self days_back s in
  (forall e s3, collect_sections w self' days_back s2 = (Raise e, s3) ->
     final.1 = Ok (self', ReturnFalse)
     /\ stdout final.2 = stdout s3 ++ [ExportFailed e]
     /\ files final.2 = files s)
  /\ (forall all_data s3 e s4,
        collect_sections w self' days_back s2 = (Ok all_data, s3) ->
        save_document w all_data s3 = (Raise e, s4) ->
        final.1 = Ok (self', ReturnFalse)
        /\ stdout final.2 = stdout s4 ++ [ExportFailed e]).
Proof.
  intros Hauth s2 final. subst final.
  rewrite (driver_after_authentication _ _ _ _ _ Hauth). fold s2.
  unfold try_except. split.
  - intros e s3 Hcollect.
    rewrite (bind_raise _ _ _ _ _ Hcollect). simpl. repeat split.
    pose proof (collect_sections_keeps_files self' days_back s2) as Hc.
    rewrite Hcollect in Hc. simpl in Hc.
    pose proof (authenticate_keeps_files self s) as Ha.
    rewrite Hauth in Ha. simpl in Ha. congruence.
  - intros all_data s3 e s4 Hcollect Hsave.
    rewrite (bind_ok _ _ _ _ _ Hcollect), (bind_raise _ _ _ _ _ Hsave). done.
Qed.

End RunFailure.

(** A run of C3: on the last day a [date] can hold, stepping to the next
    day overflows inside the daily health collector; the driver returns
    [False] and the working directory stays empty. *)
Lemma export_fails_on_the_last_day :
  authenticate last_day_world (init None None) idle
  = (Ok (authenticated last_day_world, true),
     (authenticate last_day_world (init None None) idle).2)
  /\ (export_complete_dataset last_day_world (init None None) 0 idle).1
     = Ok (authenticated last_day_world, ReturnFalse)
  /\ files (export_complete_dataset last_day_world (init None None) 0 idle).2 = ∅.
Proof.
  split; [reflexivity|].
  destruct (export_fails_when_a_fault_escapes last_day_world (init None None) 0 idle
              (authenticated last_day_world)
              (authenticate last_day_world (init None None) idle).2 eq_refl)
    as [Hcollect _].
  destruct (Hcollect OverflowError
              (collect_sections last_day_world (authenticated last_day_world) 0
                 (print (Banner 0)
                    (authenticate last_day_world (init None None) idle).2).2).2)
    as (Hresult & _ & Hfiles).
  - vm_compute. reflexivity.
  - split; [exact Hresult|exact Hfiles].
Defined.

(** C3, as stated, fails for the serialization.  When [json.dump] raises
    (here: no space left on the device) the file has already been opened
    for writing: the driver returns [False], and the truncated file is in
    the working directory. *)
Lemma failed_dump_leaves_a_file :
  ~ aborts_without_output full_disk_world (init None None) 0 idle.
Proof.
  intros H.
  destruct (H (authenticated full_disk_world)
              (authenticate full_disk_world (init None None) idle).2 eq_refl)
    as [_ Hsave].
  pose (s2 := (print (Banner 0)
                 (authenticate full_disk_world (init None None) idle).2).2).
  pose (r := collect_sections full_disk_world (authenticated full_disk_world) 0 s2).
  assert (exists all_data s3, r = (Ok all_data, s3)) as (all_data & s3 & Hr).
  { vm_compute. eauto. }
  destruct (Hsave all_data s3
              {| exc_class := "OSError";
                 exc_text := "[Errno 28] No space left on device" |}
              (save_document full_disk_world all_data s3).2 Hr eq_refl)
    as [_ Hfiles].
  assert (files (export_complete_dataset full_disk_world (init None None) 0 idle).2
            !! strftime noon = Some Partial) as Hfile by (by vm_compute).
  rewrite Hfiles in Hfile. by vm_compute in Hfile.
Qed.

(** ** Sampling strides *)

Section Strides.

Lemma strided_nil k start : strided k start [].
Proof. split; intros; simplify_eq. Qed.

Lemma strided_cons k start dates :
  strided k (start + k) dates -> strided k start (start :: dates).
Proof.
  intros [Hhead Hnext]. split.
  - by intros d [= <-].
  - intros [|i] a b; simpl.
    + intros [= <-] Hb. by apply Hhead.
    + apply Hnext.
Qed.

Lemma strided_prefix k start l1 l2 :
  l1 `prefix_of` l2 -> strided k start l2 -> strided k start l1.
Proof.
  intros Hpre [Hhead Hnext]. split.
  - intros d Hd. apply Hhead. by eapply prefix_lookup_Some.
  - intros i a b Ha Hb.
    apply (Hnext i); by eapply prefix_lookup_Some.
Qed.

Lemma dates_of_app name l1 l2 :
  dates_of name (l1 ++ l2) = dates_of name l1 ++ dates_of name l2.
Proof. unfold dates_of. by rewrite flat_map_app. Qed.

Lemma dates_of_prefix name l1 l2 :
  l1 `prefix_of` l2 -> dates_of name l1 `prefix_of` dates_of name l2.
Proof. intros [k ->]. rewrite dates_of_app. by apply prefix_app_r. Qed.

Lemma dates_of_calls_at name ops d :
  NoDup ops ->
  dates_of name (calls_at ops d) = if bool_decide (name ∈ ops) then [d] else [].
Proof.
  unfold calls_at. induction ops as [|o ops IH]; intros Hnd; [done|].
  apply NoDup_cons in Hnd as [Hnotin Hnd]. simpl.
  destruct (String.eqb_spec o name) as [->|Hne].
  - rewrite (IH Hnd). rewrite (bool_decide_eq_false_2 _ Hnotin).
    rewrite bool_decide_eq_true_2; [done|by left].
  - rewrite (IH Hnd). simpl.
    rewrite (bool_decide_ext (name ∈ ops) (name ∈ o :: ops)); [done|].
    rewrite elem_of_cons. split; [by right|intros [?|?]; [congruence|done]].
Qed.

Lemma every_kth_strided k fuel current end_date :
  strided k current (every_kth fuel k current end_date).
Proof.
  revert current. induction fuel as [|fuel IH]; intros current; simpl;
    [apply strided_nil|].
  destruct (current <=? end_date); [|apply strided_nil].
  apply strided_cons, IH.
Qed.

Lemma every_kth_range k fuel current end_date :
  0 <= k ->
  Forall (fun d => current <= d <= end_date) (every_kth fuel k current end_date).
Proof.
  intros Hk. revert current. induction fuel as [|fuel IH]; intros current; simpl; [done|].
  destruct (Z.leb_spec current end_date); [|done].
  constructor; [lia|]. eapply Forall_impl; [apply IH|]. simpl. lia.
Qed.

Lemma every_kth_covers k fuel current end_date :
  0 < k -> (days_left current end_date <= fuel)%nat ->
  covers k current end_date (every_kth fuel k current end_date).
Proof.
  intros Hk. unfold covers, days_left.
  revert current. induction fuel as [|fuel IH]; intros current Hfuel j Hj Hle; simpl.
  - nia.
  - destruct (Z.leb_spec current end_date); [|nia].
    destruct (decide (j = 0)) as [->|Hj0].
    + rewrite Z.mul_0_r, Z.add_0_r. by left.
    + right. replace (current + k * j) with ((current + k) + k * (j - 1)) by lia.
      apply IH; nia.
Qed.

Lemma every_other_strided fuel current day_counter end_date :
  strided 2 (if day_counter mod 2 =? 0 then current else current + 1)
    (every_other fuel current day_counter end_date).
Proof.
  revert current day_counter.
  induction fuel as [|fuel IH]; intros current day_counter; simpl;
    [apply strided_nil|].
  destruct (current <=? end_date); [|apply strided_nil].
  specialize (IH (current + 1) (day_counter + 1)).
  destruct (Z.eqb_spec (day_counter mod 2) 0) as [Heven|Hodd];
    destruct (Z.eqb_spec ((day_counter + 1) mod 2) 0) as [Heven'|Hodd'];
    try (exfalso; revert Heven Heven' || revert Hodd Hodd';
         Z.div_mod_to_equations; lia).
  - simpl. apply strided_cons.
    by replace (current + 2) with (current + 1 + 1) by lia.
  - done.
Qed.

Lemma every_other_range fuel current day_counter end_date :
  Forall (fun d => current <= d <= end_date)
    (every_other fuel current day_counter end_date).
Proof.
  revert current day_counter.
  induction fuel as [|fuel IH]; intros current day_counter; simpl; [done|].
  destruct (Z.leb_spec current end_date); [|done].
  apply Forall_app. split.
  - destruct (_ =? _); [|done]. constructor; [lia|done].
  - eapply Forall_impl; [apply IH|]. simpl. lia.
Qed.

Lemma every_other_covers fuel current day_counter end_date :
  (days_left current end_date <= fuel)%nat ->
  forall d, current <= d <= end_date -> (d - current + day_counter) mod 2 = 0 ->
    d ∈ every_other fuel current day_counter end_date.
Proof.
  unfold days_left. revert current day_counter.
  induction fuel as [|fuel IH]; intros current day_counter Hfuel d Hd Heven; simpl.
  - lia.
  - destruct (Z.leb_spec current end_date); [|lia].
    apply elem_of_app.
    destruct (decide (d = current)) as [->|Hne].
    + left. replace (current - current + day_counter) with day_counter in Heven by lia.
      rewrite Heven. simpl. by left.
    + right. apply IH; [lia|lia|].
      by replace (d - (current + 1) + (day_counter + 1)) with (d - current + day_counter)
        by lia.
Qed.

End Strides.

(** ** Dates sampled by the collectors *)

Section Sampling.

Variable w : World.

Lemma schedule_every_kth name ops k end_date fuel current :
  NoDup ops ->
  dates_of name
    (schedule fuel (fun c => c <=? end_date) (fun c => c + k) (calls_at ops) current)
  = if bool_decide (name ∈ ops) then every_kth fuel k current end_date else [].
Proof.
  intros Hnd. revert current. induction fuel as [|fuel IH]; intros current; simpl.
  - by destruct (bool_decide _).
  - destruct (current <=? end_date); [|by destruct (bool_decide _)].
    rewrite dates_of_app, IH, dates_of_calls_at by done.
    by destruct (bool_decide _).
Qed.

Lemma schedule_every_other name ops end_date fuel current day_counter :
  NoDup ops ->
  dates_of name
    (schedule fuel (fun key => key.1 <=? end_date) (fun key => (key.1 + 1, key.2 + 1))
       (fun key => if key.2 mod 2 =? 0 then calls_at ops key.1 else [])
       (current, day_counter))
  = if bool_decide (name ∈ ops)
    then every_other fuel current day_counter end_date else [].
Proof.
  intros Hnd. revert current day_counter.
  induction fuel as [|fuel IH]; intros current day_counter; simpl.
  - by destruct (bool_decide _).
  - destruct (current <=? end_date); [|by destruct (bool_decide _)].
    rewrite dates_of_app, IH.
    destruct (day_counter mod 2 =? 0); [|by destruct (bool_decide _)].
    rewrite dates_of_calls_at by done. by destruct (bool_decide _).
Qed.

Lemma calls_at_filter self names d :
  calls_at (filter (fun name => available self name = true) names) d
  = flat_map
      (fun name =>
         if available self name then [{| op := name; args := [ADate d] |}] else [])
      names.
Proof.
  unfold calls_at. induction names as [|name names IH]; [done|].
  rewrite filter_cons. simpl. rewrite <- IH.
  destruct (decide (available self name = true)) as [->|Hno]; [done|].
  by apply not_true_is_false in Hno as ->.
Qed.

Lemma fitness_step_emits self current f :
  emits_with (fitness_step w self (current, f))
    (calls_at (fitness_operations self) current) (fun st' => st'.1 = current + 7).
Proof.
  unfold fitness_step. eapply emits_eq.
  - do 4 (eapply emits_bind; [apply emits_gated|intros ?]).
    eapply emits_with_bind; [apply emits_with_date_add|intros c ->].
    by apply emits_with_ret.
  - unfold fitness_operations. by rewrite calls_at_filter.
Qed.

Lemma specialized_step_emits self current x :
  emits_with (specialized_step w self (current, x))
    (calls_at (specialized_operations self) current) (fun st' => st'.1 = current + 7).
Proof.
  unfold specialized_step. eapply emits_eq.
  - do 3 (eapply emits_bind; [apply emits_gated|intros ?]).
    eapply emits_with_bind; [apply emits_with_date_add|intros c ->].
    by apply emits_with_ret.
  - unfold specialized_operations. by rewrite calls_at_filter.
Qed.

Lemma daily_day_emits self current h :
  emits (daily_day w self current h) (calls_at (daily_operations self) current).
Proof.
  unfold daily_day, daily_summary. eapply emits_eq.
  - eapply emits_bind; [apply emits_print|intros _].
    eapply emits_bind.
    { apply emits_attr_call. intros v. by apply emits_with_ret. }
    intros ?. do 3 (eapply emits_bind; [apply emits_gated|intros ?]).
    apply emits_gated.
  - unfold daily_operations, calls_at. simpl. f_equal.
    fold (calls_at
            (filter (fun name => available self name = true)
               ["get_heart_rates"; "get_sleep_data"; "get_stress_data"; "get_steps_data"])
            current).
    rewrite calls_at_filter. simpl. by rewrite !app_nil_r.
Qed.

Lemma daily_step_emits self current day_counter h :
  emits_with (daily_step w self (current, day_counter, h))
    (if day_counter mod 2 =? 0 then calls_at (daily_operations self) current else [])
    (fun st' => (st'.1.1, st'.1.2) = (current + 1, day_counter + 1)).
Proof.
  unfold daily_step. eapply emits_eq.
  - eapply emits_bind.
    { instantiate (1 := if day_counter mod 2 =? 0
                        then calls_at (daily_operations self) current else []).
      destruct (_ =? _); [apply daily_day_emits|apply emits_ret]. }
    intros ?. eapply emits_with_bind; [apply emits_with_date_add|intros c ->].
    by apply emits_with_ret.
  - by rewrite app_nil_r.
Qed.

(** The fuel given to the three loops is enough: with more of it they do
    the same. *)
Lemma daily_loop_enough_fuel self end_date start h fuel s :
  (days_left start end_date <= fuel)%nat ->
  while_ fuel (fun st => st.1.1 <=? end_date) (daily_step w self) (start, 0, h) s
  = while_ (days_left start end_date) (fun st => st.1.1 <=? end_date)
      (daily_step w self) (start, 0, h) s.
Proof.
  intros Hfuel.
  apply (while_enough_fuel (fun st : Z * Z * DailyHealth => days_left st.1.1 end_date));
    [| |done|done].
  - intros [[c n] x]. simpl. unfold days_left. intros Hc%Z.leb_le. lia.
  - intros [[c n] x]. simpl. intros Hc%Z.leb_le.
    eapply returns_weaken; [eapply emits_with_returns, daily_step_emits|].
    intros [[c' n'] x']. simpl. intros [= -> _]. unfold days_left. lia.
Qed.

Lemma fitness_loop_enough_fuel self end_date start f fuel s :
  (days_left start end_date <= fuel)%nat ->
  while_ fuel (fun st => st.1 <=? end_date) (fitness_step w self) (start, f) s
  = while_ (days_left start end_date) (fun st => st.1 <=? end_date)
      (fitness_step w self) (start, f) s.
Proof.
  intros Hfuel.
  apply (while_enough_fuel (fun st : Z * Fitness => days_left st.1 end_date));
    [| |done|done].
  - intros [c x]. simpl. unfold days_left. intros Hc%Z.leb_le. lia.
  - intros [c x]. simpl. intros Hc%Z.leb_le.
    eapply returns_weaken; [eapply emits_with_returns, fitness_step_emits|].
    intros [c' x']. simpl. intros ->. unfold days_left. lia.
Qed.

Lemma specialized_loop_enough_fuel self end_date start x fuel s :
  (days_left start end_date <= fuel)%nat ->
  while_ fuel (fun st => st.1 <=? end_date) (specialized_step w self) (start, x) s
  = while_ (days_left start end_date) (fun st => st.1 <=? end_date)
      (specialized_step w self) (start, x) s.
Proof.
  intros Hfuel.
  apply (while_enough_fuel (fun st : Z * Specialized => days_left st.1 end_date));
    [| |done|done].
  - intros [c y]. simpl. unfold days_left. intros Hc%Z.leb_le. lia.
  - intros [c y]. simpl. intros Hc%Z.leb_le.
    eapply returns_weaken; [eapply emits_with_returns, specialized_step_emits|].
    intros [c' y']. simpl. intros ->. unfold days_left. lia.
Qed.

(** From the dates of the calls of a run to the statement of C5. *)
Lemma dated_sampled {A} k ops name start end_date dates (m : M A) s :
  dated name m (if bool_decide (name ∈ ops) then dates else []) ->
  strided k start dates ->
  Forall (fun d => start <= d <= end_date) dates ->
  covers k start end_date dates ->
  exists new, calls (m s).2 = calls s ++ new
    /\ sampled_every k ops name start end_date (is_ok (m s).1) new.
Proof.
  intros Hm Hstrided Hrange Hcovers. destruct (Hm s) as (new & Hcalls & Hdates).
  exists new. split; [done|]. unfold sampled_every.
  assert (dates_of name (call <$> new) `prefix_of` dates) as Hpre.
  { destruct (m s).1, (bool_decide _); simpl in Hdates;
      first [ by rewrite Hdates
            | rewrite Hdates; apply prefix_nil
            | done
            | apply prefix_nil_inv in Hdates; rewrite Hdates; apply prefix_nil ]. }
  split; [by eapply strided_prefix|]. split.
  - destruct Hpre as [rest ->]. by apply Forall_app in Hrange as [? _].
  - intros Hok Hin. destruct (m s).1; [|done]. simpl in Hdates.
    by rewrite Hdates, bool_decide_eq_true_2.
Qed.

Lemma now_then {A} l (k : DateTime -> M A) s :
  (run print l; do t <- now w; k t) s
  = k (clock w (ticks s))
      {| stdout := stdout s ++ [l]; calls := calls s; ticks := S (ticks s);
         typed := typed s; files := files s |}.
Proof. reflexivity. Qed.

Lemma dated_date_add {B} name d n (f : Z -> M B) dates :
  dated name (f (d + n)) dates -> dated name (do x <- date_add d n; f x) dates.
Proof.
  intros H s. unfold date_add, bind.
  destruct (_ && _); simpl; [apply H|].
  exists []. rewrite app_nil_r. split; [done|apply prefix_nil].
Qed.

Lemma dated_eq {A} name (m : M A) d d' : dated name m d -> d = d' -> dated name m d'.
Proof. by intros H <-. Qed.

Lemma fitness_operations_NoDup self : NoDup (fitness_operations self).
Proof. apply NoDup_filter. apply (bool_decide_unpack _). by vm_compute. Qed.

Lemma specialized_operations_NoDup self : NoDup (specialized_operations self).
Proof. apply NoDup_filter. apply (bool_decide_unpack _). by vm_compute. Qed.

Lemma daily_operations_NoDup self : NoDup (daily_operations self).
Proof.
  unfold daily_operations. apply NoDup_cons. split.
  - intros Hin. apply list_elem_of_filter in Hin as [_ Hin]. revert Hin.
    apply (bool_decide_unpack _). by vm_compute.
  - apply NoDup_filter. apply (bool_decide_unpack _). by vm_compute.
Qed.

Lemma fitness_sampled self days_back name s :
  let end_date := dt_date (clock w (ticks s)) in
  let final := export_fitness_metrics w self days_back s in
  exists new, calls final.2 = calls s ++ new
    /\ sampled_every 7 (fitness_operations self) name
         (end_date - days_back) end_date (is_ok final.1) new.
Proof.
  intros end_date final. subst final. unfold export_fitness_metrics.
  rewrite now_then. fold end_date.
  set (s' := {| stdout := _ |}). change (calls s) with (calls s').
  rewrite <- Z.add_opp_r. set (start_date := end_date + - days_back).
  apply dated_sampled with (dates := every_kth (days_left start_date end_date) 7
                                       start_date end_date);
    [|apply every_kth_strided|by apply every_kth_range
     |by apply every_kth_covers].
  apply dated_date_add. fold start_date.
  eapply dated_eq; [eapply dated_bind|].
  - eapply emits_dated.
    apply (emits_while (fun st : Z * Fitness => st.1)
             (fun c => c <=? end_date) (fun c => c + 7)
             (calls_at (fitness_operations self))); [done|].
    intros [current f]. apply fitness_step_emits.
  - intros st. instantiate (1 := []).
    destruct (available self "get_weigh_ins"); [|apply dated_ret].
    apply dated_try_nil; [|intros ?; apply dated_ret].
    apply dated_attr_call; [done|intros ?; apply dated_ret].
  - rewrite app_nil_r. simpl.
    apply schedule_every_kth, fitness_operations_NoDup.
Qed.

Lemma specialized_sampled self days_back name s :
  let end_date := dt_date (clock w (ticks s)) in
  let final := export_specialized_health w self days_back s in
  exists new, calls final.2 = calls s ++ new
    /\ sampled_every 7 (specialized_operations self) name
         (end_date - days_back) end_date (is_ok final.1) new.
Proof.
  intros end_date final. subst final. unfold export_specialized_health.
  rewrite now_then. fold end_date.
  set (s' := {| stdout := _ |}). change (calls s) with (calls s').
  rewrite <- Z.add_opp_r. set (start_date := end_date + - days_back).
  apply dated_sampled with (dates := every_kth (days_left start_date end_date) 7
                                       start_date end_date);
    [|apply every_kth_strided|by apply every_kth_range
     |by apply every_kth_covers].
  apply dated_date_add. fold start_date.
  eapply dated_eq; [eapply dated_bind|].
  - eapply emits_dated.
    apply (emits_while (fun st : Z * Specialized => st.1)
             (fun c => c <=? end_date) (fun c => c + 7)
             (calls_at (specialized_operations self))); [done|].
    intros [current x]. apply specialized_step_emits.
  - intros st. instantiate (1 := [] ++ []). apply dated_bind.
    + destruct (available self "get_menstrual_calendar_data"); [|apply dated_ret].
      apply dated_attr_call; [done|intros ?; apply dated_ret].
    + intros x. destruct (available self "get_pregnancy_summary"); [|apply dated_ret].
      apply dated_attr_call; [done|intros ?; apply dated_ret].
  - rewrite !app_nil_r. simpl.
    apply schedule_every_kth, specialized_operations_NoDup.
Qed.

Lemma daily_sampled self days_back name s :
  let end_date := dt_date (clock w (ticks s)) in
  let final := export_daily_health_metrics w self days_back s in
  exists new, calls final.2 = calls s ++ new
    /\ sampled_every 2 (daily_operations self) name
         (end_date - days_back) end_date (is_ok final.1) new.
Proof.
  intros end_date final. subst final. unfold export_daily_health_metrics.
  rewrite now_then. fold end_date.
  set (s' := {| stdout := _ |}). change (calls s) with (calls s').
  rewrite <- Z.add_opp_r. set (start_date := end_date + - days_back).
  apply dated_sampled with (dates := every_other (days_left start_date end_date)
                                       start_date 0 end_date).
  - apply dated_date_add. fold start_date.
    eapply dated_eq; [eapply dated_bind|].
    + eapply emits_dated.
      apply (emits_while (fun st : Z * Z * DailyHealth => (st.1.1, st.1.2))
               (fun key => key.1 <=? end_date) (fun key => (key.1 + 1, key.2 + 1))
               (fun key => if key.2 mod 2 =? 0
                           then calls_at (daily_operations self) key.1 else []));
        [done|].
      intros [[current day_counter] h]. apply daily_step_emits.
    + intros st. apply dated_ret.
    + rewrite app_nil_r.
      apply (schedule_every_other name (daily_operations self) end_date _ start_date 0),
        daily_operations_NoDup.
  - apply (every_other_strided _ start_date 0).
  - apply every_other_range.
  - intros j Hj Hle. apply every_other_covers; [done|lia|].
    replace (start_date + 2 * j - start_date + 0) with (j * 2) by lia.
    apply Z_mod_mult.
Qed.

(** C5.  In a run of the daily health collector (stride 2) and of the
    fitness and specialized health collectors (stride 7), started when the
    clock shows [end_date], the dates at which any one operation is called
    form a sequence that starts exactly at the range start
    [end_date - days_back] and in which consecutive dates differ by
    exactly the stride; all of them lie in the range.  When the collector
    returns, every operation it calls per date (for daily health the
    combined summary and each available metric, for the other two each
    available metric) has been called at every date of the range that is
    a multiple of the stride after the start, so these are the retained
    dates. *)
Theorem retained_dates_are_strided self days_back name s :
  let end_date := dt_date (clock w (ticks s)) in
  let start_date := end_date - days_back in
  let daily := export_daily_health_metrics w self days_back s in
  let fitness := export_fitness_metrics w self days_back s in
  let specialized := export_specialized_health w self days_back s in
  (exists new, calls daily.2 = calls s ++ new
     /\ sampled_every 2 (daily_operations self) name
          start_date end_date (is_ok daily.1) new)
  /\ (exists new, calls fitness.2 = calls s ++ new
       /\ sampled_every 7 (fitness_operations self) name
            start_date end_date (is_ok fitness.1) new)
  /\ (exists new, calls specialized.2 = calls s ++ new
       /\ sampled_every 7 (specialized_operations self) name
            start_date end_date (is_ok specialized.1) new).
Proof.
  intros end_date start_date daily fitness specialized.
  split; [apply daily_sampled|]. split; [apply fitness_sampled|].
  apply specialized_sampled.
Qed.

End Sampling.

(** ** Range of the sample points *)

Section Ranges.

Variable w : World.

Lemma gated_preserves {H} (R : H -> Prop) self name d (append : SamplePoint -> H -> H) h :
  R h -> (forall v, R (append {| date := d; data := v |} h)) ->
  returns (gated w self name d append h) R.
Proof.
  intros Hh Happend. eapply returns_weaken; [apply returns_gated|].
  intros h' [->|[v ->]]; auto.
Qed.

Ltac in_range_step :=
  match goal with
  | H : daily_in_range _ _ _ |- _ => destruct H as (? & ? & ? & ? & ? & ?)
  | H : fitness_in_range _ _ _ |- _ => destruct H as (? & ? & ? & ?)
  | H : specialized_in_range _ _ _ |- _ => destruct H as (? & ? & ?)
  end;
  repeat split; simpl; try done;
  apply Forall_app; (split; [done|]);
  apply Forall_singleton; unfold in_range; simpl; lia.

Lemma daily_summary_in_range self start end_date current h :
  start <= current <= end_date -> daily_in_range start end_date h ->
  returns (daily_summary w self current h) (daily_in_range start end_date).
Proof.
  intros Hc Hh. unfold daily_summary.
  eapply returns_bind; [apply returns_any|intros f _].
  eapply returns_bind; [apply returns_any|intros summary _].
  apply returns_ret. destruct (truthy summary); [|done].
  assert (daily_in_range start end_date
            (add_daily_summary {| date := current; data := summary |} h)) as Hh'
    by in_range_step.
  destruct (_ || _); [|done]. clear Hh. in_range_step.
Qed.

Lemma daily_step_in_range self start end_date st :
  start <= st.1.1 /\ daily_in_range start end_date st.2 ->
  (st.1.1 <=? end_date) = true ->
  returns (daily_step w self st)
    (fun st' => start <= st'.1.1 /\ daily_in_range start end_date st'.2).
Proof.
  destruct st as [[current day_counter] h]. simpl. intros [Hstart Hh] Hend.
  apply Z.leb_le in Hend. unfold daily_step.
  eapply returns_bind with (P := daily_in_range start end_date).
  - destruct (_ =? _); [|by apply returns_ret]. unfold daily_day.
    eapply returns_bind; [apply returns_any|intros _ _].
    eapply returns_bind; [by apply daily_summary_in_range|intros h1 H1].
    eapply returns_bind;
      [apply gated_preserves; [exact H1|intros v; in_range_step]|intros h2 H2].
    eapply returns_bind;
      [apply gated_preserves; [exact H2|intros v; in_range_step]|intros h3 H3].
    eapply returns_bind;
      [apply gated_preserves; [exact H3|intros v; in_range_step]|intros h4 H4].
    apply gated_preserves; [exact H4|intros v; in_range_step].
  - intros h' Hh'. eapply returns_bind; [apply returns_date_add|].
    intros c ->. apply returns_ret. simpl. split; [lia|done].
Qed.

Lemma fitness_step_in_range self start end_date st :
  start <= st.1 /\ fitness_in_range start end_date st.2 ->
  (st.1 <=? end_date) = true ->
  returns (fitness_step w self st)
    (fun st' => start <= st'.1 /\ fitness_in_range start end_date st'.2).
Proof.
  destruct st as [current f]. simpl. intros [Hstart Hf] Hend.
  apply Z.leb_le in Hend. unfold fitness_step.
  eapply returns_bind;
    [apply gated_preserves; [exact Hf|intros v; in_range_step]|intros f1 H1].
  eapply returns_bind;
    [apply gated_preserves; [exact H1|intros v; in_range_step]|intros f2 H2].
  eapply returns_bind;
    [apply gated_preserves; [exact H2|intros v; in_range_step]|intros f3 H3].
  eapply returns_bind;
    [apply gated_preserves; [exact H3|intros v; in_range_step]|intros f4 H4].
  eapply returns_bind; [apply returns_date_add|].
  intros c ->. apply returns_ret. simpl. split; [lia|done].
Qed.

Lemma specialized_step_in_range self start end_date st :
  start <= st.1 /\ specialized_in_range start end_date st.2 ->
  (st.1 <=? end_date) = true ->
  returns (specialized_step w self st)
    (fun st' => start <= st'.1 /\ specialized_in_range start end_date st'.2).
Proof.
  destruct st as [current x]. simpl. intros [Hstart Hx] Hend.
  apply Z.leb_le in Hend. unfold specialized_step.
  eapply returns_bind;
    [apply gated_preserves; [exact Hx|intros v; in_range_step]|intros x1 H1].
  eapply returns_bind;
    [apply gated_preserves; [exact H1|intros v; in_range_step]|intros x2 H2].
  eapply returns_bind;
    [apply gated_preserves; [exact H2|intros v; in_range_step]|intros x3 H3].
  eapply returns_bind; [apply returns_date_add|].
  intros c ->. apply returns_ret. simpl. split; [lia|done].
Qed.

Ltac range_of_run :=
  rewrite now_then;
  match goal with
  | |- when_ok (?m ?s').1 ?P =>
      let Hr := fresh "Hr" in
      assert (returns m P) as Hr;
      [|let E := fresh "E" in
        destruct (m s').1 eqn:E; [exact (Hr _ _ E)|done]]
  end;
  (eapply returns_bind; [apply returns_date_add|]);
  intros start ->; rewrite Z.add_opp_r.

Lemma daily_run_in_range self days_back s :
  let end_date := dt_date (clock w (ticks s)) in
  when_ok (export_daily_health_metrics w self days_back s).1
    (daily_in_range (end_date - days_back) end_date).
Proof.
  intros end_date. unfold export_daily_health_metrics.
  range_of_run.
  eapply returns_bind with
    (P := fun st => end_date - days_back <= st.1.1
                    /\ daily_in_range (end_date - days_back) end_date st.2).
  - apply returns_while; [apply daily_step_in_range|].
    simpl. split; [lia|]. by repeat split.
  - intros st [_ Hst]. by apply returns_ret.
Qed.

Lemma fitness_run_in_range self days_back s :
  let end_date := dt_date (clock w (ticks s)) in
  when_ok (export_fitness_metrics w self days_back s).1
    (fitness_in_range (end_date - days_back) end_date).
Proof.
  intros end_date. unfold export_fitness_metrics.
  range_of_run.
  eapply returns_bind with
    (P := fun st => end_date - days_back <= st.1
                    /\ fitness_in_range (end_date - days_back) end_date st.2).
  - apply returns_while; [apply fitness_step_in_range|].
    simpl. split; [lia|]. by repeat split.
  - intros st [_ Hst].
    destruct (available self "get_weigh_ins"); [|by apply returns_ret].
    apply returns_try; [|intros ?; by apply returns_ret].
    eapply returns_bind; [apply returns_any|intros ? _].
    eapply returns_bind; [apply returns_any|intros ? _].
    apply returns_ret. destruct Hst as (? & ? & ? & ?). by repeat split.
Qed.

Lemma specialized_run_in_range self days_back s :
  let end_date := dt_date (clock w (ticks s)) in
  when_ok (export_specialized_health w self days_back s).1
    (specialized_in_range (end_date - days_back) end_date).
Proof.
  intros end_date. unfold export_specialized_health.
  range_of_run.
  eapply returns_bind with
    (P := fun st => end_date - days_back <= st.1
                    /\ specialized_in_range (end_date - days_back) end_date st.2).
  - apply returns_while; [apply specialized_step_in_range|].
    simpl. split; [lia|]. by repeat split.
  - intros st [_ Hst].
    eapply returns_bind with (P := specialized_in_range _ end_date).
    + destruct (available self "get_menstrual_calendar_data"); [|by apply returns_ret].
      eapply returns_bind; [apply returns_any|intros ? _].
      eapply returns_bind; [apply returns_any|intros ? _].
      apply returns_ret. destruct Hst as (? & ? & ?). by repeat split.
    + intros x Hx.
      destruct (available self "get_pregnancy_summary"); [|by apply returns_ret].
      eapply returns_bind; [apply returns_any|intros ? _].
      eapply returns_bind; [apply returns_any|intros ? _].
      apply returns_ret. destruct Hx as (? & ? & ?). by repeat split.
Qed.

(** C6.  Whenever the daily health, fitness or specialized health
    collector returns a fragment, every sample point of every series of
    the fragment (and every Body Battery indicator) is dated within
    [today - days_back, today], where [today] is the date the clock showed
    when the collector started: no point dated outside the range appears.
    The other two collectors produce no sample points. *)
Theorem sample_points_lie_in_range self days_back s :
  let end_date := dt_date (clock w (ticks s)) in
  let start_date := end_date - days_back in
  when_ok (export_daily_health_metrics w self days_back s).1
    (daily_in_range start_date end_date)
  /\ when_ok (export_fitness_metrics w self days_back s).1
       (fitness_in_range start_date end_date)
  /\ when_ok (export_specialized_health w self days_back s).1
       (specialized_in_range start_date end_date).
Proof.
  intros end_date start_date.
  split; [apply daily_run_in_range|]. split; [apply fitness_run_in_range|].
  apply specialized_run_in_range.
Qed.

End Ranges.

(** ** Body Battery indicators *)

Section BodyBattery.

Variable w : World.

Lemma keeps_match_refl h : keeps_match w [] h h.
Proof. intros acc. by rewrite app_nil_r. Qed.

Lemma keeps_match_trans n1 n2 h1 h2 h3 :
  keeps_match w n1 h1 h2 -> keeps_match w n2 h2 h3 -> keeps_match w (n1 ++ n2) h1 h3.
Proof. intros H1 H2 acc Hacc. rewrite app_assoc. by apply H2, H1. Qed.

(** A call of another operation that leaves the summaries and the
    indicators alone. *)
Lemma keeps_match_other name args o h h' :
  name <> "get_stats_and_body" ->
  body_battery_indicators h' = body_battery_indicators h ->
  daily_summaries h' = daily_summaries h ->
  keeps_match w [record name args o] h h'.
Proof.
  intros Hname Hind Hsum acc (Hiff & Hfound & Hdates).
  unfold indicators_match. rewrite Hind, Hsum. repeat split; try done.
  - intros Hi. apply Hiff in Hi as (v & Hv & Hbb). exists v. split; [|done].
    apply elem_of_app. by left.
  - intros (v & Hv & Hbb). apply Hiff. exists v. split; [|done].
    apply elem_of_app in Hv as [Hv|Hv]; [done|].
    apply list_elem_of_singleton in Hv. unfold record in Hv. congruence.
Qed.

Lemma daily_summary_keeps_match self current h :
  logs (daily_summary w self current h)
    (fun r new => forall h', r = Ok h' -> keeps_match w new h h').
Proof.
  unfold daily_summary. apply logs_attr_call; [|done].
  intros o. apply logs_ret. intros h' [= <-] acc (Hiff & Hfound & Hdates).
  set (r := record "get_stats_and_body" [ADate current] o).
  assert (forall d v, record "get_stats_and_body" [ADate d] (Ok v) ∈ acc ++ [r] ->
            record "get_stats_and_body" [ADate d] (Ok v) ∈ acc
            \/ (d = current /\ o = Ok v)) as Hsplit.
  { intros d v Hin. apply elem_of_app in Hin as [Hin|Hin]; [by left|right].
    apply list_elem_of_singleton in Hin. unfold r, record in Hin. by simplify_eq. }
  destruct (mentions_body_battery w (result_of o)) eqn:Hbb.
  - unfold mentions_body_battery in Hbb. apply andb_true_iff in Hbb as [Ht Hkw].
    rewrite Ht, Hkw. destruct o as [v|e]; [|done]. simpl in *.
    repeat split; simpl.
    + intros (i & Hi & Hd). apply elem_of_app in Hi as [Hi|Hi].
      * destruct (proj1 (Hiff d)) as (v' & Hv' & Hbb'); [by eauto|].
        exists v'. split; [|done]. apply elem_of_app. by left.
      * apply list_elem_of_singleton in Hi. subst i. simpl in Hd. subst d.
        exists v. split; [apply elem_of_app; right; by apply list_elem_of_singleton|].
        unfold mentions_body_battery. by rewrite Ht, Hkw.
    + intros (v' & Hv' & Hbb'). apply Hsplit in Hv' as [Hv'|[-> [= ->]]].
      * destruct (proj2 (Hiff d)) as (i & Hi & Hd); [by eauto|].
        exists i. split; [|done]. apply elem_of_app. by left.
      * eexists. split; [apply elem_of_app; right; by apply list_elem_of_singleton|].
        done.
    + apply Forall_app. split; [done|]. by apply Forall_singleton.
    + apply Forall_app. split.
      * eapply Forall_impl; [exact Hdates|]. simpl.
        intros i (p & Hp & Hd). exists p. split; [|done]. apply elem_of_app. by left.
      * apply Forall_singleton. simpl. eexists. split;
          [apply elem_of_app; right; by apply list_elem_of_singleton|done].
  - assert (forall d,
              (exists i, i ∈ body_battery_indicators h /\ ind_date i = d)
              <-> (exists v, record "get_stats_and_body" [ADate d] (Ok v) ∈ acc ++ [r]
                     /\ mentions_body_battery w v = true)) as Hiff'.
    { intros d. rewrite Hiff. split.
      - intros (v & Hv & Hbb'). exists v. split; [|done]. apply elem_of_app. by left.
      - intros (v & Hv & Hbb'). apply Hsplit in Hv as [Hv|[-> ->]]; [by eauto|].
        simpl in Hbb. congruence. }
    unfold mentions_body_battery in Hbb.
    destruct (truthy (result_of o)); [|done]. simpl in Hbb. rewrite Hbb.
    repeat split; simpl; try done; try apply Hiff'.
    eapply Forall_impl; [exact Hdates|]. simpl.
    intros i (p & Hp & Hd). exists p. split; [|done]. apply elem_of_app. by left.
Qed.

Lemma keeps_match_bind (m : M DailyHealth) (f : DailyHealth -> M DailyHealth) h :
  logs m (fun r new => forall h', r = Ok h' -> keeps_match w new h h') ->
  (forall a, logs (f a) (fun r new => forall h', r = Ok h' -> keeps_match w new a h')) ->
  logs (bind m f) (fun r new => forall h', r = Ok h' -> keeps_match w new h h').
Proof.
  intros Hm Hf.
  eapply logs_bind with
    (Φ2 := fun a r new => forall h', r = Ok h' -> keeps_match w new a h');
    [exact Hm|exact Hf| |]; [|done].
  intros a n1 r n2 H1 H2 h' ->. eapply keeps_match_trans; eauto.
Qed.

Lemma gated_keeps_match self name d (append : SamplePoint -> DailyHealth -> DailyHealth) h :
  name <> "get_stats_and_body" ->
  (forall p h, body_battery_indicators (append p h) = body_battery_indicators h
               /\ daily_summaries (append p h) = daily_summaries h) ->
  logs (gated w self name d append h)
    (fun r new => forall h', r = Ok h' -> keeps_match w new h h').
Proof.
  intros Hname Happend. eapply logs_weaken; [apply logs_gated|]. simpl.
  intros r new Hspec h' ->. destruct (available self name).
  - destruct Hspec as [(_ & e & ?)|(o & -> & [= ->])]; [done|].
    destruct (truthy _).
    + apply keeps_match_other; [done|apply Happend..].
    + by apply keeps_match_other.
  - destruct Hspec as [-> [= ->]]. apply keeps_match_refl.
Qed.

Lemma daily_day_keeps_match self current h :
  logs (daily_day w self current h)
    (fun r new => forall h', r = Ok h' -> keeps_match w new h h').
Proof.
  unfold daily_day.
  eapply logs_bind with
    (Φ2 := fun _ r new => forall h', r = Ok h' -> keeps_match w new h h');
    [by apply logs_print with (Φ := fun _ new => new = [])| | |]; [| |done].
  - intros _. apply keeps_match_bind; [apply daily_summary_keeps_match|intros h1].
    apply keeps_match_bind; [by apply gated_keeps_match|intros h2].
    apply keeps_match_bind; [by apply gated_keeps_match|intros h3].
    apply keeps_match_bind; [by apply gated_keeps_match|intros h4].
    by apply gated_keeps_match.
  - intros _ n1 r n2 -> H. exact H.
Qed.

Lemma daily_step_keeps_match self st acc :
  indicators_match w acc st.2 ->
  logs (daily_step w self st)
    (fun r new => forall st', r = Ok st' -> indicators_match w (acc ++ new) st'.2).
Proof.
  destruct st as [[current day_counter] h]. simpl. intros Hacc. unfold daily_step.
  eapply logs_bind with
    (Φ1 := fun r new => forall h', r = Ok h' -> keeps_match w new h h')
    (Φ2 := fun h' r new => new = [] /\ forall st', r = Ok st' -> st'.2 = h').
  - destruct (_ =? _); [apply daily_day_keeps_match|].
    apply logs_ret. intros h' [= <-]. apply keeps_match_refl.
  - intros h'. eapply logs_weaken.
    + eapply logs_bind with (Φ2 := fun c r new => new = [] /\ r = Ok (c, day_counter + 1, h'));
        [apply logs_date_add|intros c; by apply logs_ret| |].
      * intros c n1 r n2 [-> _] [-> ->].
        instantiate (1 := fun r new => new = [] /\ forall st', r = Ok st' -> st'.2 = h').
        split; [done|]. by intros st' [= <-].
      * intros e n1 [-> _]. done.
    + done.
  - intros h' n1 r n2 H1 [-> H2] st' ->. rewrite app_nil_r.
    rewrite (H2 st' eq_refl). by apply (H1 h' eq_refl).
  - done.
Qed.

(** C10.  When the daily health collector returns its fragment, there is
    a Body Battery indicator for a date [d] if and only if, during this
    run, the combined daily summary call for [d] returned a true (that is,
    non-empty) result whose text contains "bodyBattery" or
    "bodyBatteryValuesArray".  Every indicator has [found_in_summary]
    true, and its date is the date of an entry of [daily_summaries]. *)
Theorem body_battery_indicators_follow_summaries self days_back s :
  let final := export_daily_health_metrics w self days_back s in
  exists new, calls final.2 = calls s ++ new
    /\ when_ok final.1 (indicators_match w new).
Proof.
  intros final. subst final. unfold export_daily_health_metrics.
  rewrite now_then.
  set (s' := {| stdout := _ |}). change (calls s) with (calls s').
  match goal with
  | |- exists new, calls (?m s').2 = _ /\ _ =>
      assert (logs m (fun r new => forall h, r = Ok h -> indicators_match w new h)) as Hm
  end.
  { eapply logs_bind with
      (Φ2 := fun _ r new => forall h, r = Ok h -> indicators_match w new h);
      [apply logs_date_add| | |]; [| |done].
    - intros start.
      eapply logs_bind with
        (Φ1 := fun r new => forall st', r = Ok st' -> indicators_match w ([] ++ new) st'.2)
        (Φ2 := fun st r new => new = [] /\ r = Ok st.2).
      + apply logs_while with (Inv := fun st acc => indicators_match w acc st.2).
        * intros st acc Hacc _. by apply daily_step_keeps_match.
        * simpl. repeat split; try done.
          -- intros (i & Hi & _). by apply elem_of_nil in Hi.
          -- intros (v & Hv & _). by apply elem_of_nil in Hv.
      + intros st. by apply logs_ret.
      + intros st n1 r n2 H1 [-> ->] h [= <-]. rewrite app_nil_r.
        by apply (H1 st eq_refl).
      + done.
    - intros start n1 r n2 [-> _] H. exact H. }
  destruct (Hm s') as (new & Hcalls & Hnew). exists new. split; [done|].
  destruct (_ s').1; [by apply Hnew|done].
Qed.

End BodyBattery.

(** ** Whole-period results *)

Section WholePeriod.

Variable w : World.

(** A whole-period call stored under a fixed key, possibly inside a
    [try]: either the call was made and its result stored, or the
    attribute was missing and nothing was called. *)
Lemma logs_whole_period {H} self name args (store : PyVal -> H) :
  logs (do f <- client_attr w self name; do v <- safe_call w f args; ret (store v))
    (fun r new =>
       (exists o, new = [record name args o] /\ r = Ok (store (result_of o)))
       \/ (new = [] /\ exists e, r = Raise e)).
Proof.
  apply logs_attr_call.
  - intros o. apply logs_ret. left. eauto.
  - intros e. right. eauto.
Qed.

Lemma fitness_loop_yields self fuel end_date st :
  weight_measurements st.2 = PNone ->
  yields (fun r => op (call r) <> "get_weigh_ins")
    (fun st' => weight_measurements st'.2 = PNone)
    (while_ fuel (fun st => st.1 <=? end_date) (fitness_step w self) st).
Proof.
  intros Hst. apply yields_while; [|done]. intros [current f] Hf. simpl in Hf.
  unfold fitness_step.
  do 4 (eapply yields_bind with (P1 := fun f => weight_measurements f = PNone);
          [by apply yields_gated|clear f Hf; intros f Hf]).
  eapply yields_bind; [apply yields_date_add|intros c _].
  by apply yields_ret.
Qed.

Lemma fitness_weight self days_back s :
  let final := export_fitness_metrics w self days_back s in
  exists new, calls final.2 = calls s ++ new
    /\ when_ok final.1 (weight_defaults_to_null self new).
Proof.
  intros final. subst final. unfold export_fitness_metrics.
  rewrite now_then.
  set (s' := {| stdout := _ |}). change (calls s) with (calls s').
  match goal with
  | |- exists new, calls (?m s').2 = _ /\ _ =>
      assert (logs m (fun r new => forall f, r = Ok f ->
                        weight_defaults_to_null self new f)) as Hm
  end.
  { eapply logs_bind with
      (Φ2 := fun _ r new => forall f, r = Ok f -> weight_defaults_to_null self new f);
      [apply logs_date_add| | |]; [| |done].
    2: { intros start n1 r n2 [-> _] H. exact H. }
    intros start.
    eapply logs_bind with
      (Φ2 := fun st r new => forall f, r = Ok f ->
         weight_measurements st.2 = PNone ->
         (new = [] /\ weight_measurements f = PNone)
         \/ (available self "get_weigh_ins" = true
             /\ exists a o, new = [record "get_weigh_ins" a o]
                  /\ weight_measurements f = result_of o));
      [by apply fitness_loop_yields| | |]; [| |done].
    - intros st. destruct (available self "get_weigh_ins").
      + eapply logs_try with
          (Φ2 := fun _ r new => new = [] /\ r = Ok st.2);
          [apply logs_whole_period|intros ?; by apply logs_ret| |].
        * intros f n1 [(o & -> & [= ->])|(_ & e & ?)]; [|done].
          intros f' [= <-] _. right. split; [done|]. eauto.
        * intros e n1 r n2 [(o & _ & ?)|(-> & _)] [-> ->]; [done|].
          intros f [= <-] Hnone. by left.
      + apply logs_ret. intros f [= <-] Hnone. by left.
    - intros st n1 r n2 [Hquiet Hst] Htail f ->.
      destruct (Htail f eq_refl (Hst st eq_refl)) as [[-> Hnone]|(Hav & a & o & -> & Hw)].
      + rewrite app_nil_r. split; [done|]. intros a e Hin.
        eapply Forall_forall in Hquiet; [|exact Hin]. done.
      + split; [congruence|]. intros a' e Hin.
        apply elem_of_app in Hin as [Hin|Hin].
        * eapply Forall_forall in Hquiet; [|exact Hin]. done.
        * apply list_elem_of_singleton in Hin. unfold record in Hin.
          simplify_eq. done. }
  destruct (Hm s') as (new & Hcalls & Hnew). exists new. split; [done|].
  destruct (_ s').1; [by apply Hnew|done].
Qed.

Lemma specialized_loop_yields self fuel end_date st :
  womens_health st.2 = ∅ ->
  yields (fun r => op (call r) <> "get_menstrual_calendar_data"
                   /\ op (call r) <> "get_pregnancy_summary")
    (fun st' => womens_health st'.2 = ∅)
    (while_ fuel (fun st => st.1 <=? end_date) (specialized_step w self) st).
Proof.
  intros Hst. apply yields_while; [|done]. intros [current x] Hx. simpl in Hx.
  unfold specialized_step.
  eapply yields_bind with (P1 := fun x => womens_health x = ∅);
    [by apply yields_gated|intros x1 H1].
  eapply yields_bind with (P1 := fun x => womens_health x = ∅);
    [by apply yields_gated|intros x2 H2].
  eapply yields_bind with (P1 := fun x => womens_health x = ∅);
    [by apply yields_gated|intros x3 H3].
  eapply yields_bind; [apply yields_date_add|intros c _].
  by apply yields_ret.
Qed.

(** One gated whole-period call of the specialized health collector. *)
Lemma womens_health_step self name args key x :
  logs (if available self name then
          do f <- client_attr w self name;
          do v <- safe_call w f args;
          ret (set_womens_health key v x)
        else ret x)
    (fun r new => forall x', r = Ok x' ->
       (available self name = false /\ new = [] /\ x' = x)
       \/ (available self name = true
           /\ exists o, new = [record name args o]
                /\ womens_health x' = <[key := result_of o]> (womens_health x))).
Proof.
  destruct (available self name).
  - eapply logs_weaken; [apply logs_whole_period|].
    intros r new [(o & -> & ->)|(_ & e & ->)] x' [= <-]. right. eauto.
  - apply logs_ret. intros x' [= <-]. by left.
Qed.

Lemma specialized_womens_health self days_back s :
  let final := export_specialized_health w self days_back s in
  exists new, calls final.2 = calls s ++ new
    /\ when_ok final.1 (fun x =>
         womens_health_placeholder self "get_menstrual_calendar_data" "menstrual" new x
         /\ womens_health_placeholder self "get_pregnancy_summary" "pregnancy" new x).
Proof.
  intros final. subst final. unfold export_specialized_health.
  rewrite now_then.
  set (s' := {| stdout := _ |}). change (calls s) with (calls s').
  set (Post := fun new x =>
         womens_health_placeholder self "get_menstrual_calendar_data" "menstrual" new x
         /\ womens_health_placeholder self "get_pregnancy_summary" "pregnancy" new x).
  match goal with
  | |- exists new, calls (?m s').2 = _ /\ _ =>
      assert (logs m (fun r new => forall x, r = Ok x -> Post new x)) as Hm
  end.
  { eapply logs_bind with
      (Φ2 := fun _ r new => forall x, r = Ok x -> Post new x);
      [apply logs_date_add| | |]; [| |done].
    2: { intros start n1 r n2 [-> _] H. exact H. }
    intros start.
    eapply logs_bind with
      (Φ2 := fun st r new => forall x, r = Ok x -> womens_health st.2 = ∅ ->
         Forall (fun r => op (call r) = "get_menstrual_calendar_data"
                          \/ op (call r) = "get_pregnancy_summary") new
         /\ Post new x);
      [by apply specialized_loop_yields| | |]; [| |done].
    - intros st.
      eapply logs_bind;
        [apply (womens_health_step self "get_menstrual_calendar_data" _ "menstrual")
        |intros x1;
         apply (womens_health_step self "get_pregnancy_summary" _ "pregnancy" x1)
        | |done].
      intros x1 n1 r n2 H1 H2 x -> Hempty.
      destruct (H1 x1 eq_refl) as [(Hm1 & -> & ->)|(Hm1 & o1 & -> & Hw1)];
        destruct (H2 x eq_refl) as [(Hp & -> & ->)|(Hp & o2 & -> & Hw2)];
        unfold Post, womens_health_placeholder; simpl;
        rewrite ?Hw2, ?Hw1, ?Hempty, ?Hm1, ?Hp.
      + split; [done|]. split; (split; [done|]);
          intros a e Hin; by apply elem_of_nil in Hin.
      + split; [apply Forall_singleton; by right|]. split; split.
        * done.
        * intros a e Hin. apply list_elem_of_singleton in Hin.
          unfold record in Hin. by simplify_eq.
        * intros _. rewrite lookup_insert_eq. eauto.
        * intros a e Hin. apply list_elem_of_singleton in Hin.
          unfold record in Hin. simplify_eq. by rewrite lookup_insert_eq.
      + split; [apply Forall_singleton; by left|]. split; split.
        * intros _. rewrite lookup_insert_eq. eauto.
        * intros a e Hin. apply list_elem_of_singleton in Hin.
          unfold record in Hin. simplify_eq. by rewrite lookup_insert_eq.
        * done.
        * intros a e Hin. apply list_elem_of_singleton in Hin.
          unfold record in Hin. by simplify_eq.
      + split; [apply Forall_cons; split; [by left|apply Forall_singleton; by right]|].
        split; split.
        * intros _. rewrite lookup_insert_ne by done. rewrite lookup_insert_eq. eauto.
        * intros a e Hin. rewrite lookup_insert_ne by done. rewrite lookup_insert_eq.
          apply elem_of_cons in Hin as [Hin|Hin].
          -- unfold record in Hin. by simplify_eq.
          -- apply list_elem_of_singleton in Hin. unfold record in Hin. by simplify_eq.
        * intros _. rewrite lookup_insert_eq. eauto.
        * intros a e Hin. rewrite lookup_insert_eq.
          apply elem_of_cons in Hin as [Hin|Hin].
          -- unfold record in Hin. by simplify_eq.
          -- apply list_elem_of_singleton in Hin. unfold record in Hin. by simplify_eq.
    - intros st n1 r n2 [Hquiet Hst] Htail x ->.
      destruct (Htail x eq_refl (Hst st eq_refl)) as [Htailcalls [Hm Hp]].
      assert (forall name a e,
                name = "get_menstrual_calendar_data" \/ name = "get_pregnancy_summary" ->
                record name a (Raise e) ∈ n1 ++ n2 -> record name a (Raise e) ∈ n2)
        as Hloop.
      { intros name a e Hname Hin. apply elem_of_app in Hin as [Hin|Hin]; [|done].
        eapply Forall_forall in Hquiet; [|exact Hin]. simpl in Hquiet.
        destruct Hquiet, Hname; congruence. }
      split.
      + destruct Hm as [Hm1 Hm2]. split; [done|].
        intros a e Hin. apply (Hm2 a e). apply Hloop; [by left|done].
      + destruct Hp as [Hp1 Hp2]. split; [done|].
        intros a e Hin. apply (Hp2 a e). apply Hloop; [by right|done]. }
  destruct (Hm s') as (new & Hcalls & Hnew). exists new. split; [done|].
  destruct (_ s').1; [by apply Hnew|done].
Qed.

(** C9.  Whole-period results are stored under fixed keys even when
    absent.  The fitness fragment always has its [weight_measurements]
    field, and it holds [None] when [get_weigh_ins] is unavailable and
    when the ranged call raised.  In the specialized health fragment,
    when the menstrual calendar (respectively pregnancy) capability is
    available the grouping [womens_health] has the key "menstrual"
    (respectively "pregnancy"), and when the call raised the key is mapped
    to [None]. *)
Theorem whole_period_results_default_to_null self days_back s :
  let fitness := export_fitness_metrics w self days_back s in
  let specialized := export_specialized_health w self days_back s in
  (exists new, calls fitness.2 = calls s ++ new
     /\ when_ok fitness.1 (weight_defaults_to_null self new))
  /\ (exists new, calls specialized.2 = calls s ++ new
       /\ when_ok specialized.1 (fun x =>
            womens_health_placeholder self
              "get_menstrual_calendar_data" "menstrual" new x
            /\ womens_health_placeholder self
                 "get_pregnancy_summary" "pregnancy" new x)).
Proof.
  intros fitness specialized.
  split; [apply fitness_weight|apply specialized_womens_health].
Qed.

End WholePeriod.

(** ** Activities *)

Section ActivitiesCollector.

Variable w : World.

(** A step that makes no call and then goes on. *)
Lemma logs_silent {A B} (m : M A) (f : A -> M B)
    (Φ : Outcome B -> list CallRecord -> Prop) :
  logs m (fun _ new => new = []) ->
  (forall a, logs (f a) Φ) ->
  (forall e, Φ (Raise e) []) ->
  logs (bind m f) Φ.
Proof.
  intros Hm Hf Hraise.
  eapply logs_bind with (Φ2 := fun _ => Φ); [exact Hm|exact Hf| |].
  - by intros a n1 r n2 -> H.
  - intros e n1 ->. apply Hraise.
Qed.

Lemma logs_bind_ret {A B} (a : A) (f : A -> M B)
    (Φ : Outcome B -> list CallRecord -> Prop) :
  logs (f a) Φ -> logs (bind (ret a) f) Φ.
Proof. intros H s. exact (H s). Qed.

Lemma logs_bind_raise {A B} e (f : A -> M B)
    (Φ : Outcome B -> list CallRecord -> Prop) :
  Φ (Raise e) [] -> logs (bind (raise e) f) Φ.
Proof. intros H s. exists []. by rewrite app_nil_r. Qed.

Lemma detail_of_further activity todo r :
  detail_of todo r -> detail_of (activity :: todo) r.
Proof.
  intros (Hop & x & activity_id & Hin & Hget & Hargs). split; [done|].
  exists x, activity_id. split; [by right|done].
Qed.

Lemma detail_loop_logs self i todo detailed :
  logs (detail_loop w self i todo detailed)
    (fun r new => forall result, r = Ok result ->
       Forall (detail_of todo) new
       /\ (length new <= length todo)%nat
       /\ result = detailed
                   ++ List.filter truthy (map (fun r => result_of (outcome r)) new)
       /\ call <$> new = detail_calls todo).
Proof.
  revert i detailed. induction todo as [|activity rest IH]; intros i detailed; simpl.
  - apply logs_ret. intros result [= <-]. by rewrite app_nil_r.
  - apply logs_silent; [by apply logs_print|intros _|done].
    destruct activity as [| | | | | |entries]; try by apply logs_bind_raise.
    unfold dict_get. apply logs_bind_ret.
    set (activity_id := default PNone _).
    eapply logs_bind with
      (Φ1 := fun r new => forall d', r = Ok d' ->
         (length new <= 1)%nat
         /\ Forall (detail_of (PDict entries :: rest)) new
         /\ d' = detailed
                  ++ List.filter truthy (map (fun r => result_of (outcome r)) new)
         /\ call <$> new
            = if truthy activity_id
              then [{| op := "get_activity"; args := [AVal activity_id] |}] else []);
      [|intros d'; apply IH| |done].
    + destruct (truthy activity_id).
      * apply logs_attr_call; [|done]. intros o. apply logs_ret.
        intros d' [= <-]. simpl. split; [done|]. split; [|split; [|done]].
        -- apply Forall_singleton. split; [done|].
           exists (PDict entries), activity_id. split; [by left|done].
        -- destruct (truthy (result_of o)); by rewrite ?app_nil_r.
      * apply logs_ret. intros d' [= <-]. simpl. rewrite app_nil_r.
        split; [lia|]. by split.
    + intros d' n1 r n2 H1 H2 result ->.
      destruct (H1 d' eq_refl) as (Hlen1 & Hops1 & -> & Hcalls1).
      destruct (H2 result eq_refl) as (Hops2 & Hlen2 & -> & Hcalls2).
      split.
      { apply Forall_app. split; [done|].
        eapply Forall_impl; [exact Hops2|]. apply detail_of_further. }
      split; [rewrite length_app; lia|].
      split; [by rewrite map_app, List.filter_app, app_assoc|].
      by rewrite fmap_app, Hcalls1, Hcalls2.
Qed.

(** Slicing a string gives no activity record to fetch details for. *)
Lemma detail_calls_characters (l : list Ascii.ascii) :
  detail_calls (map (fun c => PStr (String c EmptyString)) l) = [].
Proof. by induction l. Qed.

Lemma first_five_logs v :
  logs (first_five v)
    (fun r new => new = [] /\ forall todo, r = Ok todo ->
       (length todo <= 5)%nat
       /\ (forall items, v = PList items -> todo = take 5 items)
       /\ detail_calls todo = detail_calls (take 5 (records_of v))).
Proof.
  unfold first_five.
  destruct v; try (apply logs_raise; by split); apply logs_ret; (split; [done|]);
    intros todo [= <-]; (split; [rewrite ?length_map, length_take; lia|]);
    (split; [by intros items' [= <-]|]);
    first [apply detail_calls_characters|done].
Qed.

Lemma py_len_logs v :
  logs (if truthy v then py_len v else ret 0%nat)
    (fun r new => new = [] /\ forall count, r = Ok count ->
       (truthy v = false -> count = 0%nat)
       /\ (forall items, v = PList items -> count = length items)).
Proof.
  destruct (truthy v) eqn:Htruthy.
  - unfold py_len.
    destruct v; try (apply logs_raise; by split); apply logs_ret; (split; [done|]);
      intros count [= <-]; (split; [done|]); by intros items' [= <-].
  - apply logs_ret. split; [done|]. intros count [= <-]. split; [done|].
    intros items ->. by destruct items.
Qed.

Lemma activities_logs self limit :
  logs (export_activities w self limit)
    (fun r new => forall a, r = Ok a -> activities_as_specified limit new a).
Proof.
  unfold export_activities.
  apply logs_silent; [by apply logs_print|intros _|done].
  apply logs_attr_call; [|done]. intros listed.
  apply logs_attr_call; [|done]. intros last.
  eapply logs_bind with
    (Φ1 := fun r new => forall detailed, r = Ok detailed ->
       (forall items, result_of listed = PList items ->
          Forall (detail_of (take 5 items)) new)
       /\ Forall (fun r => op (call r) = "get_activity") new
       /\ (length new <= 5)%nat
       /\ detailed = List.filter truthy (map (fun r => result_of (outcome r)) new)
       /\ call <$> new = detail_calls (take 5 (records_of (result_of listed))))
    (Φ2 := fun detailed r new => new = [] /\ forall a, r = Ok a ->
       all_activities a = result_of listed /\ last_activity a = result_of last
       /\ detailed_sample a = detailed
       /\ total_requested (act_metadata a) = limit
       /\ (truthy (result_of listed) = false -> actual_count (act_metadata a) = 0%nat)
       /\ (forall items, result_of listed = PList items ->
             actual_count (act_metadata a) = length items)
       /\ detailed_sample_count (act_metadata a) = length detailed).
  - destruct (truthy (result_of listed)) eqn:Htrue.
    2: { apply logs_ret. intros detailed [= <-].
         split; [done|]. split; [done|]. split; [simpl; lia|]. split; [done|].
         destruct (result_of listed) as [| | | | |[|? ?]|]; done. }
    eapply logs_bind; [apply first_five_logs|intros todo; apply detail_loop_logs| |done].
    intros todo n1 r n2 [-> Htodo] Hloop detailed ->.
    destruct (Hloop detailed eq_refl) as (Hdetails & Hlen' & -> & Hcalls).
    destruct (Htodo todo eq_refl) as (Hlen & Hitems & Hsame).
    split; [intros items Heq; by rewrite <- (Hitems items Heq)|].
    split; [eapply Forall_impl; [exact Hdetails|]; by intros r' [? _]|].
    split; [simpl; lia|]. split; [done|].
    simpl. by rewrite Hcalls, Hsame.
  - intros detailed.
    eapply logs_bind with
      (Φ2 := fun count r new => new = [] /\ forall a, r = Ok a ->
         all_activities a = result_of listed /\ last_activity a = result_of last
         /\ detailed_sample a = detailed
         /\ total_requested (act_metadata a) = limit
         /\ actual_count (act_metadata a) = count
         /\ detailed_sample_count (act_metadata a) = length detailed);
      [apply py_len_logs| | |].
    + intros count. apply logs_ret. split; [done|]. by intros a [= <-].
    + intros count n1 r n2 [-> Hcount] [-> Ha]. split; [done|].
      intros a ->. destruct (Ha a eq_refl) as (Ha1 & Ha2 & Ha3 & Ha4 & Hc & Ha5).
      destruct (Hcount count eq_refl) as [Hzero Hitems]. rewrite Hc.
      by repeat split.
    + by intros e n1 [-> _].
  - intros detailed n1 r n2 H1 [-> H2] a ->. rewrite app_nil_r.
    destruct (H1 detailed eq_refl) as (Hfirst & Hops & Hlen & -> & Hcalls).
    destruct (H2 a eq_refl) as (Hall & Hlast & Hsample & Hreq & Hzero & Hcount & Hn).
    exists listed, last, n1. rewrite Hall, Hsample. by repeat split.
  - done.
Qed.

(** The driver asks for 300 activities. *)
Lemma collect_sections_limit self days_back :
  returns (collect_sections w self days_back)
    (fun all_data =>
       exists a, doc_activities all_data = Some a
         /\ total_requested (act_metadata a) = 300).
Proof.
  unfold collect_sections.
  eapply returns_bind; [apply returns_any|intros p _].
  eapply returns_bind with (P := fun a => total_requested (act_metadata a) = 300).
  { intros s a Hrun. destruct (activities_logs self 300 s) as (new & _ & Hspec).
    destruct (Hspec a Hrun) as (? & ? & ? & _ & _ & _ & _ & _ & _ & _ & Hreq & _).
    done. }
  intros a Ha.
  eapply returns_bind; [apply returns_any|intros h _].
  eapply returns_bind; [apply returns_any|intros f _].
  eapply returns_bind; [apply returns_any|intros x _].
  eapply returns_bind; [apply returns_any|intros c _].
  apply returns_ret. simpl. eauto.
Qed.

(** C8.  The activities collector asks for the activity records in one
    call [get_activities(0, limit)] and for the most recent activity in
    one call [get_last_activity()]; after these it makes at most five
    calls, all of [get_activity], each for the [activityId] of one of the
    first five records returned: exactly one call for each of these
    records that has a true [activityId], with that identifier, in the
    order of the records, and none when the list call yielded nothing.
    [detailed_sample] holds the true results of these calls.  The
    metadata records the requested limit, the number of
    records returned (0 when the list call yielded nothing) and the number
    of detailed records.  In the full export the limit is 300. *)
Theorem activities_are_bounded_and_counted self limit days_back s :
  let final := export_activities w self limit s in
  (exists new, calls final.2 = calls s ++ new
     /\ when_ok final.1 (activities_as_specified limit new))
  /\ when_ok (collect_sections w self days_back s).1
       (fun all_data =>
          exists a, doc_activities all_data = Some a
            /\ total_requested (act_metadata a) = 300).
Proof.
  intros final. subst final. split.
  - destruct (activities_logs self limit s) as (new & Hcalls & Hnew).
    exists new. split; [done|].
    destruct (export_activities w self limit s).1; [by apply Hnew|done].
  - pose proof (collect_sections_limit self days_back s) as H.
    destruct (collect_sections w self days_back s).1; [by apply H|done].
Qed.

End ActivitiesCollector.

(** ** Context synthesizer *)

Section ContextSynthesizer.

Variable w : World.

Lemma synthesizer_reads_the_clock_only all_data s :
  let final := create_llm_analysis_context w all_data s in
  stdout final.2 = stdout s /\ calls final.2 = calls s
  /\ typed final.2 = typed s /\ files final.2 = files s
  /\ ticks final.2 = S (ticks s).
Proof.
  unfold create_llm_analysis_context, note_activities, bind, now, ret, py_len, raise.
  simpl.
  destruct (doc_activities all_data) as [a|]; [|done].
  destruct (truthy (all_activities a)); [|done].
  by destruct (all_activities a).
Qed.

Lemma synthesizer_ignores_its_own_output all_data c s :
  create_llm_analysis_context w (update_llm_analysis_context c all_data) s
  = create_llm_analysis_context w all_data s.
Proof. reflexivity. Qed.

Lemma elem_of_tag x present name :
  x ∈ tag present name <-> present = true /\ x = name.
Proof.
  destruct present; simpl.
  - rewrite list_elem_of_singleton. split; [done|by intros [_ ?]].
  - split; [intros H; by apply elem_of_nil in H|by intros [? _]].
Qed.

Lemma has_series_sleep all_data :
  has_series (doc_daily_health_metrics all_data) sleep_data = true
  <-> exists health, doc_daily_health_metrics all_data = Some health
        /\ sleep_data health <> [].
Proof.
  unfold has_series. destruct (doc_daily_health_metrics all_data) as [h|].
  - split.
    + intros H. exists h. split; [done|]. by destruct (sleep_data h).
    + intros (health & [= <-] & Hne). by destruct (sleep_data h).
  - split; [done|]. by intros (health & Heq & _).
Qed.

Lemma note_daily_health_extends all_data c :
  extends_context c (note_daily_health all_data c)
    (tag (has_series (doc_daily_health_metrics all_data) heart_rate_data)
       "heart_rate_data"
     ++ tag (has_series (doc_daily_health_metrics all_data) sleep_data) "sleep_patterns"
     ++ tag (has_series (doc_daily_health_metrics all_data) stress_data) "stress_levels")
    (tag (has_series (doc_daily_health_metrics all_data) heart_rate_data)
       "heart_rate_zone_analysis"
     ++ tag (has_series (doc_daily_health_metrics all_data) sleep_data)
          "sleep_quality_and_recovery_assessment"
     ++ tag (has_series (doc_daily_health_metrics all_data) stress_data)
          "stress_impact_on_performance")
  /\ data_overview (note_daily_health all_data c) = data_overview c.
Proof.
  unfold note_daily_health, has_series, extends_context.
  destruct (doc_daily_health_metrics all_data) as [h|]; simpl;
    [|by rewrite !app_nil_r].
  destruct (nonempty (heart_rate_data h)), (nonempty (sleep_data h)),
    (nonempty (stress_data h)); simpl; by rewrite ?app_nil_r, <- ?app_assoc.
Qed.

Lemma note_fitness_extends all_data c :
  extends_context c (note_fitness all_data c) []
    (tag (has_series (doc_fitness_metrics all_data) training_readiness)
       "training_readiness_optimization"
     ++ tag (has_series (doc_fitness_metrics all_data) resting_heart_rate)
          "cardiovascular_fitness_trends")
  /\ data_overview (note_fitness all_data c) = data_overview c.
Proof.
  unfold note_fitness, has_series, extends_context.
  destruct (doc_fitness_metrics all_data) as [f|]; simpl;
    [|by rewrite !app_nil_r].
  destruct (nonempty (training_readiness f)), (nonempty (resting_heart_rate f));
    simpl; by rewrite ?app_nil_r, <- ?app_assoc.
Qed.

Lemma note_activities_extends all_data c s :
  (note_activities all_data c s).2 = s
  /\ when_ok (note_activities all_data c s).1 (fun c' =>
       extends_context c c'
         (tag (has_activities all_data) "activity_patterns")
         (tag (has_activities all_data) "activity_trends_and_performance_analysis")).
Proof.
  unfold note_activities, has_activities, extends_context, py_len, bind, ret, raise.
  destruct (doc_activities all_data) as [a|]; simpl; [|by rewrite !app_nil_r].
  destruct (truthy (all_activities a)); simpl; [|by rewrite !app_nil_r].
  by destruct (all_activities a).
Qed.

(** The outcome of the activities block does not depend on the state,
    and its overview only on the overview it starts from. *)
Lemma note_activities_same all_data c1 c2 s1 s2 :
  data_overview c1 = data_overview c2 ->
  match (note_activities all_data c1 s1).1, (note_activities all_data c2 s2).1 with
  | Ok c1', Ok c2' => data_overview c1' = data_overview c2'
  | Raise e1, Raise e2 => e1 = e2
  | _, _ => False
  end.
Proof.
  intros Hsame. unfold note_activities, py_len, bind, ret, raise.
  destruct (doc_activities all_data) as [a|]; simpl; [|done].
  destruct (truthy (all_activities a)); simpl; [|done].
  destruct (all_activities a); simpl; by rewrite ?Hsame.
Qed.

Lemma synthesizer_runs all_data s :
  create_llm_analysis_context w all_data s
  = let c0 := {| export_timestamp := clock w (ticks s);
                 data_overview := ∅;
                 available_metrics := [];
                 suggested_analyses := [];
                 data_quality_notes := [];
                 analysis_instructions := analysis_instructions_text |} in
    let s' := {| stdout := stdout s; calls := calls s; ticks := S (ticks s);
                 typed := typed s; files := files s |} in
    match (note_activities all_data c0 s').1 with
    | Ok c => (Ok (note_fitness all_data (note_daily_health all_data c)), s')
    | Raise e => (Raise e, s')
    end.
Proof.
  unfold create_llm_analysis_context, bind, now, ret. simpl.
  match goal with
  | |- context [note_activities all_data ?c ?s'] =>
      pose proof (proj1 (note_activities_extends all_data c s')) as Hs;
      destruct (note_activities all_data c s') as [[c'|e] s2]
  end; simpl in *; by subst.
Qed.

Lemma synthesizer_reproducible all_data s1 s2 :
  reproducible w all_data (clock w (ticks s1))
    (create_llm_analysis_context w all_data s1).1
    (create_llm_analysis_context w all_data s2).1.
Proof.
  rewrite !synthesizer_runs. cbv zeta.
  set (c1 := {| export_timestamp := clock w (ticks s1) |}).
  set (c2 := {| export_timestamp := clock w (ticks s2) |}).
  set (a1 := {| ticks := S (ticks s1) |}). set (a2 := {| ticks := S (ticks s2) |}).
  pose proof (note_activities_same all_data c1 c2 a1 a2 eq_refl) as Hsame.
  pose proof (proj2 (note_activities_extends all_data c1 a1)) as H1.
  pose proof (proj2 (note_activities_extends all_data c2 a2)) as H2.
  destruct (note_activities all_data c1 a1).1 as [c1'|e1],
           (note_activities all_data c2 a2).1 as [c2'|e2];
    simpl in *; try done.
  destruct (note_daily_health_extends all_data c1') as [(Hm1 & Ha1 & Ht1 & Hq1 & Hi1) Ho1].
  destruct (note_daily_health_extends all_data c2') as [(Hm2 & Ha2 & Ht2 & Hq2 & Hi2) Ho2].
  destruct (note_fitness_extends all_data (note_daily_health all_data c1'))
    as [(Hfm1 & Hfa1 & Hft1 & Hfq1 & Hfi1) Hfo1].
  destruct (note_fitness_extends all_data (note_daily_health all_data c2'))
    as [(Hfm2 & Hfa2 & Hft2 & Hfq2 & Hfi2) Hfo2].
  destruct H1 as (Hx1 & Hy1 & Hz1 & Hq1' & Hi1').
  destruct H2 as (Hx2 & Hy2 & Hz2 & Hq2' & Hi2').
  assert (available_metrics (note_fitness all_data (note_daily_health all_data c1'))
          = expected_metrics all_data) as Hmetrics.
  { rewrite Hfm1, Hm1, Hx1. unfold expected_metrics. simpl. by rewrite app_nil_r. }
  assert (suggested_analyses (note_fitness all_data (note_daily_health all_data c1'))
          = expected_analyses all_data) as Hanalyses.
  { rewrite Hfa1, Ha1, Hy1. unfold expected_analyses. simpl.
    by rewrite <- !app_assoc. }
  split.
  { unfold same_summary. rewrite Hfo1, Ho1, Hfo2, Ho2, Hfm1, Hm1, Hx1, Hfm2, Hm2, Hx2,
      Hfa1, Ha1, Hy1, Hfa2, Ha2, Hy2, Hfq1, Hq1, Hq1', Hfq2, Hq2, Hq2',
      Hfi1, Hi1, Hi1', Hfi2, Hi2, Hi2'. by repeat split. }
  split; [by rewrite Hft1, Ht1, Hz1|].
  split; [done|]. split; [done|].
  rewrite Hmetrics, Hanalyses, <- has_series_sleep.
  unfold expected_metrics, expected_analyses.
  rewrite !elem_of_app, !elem_of_tag. split; split.
  - intros [[_ ?]|[[_ ?]|[[? _]|[_ ?]]]]; done.
  - intros H. right. right. left. by split.
  - intros [[_ ?]|[[_ ?]|[[? _]|[[_ ?]|[[_ ?]|[_ ?]]]]]]; done.
  - intros H. right. right. left. by split.
Qed.

(** C7.  Two runs of the context synthesizer on the same merged document
    end alike: both raise the same fault, or both return summaries that
    agree on everything but the export timestamp, which is the reading of
    the clock.  The lists of available metrics and of suggested analyses
    are exactly those called for by the presence checks on the fragment
    keys; in particular "sleep_patterns" and
    "sleep_quality_and_recovery_assessment" are listed if and only if
    [daily_health_metrics] is present with a non-empty [sleep_data].  A
    run reads the clock once and has no other effect, and merging a
    summary into the document does not change what the synthesizer makes
    of the document. *)
Theorem context_synthesizer_is_reproducible all_data s1 s2 :
  let first := create_llm_analysis_context w all_data s1 in
  let second := create_llm_analysis_context w all_data s2 in
  reproducible w all_data (clock w (ticks s1)) first.1 second.1
  /\ (stdout first.2 = stdout s1 /\ calls first.2 = calls s1
      /\ typed first.2 = typed s1 /\ files first.2 = files s1
      /\ ticks first.2 = S (ticks s1))
  /\ (forall c,
        create_llm_analysis_context w (update_llm_analysis_context c all_data) s2
        = second).
Proof.
  intros first second. split; [apply synthesizer_reproducible|].
  split; [apply synthesizer_reads_the_clock_only|].
  intros c. apply synthesizer_ignores_its_own_output.
Qed.

End ContextSynthesizer.

(** ** The collectors return *)

Section Totality.

Variable w : World.
Variable self : Exporter.
Hypothesis logged_in : client self = true.
Hypothesis complete_client : forall name, has_attr w name = true.

Lemma total_ret {A} (a : A) (P : A -> Prop) : P a -> total (ret a) P.
Proof. intros H s. by exists a. Qed.

Lemma total_bind {A B} (m : M A) (f : A -> M B) (P : A -> Prop) (Q : B -> Prop) :
  total m P -> (forall a, P a -> total (f a) Q) -> total (bind m f) Q.
Proof.
  intros Hm Hf s. unfold bind. destruct (Hm s) as (a & Hrun & Ha).
  destruct (m s) as [r s1]. simpl in Hrun. subst r. by apply Hf.
Qed.

Lemma total_print l : total (print l) (fun _ => True).
Proof. intros s. by exists tt. Qed.

Lemma total_date_add d n :
  date_min <= d + n <= date_max -> total (date_add d n) (fun d' => d' = d + n).
Proof.
  intros [Hlo Hhi] s. unfold date_add.
  apply Z.leb_le in Hlo, Hhi. rewrite Hlo, Hhi. by exists (d + n).
Qed.

Lemma total_gated {H} name d (append : SamplePoint -> H -> H) h :
  total (gated w self name d append h) (fun _ => True).
Proof.
  intros s. unfold gated, client_attr.
  destruct (available self name); [|by exists h].
  rewrite logged_in, complete_client. unfold bind at 1, ret at 1.
  destruct (safe_call_run w name [ADate d] s) as (s1 & Hrun & _).
  rewrite (bind_ok _ _ _ _ _ Hrun). eexists. by split.
Qed.

Lemma total_attr_call {B} name args (k : PyVal -> M B) (Q : B -> Prop) :
  (forall v, total (k v) Q) ->
  total (do f <- client_attr w self name; do v <- safe_call w f args; k v) Q.
Proof.
  intros Hk s. unfold client_attr.
  rewrite logged_in, complete_client. unfold bind at 1, ret at 1.
  destruct (safe_call_run w name args s) as (s1 & Hrun & _).
  rewrite (bind_ok _ _ _ _ _ Hrun). apply Hk.
Qed.

Lemma total_try {A} (m : M A) handler (P : A -> Prop) :
  total m P -> total (try_except m handler) P.
Proof.
  intros Hm s. unfold try_except. destruct (Hm s) as (a & Hrun & Ha).
  destruct (m s) as [r s1]. simpl in Hrun. subst r. by exists a.
Qed.

Lemma total_while {St} (Inv : St -> Prop) cond (body : St -> M St) fuel st :
  (forall st, Inv st -> cond st = true -> total (body st) Inv) ->
  Inv st -> total (while_ fuel cond body st) (fun _ => True).
Proof.
  intros Hbody. revert st. induction fuel as [|fuel IH]; intros st Hinv; simpl.
  - by apply total_ret.
  - destruct (cond st) eqn:Hc; [|by apply total_ret].
    eapply total_bind; [by apply Hbody|]. intros st'. apply IH.
Qed.

Ltac total_step :=
  first
    [ apply total_ret; done
    | eapply total_bind; [apply total_gated|intros ? _]
    | eapply total_bind; [apply total_print|intros ? _]
    | apply total_attr_call; intros ? ].

(** With a client that has all its operations and a range that stays a
    week clear of the last [date], the three date-strided collectors
    return their fragments. *)
Lemma collectors_return days_back s :
  let today := dt_date (clock w (ticks s)) in
  0 <= days_back -> date_min <= today - days_back -> today + 7 <= date_max ->
  is_ok (export_daily_health_metrics w self days_back s).1 = true
  /\ is_ok (export_fitness_metrics w self days_back s).1 = true
  /\ is_ok (export_specialized_health w self days_back s).1 = true.
Proof.
  intros today Hback Hlo Hhi.
  assert (forall A (m : M A) s', total m (fun _ => True) -> is_ok (m s').1 = true)
    as Hok.
  { intros A m s' Hm. destruct (Hm s') as (a & -> & _). done. }
  assert (date_min <= today + - days_back <= date_max) as Hstart by lia.
  repeat split.
  - unfold export_daily_health_metrics. rewrite now_then. fold today. apply Hok.
    eapply total_bind; [by apply total_date_add|intros start ->].
    eapply total_bind; [|intros st _; by apply total_ret].
    apply total_while with (Inv := fun st => date_min <= st.1.1); [|simpl; lia].
    intros [[current n] h] Hinv Hc. simpl in *. apply Z.leb_le in Hc.
    unfold daily_step.
    eapply total_bind with (P := fun _ => True).
    + destruct (_ =? _); [|by apply total_ret].
      unfold daily_day. total_step.
      eapply total_bind with (P := fun _ => True).
      { unfold daily_summary. apply total_attr_call. intros v. by apply total_ret. }
      intros h1 _. do 3 total_step. apply total_gated.
    + intros h' _. eapply total_bind;
        [apply total_date_add; lia|intros c ->]. apply total_ret. simpl. lia.
  - unfold export_fitness_metrics. rewrite now_then. fold today. apply Hok.
    eapply total_bind; [by apply total_date_add|intros start ->].
    eapply total_bind with (P := fun _ => True).
    + apply total_while with (Inv := fun st => date_min <= st.1); [|simpl; lia].
      intros [current f] Hinv Hc. simpl in *. apply Z.leb_le in Hc.
      unfold fitness_step. do 4 total_step.
      eapply total_bind; [apply total_date_add; lia|intros c ->].
      apply total_ret. simpl. lia.
    + intros st _. destruct (available self "get_weigh_ins"); [|by apply total_ret].
      apply total_try. total_step. by apply total_ret.
  - unfold export_specialized_health. rewrite now_then. fold today. apply Hok.
    eapply total_bind; [by apply total_date_add|intros start ->].
    eapply total_bind with (P := fun _ => True).
    + apply total_while with (Inv := fun st => date_min <= st.1); [|simpl; lia].
      intros [current x] Hinv Hc. simpl in *. apply Z.leb_le in Hc.
      unfold specialized_step. do 3 total_step.
      eapply total_bind; [apply total_date_add; lia|intros c ->].
      apply total_ret. simpl. lia.
    + intros st _. eapply total_bind with (P := fun _ => True).
      * destruct (available self "get_menstrual_calendar_data");
          [|by apply total_ret].
        total_step. by apply total_ret.
      * intros x _. destruct (available self "get_pregnancy_summary");
          [|by apply total_ret].
        total_step. by apply total_ret.
Qed.

End Totality.

(** ** Capability prober and authentication *)

Section Prober.

Variable w : World.

Lemma probe_lookup (f : string -> bool) names (api : gmap string bool) name :
  foldl (fun api method => <[method := f method]> api) api names !! name
  = if bool_decide (name ∈ names) then Some (f name) else api !! name.
Proof.
  revert api. induction names as [|n names IH]; intros api; simpl; [done|].
  rewrite IH. destruct (decide (name ∈ names)) as [Hin|Hin].
  - rewrite !bool_decide_eq_true_2; [done|by right|done].
  - rewrite (bool_decide_eq_false_2 _ Hin).
    destruct (decide (name = n)) as [->|Hne].
    + rewrite lookup_insert_eq, bool_decide_eq_true_2; [done|by left].
    + rewrite lookup_insert_ne by done.
      rewrite bool_decide_eq_false_2; [done|].
      intros [?|?]%elem_of_cons; done.
Qed.

(** The run of the prober, spelled out. *)
Lemma prober_run self s :
  exists self',
    _discover_api_methods w self s
    = (Ok self',
       {| stdout := stdout s
                    ++ [Discovered (count_available (api_methods self')) 17];
          calls := calls s; ticks := ticks s; typed := typed s;
          files := files s |})
    /\ (forall name, available self' name = probed w self name)
    /\ email self' = email self /\ password self' = password self
    /\ client self' = client self.
Proof.
  exists {| email := email self; password := password self; client := client self;
            api_methods :=
              foldl (fun api method => <[method := hasattr w self method]> api)
                    (api_methods self) methods_to_check |}.
  split; [reflexivity|]. split; [|done].
  intros name. unfold available, probed. cbv beta iota delta [api_methods].
  rewrite probe_lookup.
  by destruct (bool_decide _).
Qed.

(** X1.  The capability prober is pure inspection: it always returns,
    calls no client operation, reads no clock and no keyboard, touches no
    file and prints one discovery line with a total of 17.  Afterwards the
    capability set answers, for each of the 17 probed names, whether the
    client has that operation, and is unchanged for every other name; the
    credentials and the client are as before. *)
Theorem prober_records_the_client self s :
  exists self',
    _discover_api_methods w self s
    = (Ok self',
       {| stdout := stdout s
                    ++ [Discovered (count_available (api_methods self')) 17];
          calls := calls s; ticks := ticks s; typed := typed s;
          files := files s |})
    /\ (forall name,
          available self' name
          = if bool_decide (name ∈ methods_to_check) then hasattr w self name
            else available self name)
    /\ email self' = email self /\ password self' = password self
    /\ client self' = client self.
Proof. apply prober_run. Qed.

Lemma probe_values (f : string -> bool) names (api : gmap string bool) :
  NoDup names -> (forall n, n ∈ names -> api !! n = None) ->
  (map_to_list (foldl (fun api method => <[method := f method]> api) api names)).*2
  ≡ₚ (f <$> names) ++ (map_to_list api).*2.
Proof.
  revert api. induction names as [|n names IH]; intros api Hnd Hfresh; simpl; [done|].
  apply NoDup_cons in Hnd as [Hn Hnd].
  rewrite IH; [|done|].
  - rewrite map_to_list_insert by (apply Hfresh; by left).
    rewrite fmap_cons. simpl. by rewrite Permutation_middle.
  - intros n' Hn'. rewrite lookup_insert_ne by (by intros ->).
    apply Hfresh. by right.
Qed.

Lemma count_fmap (f : string -> bool) names :
  length (filter (fun b => b = true) (f <$> names))
  = length (filter (fun name => f name = true) names).
Proof.
  induction names as [|n names IH]; [done|].
  rewrite fmap_cons, !filter_cons. destruct (decide (f n = true)); simpl; by rewrite IH.
Qed.

(** X2.  On an exporter whose capability set is still empty, as
    [__init__] leaves it, the discovery line reports the number of probed
    operations that the client has, out of 17. *)
Theorem prober_counts_the_operations self s :
  api_methods self = ∅ ->
  stdout (_discover_api_methods w self s).2
  = stdout s
    ++ [Discovered
          (length (filter (fun name => hasattr w self name = true) methods_to_check))
          17].
Proof.
  intros Hempty.
  assert (count_available
            (foldl (fun api method => <[method := hasattr w self method]> api)
                   (api_methods self) methods_to_check)
          = length (filter (fun name => hasattr w self name = true) methods_to_check))
    as Hcount.
  { unfold count_available. rewrite Hempty, probe_values.
    - rewrite map_to_list_empty, app_nil_r. apply count_fmap.
    - apply (bool_decide_unpack _). by vm_compute.
    - intros n _. apply lookup_empty. }
  unfold _discover_api_methods, bind, print, ret. cbn [snd stdout].
  by rewrite Hcount.
Qed.

End Prober.

(** A client without three of the probed operations: 14 of 17. *)
Lemma prober_counts_fourteen :
  api_methods (init None None) = ∅
  /\ stdout (_discover_api_methods
               {| clock := clock quiet_world; keyboard := keyboard quiet_world;
                  token_login := None; credential_login := fun _ _ => None;
                  has_attr := fun name =>
                    negb (bool_decide
                            (name ∈ ["get_floors"; "get_pulse_ox"; "get_rhr_day"]));
                  respond := respond quiet_world; py_str := py_str_stub;
                  open_fault := fun _ => None; dump_fault := fun _ => None |}
               {| email := None; password := None; client := true;
                  api_methods := ∅ |} idle).2
     = [Discovered 14 17].
Proof.
  split; [reflexivity|].
  exact (prober_counts_the_operations _
           {| email := None; password := None; client := true; api_methods := ∅ |}
           idle eq_refl).
Defined.

Section Authentication.

Variable w : World.

Lemma ask_run field prompt s :
  exists s',
    ask_if_missing w field prompt s
    = (stored_or_typed field (keyboard w (typed s)), s')
    /\ typed s' = (if is_missing field then S (typed s) else typed s)
    /\ calls s' = calls s /\ ticks s' = ticks s /\ files s' = files s.
Proof.
  unfold ask_if_missing, input, ret.
  destruct field as [[|c rest]|]; simpl; eexists; split; try reflexivity; done.
Qed.

(** What follows an accepted login: the notice and the prober. *)
Lemma accepted_login_run self l s :
  exists self' s',
    (run print l; do self0 <- _discover_api_methods w self; ret (self0, true)) s
    = (Ok (self', true), s')
    /\ calls s' = calls s /\ ticks s' = ticks s /\ files s' = files s
    /\ typed s' = typed s
    /\ (forall name, available self' name = probed w self name)
    /\ email self' = email self /\ password self' = password self
    /\ client self' = client self.
Proof.
  destruct (prober_run w self (print l s).2) as (self' & Hrun & Hrest).
  exists self'. eexists. split.
  - unfold bind at 1. cbv beta iota delta [print].
    by rewrite (bind_ok _ _ _ _ _ Hrun).
  - by simpl.
Qed.

(** The run of [authenticate], spelled out. *)
Lemma authenticate_run self s :
  exists s',
    calls s' = calls s /\ ticks s' = ticks s /\ files s' = files s
    /\ match login_outcome w self s with
       | Raise e =>
           authenticate w self s = (Raise e, s') /\ raised_at_a_prompt w e
       | Ok accepted =>
           exists self',
             authenticate w self s = (Ok (self', accepted), s')
             /\ client self' = true
             /\ match token_login w with
                | None =>
                    typed s' = typed s
                    /\ email self' = email self /\ password self' = password self
                | Some _ =>
                    typed s' = typed_after_pass self s
                    /\ email self' = line_of (mail_sent w self s)
                    /\ password self' = line_of (pass_sent w self s)
                end
             /\ (forall name,
                   available self' name
                   = if accepted && bool_decide (name ∈ methods_to_check)
                     then has_attr w name else available self name)
       end.
Proof.
  remember (authenticate w self s) as final eqn:Hfinal.
  unfold login_outcome. unfold authenticate in Hfinal.
  destruct (token_login w) as [e|] eqn:Htoken.
  - unfold try_except at 1 in Hfinal. unfold bind at 1, login, raise in Hfinal.
    cbn [email password api_methods] in Hfinal.
    destruct (ask_run (email self) PromptEmail s) as (s1 & Hmail & Ht1 & Hc1 & Hk1 & Hf1).
    assert (forall field n e', stored_or_typed field (keyboard w n) = Raise e' ->
              raised_at_a_prompt w e') as Hprompt.
    { intros [[|c rest]|] n e' Heq; simpl in Heq; try done; by exists n. }
    pose proof (Hprompt (email self) (typed s)) as Hprompt1.
    fold (mail_sent w self s) in Hmail, Hprompt1.
    destruct (mail_sent w self s) as [mail|e1] eqn:Hm.
    2: { rewrite (bind_raise _ _ _ _ _ Hmail) in Hfinal. subst final.
         exists s1. repeat split; try done. by apply Hprompt1. }
    rewrite (bind_ok _ _ _ _ _ Hmail) in Hfinal.
    destruct (ask_run (password self) PromptPassword s1)
      as (s2 & Hpass & Ht2 & Hc2 & Hk2 & Hf2).
    assert (typed s2 = typed_after_pass self s) as Htyped.
    { unfold typed_after_pass, typed_after_mail. by rewrite Ht2, Ht1. }
    assert (stored_or_typed (password self) (keyboard w (typed s1)) = pass_sent w self s)
      as Hsent.
    { unfold pass_sent, typed_after_mail. by rewrite Ht1. }
    pose proof (Hprompt (password self) (typed s1)) as Hprompt2.
    rewrite Hsent in Hpass, Hprompt2.
    destruct (pass_sent w self s) as [pass|e2] eqn:Hp.
    2: { rewrite (bind_raise _ _ _ _ _ Hpass) in Hfinal. subst final.
         exists s2. split; [congruence|]. split; [congruence|]. split; [congruence|].
         split; [done|]. by apply Hprompt2. }
    rewrite (bind_ok _ _ _ _ _ Hpass) in Hfinal.
    unfold try_except, login in Hfinal.
    destruct (credential_login w mail pass) as [e2|] eqn:Hcred.
    + simpl in Hfinal. subst final. eexists.
      split; [|split; [|split]]; cycle 3.
      { eexists. split; [reflexivity|]. simpl. by repeat split. }
      all: simpl; congruence.
    + destruct (accepted_login_run
                  {| email := Some mail; password := Some pass;
                     client := true; api_methods := api_methods self |}
                  AuthOkCredentials s2)
        as (self' & s' & Hrun & Hc & Hk & Hf & Ht & Hav & He & Hpw & Hcl).
      change ((run ret (); ?m) s2) with (m s2) in Hfinal. rewrite Hrun in Hfinal.
      subst final.
      exists s'. split; [congruence|]. split; [congruence|]. split; [congruence|].
      exists self'. split; [done|].
      simpl in He, Hpw, Hcl. repeat split; simpl; try congruence.
      intros name. rewrite Hav. unfold probed, hasattr, available. simpl.
      by destruct (bool_decide _).
  - destruct (accepted_login_run
                {| email := email self; password := password self;
                   client := true; api_methods := api_methods self |}
                AuthOkTokens s)
      as (self' & s' & Hrun & Hc & Hk & Hf & Ht & Hav & He & Hp & Hcl).
    unfold try_except, login in Hfinal.
    change ((run ret (); ?m) s) with (m s) in Hfinal. rewrite Hrun in Hfinal.
    subst final.
    exists s'. split; [done|]. split; [done|]. split; [done|].
    exists self'. split; [done|].
    simpl in He, Hp, Hcl. repeat split; try congruence.
    intros name. rewrite Hav. unfold probed, hasattr, available. simpl.
    by destruct (bool_decide _).
Qed.

(** What an exporter is like after [authenticate] has answered [True]. *)
Lemma authenticated_capabilities self s self' s1 :
  authenticate w self s = (Ok (self', true), s1) ->
  client self' = true
  /\ files s1 = files s
  /\ (forall name, name ∈ methods_to_check ->
        available self' name = has_attr w name).
Proof.
  intros Hauth.
  destruct (authenticate_run self s) as (s' & _ & _ & Hf & Hrun).
  destruct (login_outcome w self s) as [accepted|e].
  - destruct Hrun as (self'' & Hrun & Hcl & _ & Hav).
    rewrite Hauth in Hrun. injection Hrun as <- <- <-.
    split; [done|]. split; [done|]. intros name Hin.
    by rewrite (Hav name), bool_decide_eq_true_2.
  - destruct Hrun as [Hrun _]. by rewrite Hauth in Hrun.
Qed.

(** X3.  [authenticate] raises only what a prompt for a missing
    credential raises ([EOFError] at the end of the input), and such a
    prompt is shown only after the stored tokens were refused: the
    prompts are outside the inner [try].  Otherwise it answers whether
    a login was accepted: the one with the stored tokens, or else the one
    with the credentials, each of which is asked for at a prompt only
    when the exporter holds none (or an empty one).  In no case does it
    call a client operation, read the clock or touch a file; when the
    tokens are accepted nothing is asked and the credentials stay as they
    were.  The capability set is probed exactly when a login was
    accepted, and is left as it was otherwise. *)
Theorem authenticate_answers_unless_the_input_ends self s :
  exists s',
    calls s' = calls s /\ ticks s' = ticks s /\ files s' = files s
    /\ match login_outcome w self s with
       | Raise e =>
           authenticate w self s = (Raise e, s') /\ raised_at_a_prompt w e
       | Ok accepted =>
           exists self',
             authenticate w self s = (Ok (self', accepted), s')
             /\ client self' = true
             /\ match token_login w with
                | None =>
                    typed s' = typed s
                    /\ email self' = email self /\ password self' = password self
                | Some _ =>
                    typed s' = typed_after_pass self s
                    /\ email self' = line_of (mail_sent w self s)
                    /\ password self' = line_of (pass_sent w self s)
                end
             /\ (forall name,
                   available self' name
                   = if accepted && bool_decide (name ∈ methods_to_check)
                     then has_attr w name else available self name)
       end.
Proof. apply authenticate_run. Qed.

(** X4.  Once [authenticate] has answered [True], no step for an optional
    per-date metric raises: for each probed name the step calls the
    operation exactly when the client has it, and otherwise leaves the
    fragment and the call log as they are. *)
Theorem optional_steps_run_after_authentication
    {H} self s self' s1 name d (append : SamplePoint -> H -> H) h s2 :
  authenticate w self s = (Ok (self', true), s1) ->
  name ∈ methods_to_check ->
  exists h' s3,
    gated w self' name d append h s2 = (Ok h', s3)
    /\ calls s3
       = calls s2
         ++ (if has_attr w name
             then [record name [ADate d]
                     (respond w (calls s2) {| op := name; args := [ADate d] |})]
             else [])
    /\ (has_attr w name = false -> h' = h).
Proof.
  intros Hauth Hin.
  destruct (authenticated_capabilities self s self' s1 Hauth) as (Hcl & _ & Hav).
  unfold gated, client_attr. rewrite (Hav name Hin), Hcl.
  destruct (has_attr w name).
  - unfold bind at 1, ret at 1.
    destruct (safe_call_run w name [ADate d] s2) as (s3 & Hcall & Hcalls & _).
    rewrite (bind_ok _ _ _ _ _ Hcall). eexists _, s3. by split.
  - exists h, s2. by rewrite app_nil_r.
Qed.

End Authentication.

(** With the client that lacks the probed operations, the sleep step of
    an authenticated exporter makes no call. *)
Lemma sleep_step_on_the_bare_client :
  exists h' s3,
    gated bare_world (authenticated bare_world) "get_sleep_data" 739924
      add_sleep
      {| dh_metadata := {| period_start := 739903; period_end := 739924;
                           sampling_strategy := "every_2nd_day" |};
         daily_summaries := []; heart_rate_data := []; sleep_data := [];
         stress_data := []; steps_data := []; body_battery_indicators := [] |}
      idle
    = (Ok h', s3)
    /\ calls s3 = [] /\ sleep_data h' = [].
Proof.
  destruct (optional_steps_run_after_authentication bare_world
              (init None None) idle (authenticated bare_world)
              (authenticate bare_world (init None None) idle).2
              "get_sleep_data" 739924 add_sleep
              {| dh_metadata := {| period_start := 739903; period_end := 739924;
                                   sampling_strategy := "every_2nd_day" |};
                 daily_summaries := []; heart_rate_data := []; sleep_data := [];
                 stress_data := []; steps_data := []; body_battery_indicators := [] |}
              idle eq_refl)
    as (h' & s3 & Hrun & Hcalls & Hsame).
  - apply (bool_decide_unpack _). by vm_compute.
  - exists h', s3. split; [exact Hrun|]. split; [exact Hcalls|].
    by rewrite (Hsame eq_refl).
Defined.

(** ** User profile *)

Section UserProfile.

Variable w : World.

(** X5.  The user profile collector asks for the name, the unit system,
    the summary of the day on which it runs and the devices, in this
    order and once each; every field of the profile is what [safe_call]
    made of the answer to its call, so a call that fails leaves [None] in
    its field and the others as they are.  The collector returns exactly
    when the client has these four operations; otherwise it raises an
    [AttributeError] after the calls that precede the missing operation.
    It touches no file. *)
Theorem profile_is_a_snapshot_of_four_calls self s :
  let today := dt_date (clock w (ticks s)) in
  let final := export_user_profile w self s in
  exists new,
    calls final.2 = calls s ++ new
    /\ files final.2 = files s
    /\ is_ok final.1
       = client self
         && forallb (has_attr w)
              ["get_full_name"; "get_unit_system"; "get_user_summary"; "get_devices"]
    /\ match final.1 with
       | Ok p =>
           call <$> new = profile_calls today
           /\ profile_fields p = (fun r => result_of (outcome r)) <$> new
       | Raise e =>
           exc_class e = "AttributeError"
           /\ (call <$> new) `prefix_of` profile_calls today
       end.
Proof.
  intros today final. subst final. unfold export_user_profile.
  rewrite now_then. fold today.
  unfold client_attr, safe_call, try_except, invoke, bind, print, ret, raise.
  destruct (client self); simpl;
    [|exists []; rewrite app_nil_r; repeat split; apply prefix_nil].
  repeat match goal with
         | |- context [has_attr w ?name] =>
             destruct (has_attr w name); simpl
         | |- context [respond w ?history ?c] =>
             destruct (respond w history c); simpl
         end;
    first
      [ by (exists []; rewrite app_nil_r; repeat split; apply prefix_nil)
      | eexists; (split; [rewrite <- ?app_assoc; reflexivity|]);
        repeat split; simpl;
        by repeat first [apply prefix_nil | apply prefix_cons] ].
Qed.

End UserProfile.

(** ** Activities *)

Section ActivitiesOutcome.

Variable w : World.

(** The loop over the activities runs to its end exactly when it gets
    past each of them. *)
Lemma detail_loop_runs self todo : forall i detailed s,
  client self = true ->
  is_ok (detail_loop w self i todo detailed s).1 = forallb (detail_can_run w) todo.
Proof.
  induction todo as [|activity rest IH]; intros i detailed s Hclient; [done|].
  cbn [detail_loop forallb]. unfold bind at 1, print at 1. cbv beta iota.
  set (s0 := {| stdout := _ |}).
  destruct activity; try done.
  unfold bind at 1, dict_get at 1, ret at 1. unfold detail_can_run at 1.
  set (activity_id := default PNone _).
  destruct (truthy activity_id); cbn [negb orb].
  - unfold client_attr. rewrite Hclient.
    destruct (has_attr w "get_activity"); [|done].
    unfold bind at 1. unfold bind at 1, ret at 1.
    destruct (safe_call_run w "get_activity" [AVal activity_id] s0) as (s1 & Hcall & _).
    rewrite (bind_ok _ _ _ _ _ Hcall). unfold ret at 1. by apply IH.
  - unfold bind at 1, ret at 1. by apply IH.
Qed.

(** When the activities collector returns. *)
Lemma activities_run_ok self limit s :
  let listed :=
    respond w (calls s)
      {| op := "get_activities"; args := [AVal (PInt 0); AVal (PInt limit)] |} in
  is_ok (export_activities w self limit s).1
  = client self && has_attr w "get_activities" && has_attr w "get_last_activity"
    && listing_can_run w (result_of listed).
Proof.
  intros listed. unfold export_activities.
  unfold bind at 1, print at 1. cbv beta iota. set (s0 := {| stdout := _ |}).
  unfold client_attr at 1.
  destruct (client self) eqn:Hclient; [|done].
  destruct (has_attr w "get_activities"); [|done].
  unfold bind at 1, ret at 1.
  destruct (safe_call_run w "get_activities" [AVal (PInt 0); AVal (PInt limit)] s0)
    as (s1 & Hcall & _).
  rewrite (bind_ok _ _ _ _ _ Hcall).
  change (respond w (calls s0) _) with listed. set (activities_list := result_of listed).
  unfold client_attr at 1. rewrite Hclient.
  destruct (has_attr w "get_last_activity"); [|done].
  unfold bind at 1, ret at 1.
  destruct (safe_call_run w "get_last_activity" [] s1) as (s2 & Hlast & _).
  rewrite (bind_ok _ _ _ _ _ Hlast). cbn [andb].
  unfold listing_can_run.
  destruct (truthy activities_list) eqn:Htrue; cbn [negb orb]; [|done].
  unfold bind at 1.
  destruct activities_list as [| | | |text|items|]; try done.
  - destruct text as [|c rest]; [done|]. simpl. done.
  - unfold first_five, bind at 1, ret at 1.
    pose proof (detail_loop_runs self (take 5 items) 0 [] s2 Hclient) as Hloop.
    destruct (detail_loop w self 0 (take 5 items) [] s2) as [[detailed|e] s3];
      simpl in Hloop; by rewrite <- Hloop.
Qed.

(** X6.  The activities collector returns exactly when the client has
    [get_activities] and [get_last_activity] and the listing lets it
    through: the listing failed or gave nothing (then no detail is
    fetched), or it is a list whose first five entries are dicts, with
    [get_activity] on the client if one of them has a true [activityId].
    Any other listing (a true value that is not such a list) makes the
    collector raise. *)
Theorem activities_return_on_a_list_of_dicts self limit s :
  let listed :=
    respond w (calls s)
      {| op := "get_activities"; args := [AVal (PInt 0); AVal (PInt limit)] |} in
  is_ok (export_activities w self limit s).1
  = client self && has_attr w "get_activities" && has_attr w "get_last_activity"
    && listing_can_run w (result_of listed).
Proof. apply activities_run_ok. Qed.

End ActivitiesOutcome.

(** ** Provenance of the series *)

Section Provenance.

Variable w : World.

Lemma points_of_app name l1 l2 :
  points_of name (l1 ++ l2) = points_of name l1 ++ points_of name l2.
Proof. apply flat_map_app. Qed.

Lemma filled_from_refl {H} meta table (h : H) : filled_from meta table h [] h.
Proof.
  split; [done|]. apply Forall_forall. intros ns _. by rewrite app_nil_r.
Qed.

Lemma filled_from_trans {H} meta table (h1 h2 h3 : H) n1 n2 :
  filled_from meta table h1 n1 h2 -> filled_from meta table h2 n2 h3 ->
  filled_from meta table h1 (n1 ++ n2) h3.
Proof.
  intros [Hm1 H1] [Hm2 H2]. split; [congruence|].
  rewrite Forall_forall in *. intros ns Hin.
  rewrite (H2 ns Hin), (H1 ns Hin), points_of_app. by rewrite app_assoc.
Qed.

(** A step that keeps the series and the metadata and makes one call that
    is not a call with a single date. *)
Lemma filled_from_other {H} meta table (h h' : H) name a o :
  (forall d, a <> [ADate d]) ->
  meta h' = meta h -> Forall (fun ns => ns.2 h' = ns.2 h) table ->
  filled_from meta table h [record name a o] h'.
Proof.
  intros Ha Hmeta Hsame. split; [done|].
  eapply Forall_impl; [exact Hsame|]. intros ns ->.
  unfold points_of. simpl. destruct (String.eqb _ _); simpl; [|by rewrite app_nil_r].
  destruct a as [|[d|v] [|? ?]]; simpl; try by rewrite app_nil_r.
  by destruct (Ha d).
Qed.

Lemma fills_bind {H A B} meta table (h : H) (m : M A) (f : A -> M B)
    (fa : A -> H) (fb : B -> H) :
  logs m (fun r n => when_ok r (fun a => filled_from meta table h n (fa a))) ->
  (forall a, logs (f a)
     (fun r n => when_ok r (fun b => filled_from meta table (fa a) n (fb b)))) ->
  logs (bind m f)
    (fun r n => when_ok r (fun b => filled_from meta table h n (fb b))).
Proof.
  intros Hm Hf.
  apply logs_bind with
    (Φ1 := fun r n => when_ok r (fun a => filled_from meta table h n (fa a)))
    (Φ2 := fun a r n => when_ok r (fun b => filled_from meta table (fa a) n (fb b)));
    [done|done| |done].
  intros a n1 [b|e] n2 H1 H2; [|done]. simpl in *. by eapply filled_from_trans.
Qed.

Lemma fills_print {H B} meta table (h : H) l (m : M B) (fb : B -> H) :
  logs m (fun r n => when_ok r (fun b => filled_from meta table h n (fb b))) ->
  logs (run print l; m)
    (fun r n => when_ok r (fun b => filled_from meta table h n (fb b))).
Proof. intros Hm s. apply (Hm (print l s).2). Qed.

Lemma fills_date_add {H B} meta table (h : H) d n (g : Z -> B) (fb : B -> H) :
  (forall c, fb (g c) = h) ->
  logs (do c <- date_add d n; ret (g c))
    (fun r new => when_ok r (fun b => filled_from meta table h new (fb b))).
Proof.
  intros Hg s. exists []. rewrite app_nil_r. unfold date_add, bind.
  destruct (_ && _); simpl; [|done]. split; [done|]. rewrite Hg.
  apply filled_from_refl.
Qed.

Lemma fills_while {H St} meta table (fragment : St -> H) cond (body : St -> M St) :
  (forall st, logs (body st)
     (fun r n => when_ok r
        (fun st' => filled_from meta table (fragment st) n (fragment st')))) ->
  forall fuel st, logs (while_ fuel cond body st)
    (fun r n => when_ok r
       (fun st' => filled_from meta table (fragment st) n (fragment st'))).
Proof.
  intros Hbody fuel st.
  eapply logs_weaken;
    [apply (logs_while (fun st' acc => filled_from meta table (fragment st) acc
                                          (fragment st'))) with (acc := [])|].
  - intros st1 acc Hacc _. eapply logs_weaken; [apply Hbody|].
    intros [st2|e] new Hstep st' [= <-]. simpl in Hstep.
    by eapply filled_from_trans.
  - apply filled_from_refl.
  - intros [st'|e] new Hrun; [|done]. simpl. by apply Hrun.
Qed.

Lemma logs_date_add_then {B} d n (f : Z -> M B)
    (Φ : Outcome B -> list CallRecord -> Prop) :
  logs (f (d + n)) Φ -> (forall e, Φ (Raise e) []) ->
  logs (do x <- date_add d n; f x) Φ.
Proof.
  intros Hf Hraise s. unfold date_add, bind.
  destruct (_ && _); simpl; [apply Hf|].
  exists []. rewrite app_nil_r. by split.
Qed.

Lemma gated_fills {H} meta table self name d (append : SamplePoint -> H -> H) h :
  appends_to meta table name append ->
  logs (gated w self name d append h)
    (fun r n => when_ok r (filled_from meta table h n)).
Proof.
  intros [Hmeta Hseries]. eapply logs_weaken; [apply logs_gated|].
  intros r new Hrun. destruct (available self name).
  - destruct Hrun as [[_ [e ->]]|[o [-> ->]]]; [done|]. simpl.
    destruct o as [v|e]; simpl.
    + destruct (truthy v) eqn:Hv.
      * split; [apply Hmeta|]. rewrite Forall_forall in *. intros ns Hin.
        rewrite (Hseries ns Hin). unfold points_of. simpl.
        destruct (String.eqb ns.1 name); simpl; rewrite ?Hv; simpl;
          by rewrite ?app_nil_r.
      * split; [done|]. apply Forall_forall. intros ns _. unfold points_of. simpl.
        destruct (String.eqb ns.1 name); simpl; rewrite ?Hv; simpl;
          by rewrite ?app_nil_r.
    + split; [done|]. apply Forall_forall. intros ns _. unfold points_of. simpl.
      destruct (String.eqb ns.1 name); simpl; by rewrite ?app_nil_r.
  - destruct Hrun as [-> ->]. apply filled_from_refl.
Qed.

Lemma daily_summary_fills self current h :
  logs (daily_summary w self current h)
    (fun r n => when_ok r (filled_from dh_metadata daily_series h n)).
Proof.
  unfold daily_summary. apply logs_attr_call; [|done].
  intros o. apply logs_ret. simpl.
  destruct o as [v|e]; simpl.
  - destruct (truthy v) eqn:Hv.
    + destruct (_ || _); (split; [done|]);
        repeat (apply Forall_cons; split; [simpl; by rewrite ?Hv, ?app_nil_r|]);
        apply Forall_nil_2.
    + split; [done|].
      repeat (apply Forall_cons; split; [simpl; by rewrite ?Hv, ?app_nil_r|]);
        apply Forall_nil_2.
  - split; [done|].
    repeat (apply Forall_cons; split; [simpl; by rewrite ?app_nil_r|]);
      apply Forall_nil_2.
Qed.

Ltac appends :=
  split; [done|];
  repeat (apply Forall_cons; split; [intros ? ?; reflexivity|]); apply Forall_nil_2.

Ltac fills_step :=
  eapply fills_bind; [apply gated_fills; appends|intros ?].

Lemma daily_step_fills self st :
  logs (daily_step w self st)
    (fun r n => when_ok r
       (fun st' => filled_from dh_metadata daily_series st.2 n st'.2)).
Proof.
  destruct st as [[current day_counter] h]. unfold daily_step. cbn [snd].
  eapply fills_bind with (fa := fun h => h).
  - destruct (_ =? _); [|apply logs_ret, filled_from_refl].
    unfold daily_day. apply fills_print with (fb := fun h => h).
    eapply fills_bind with (fa := fun h => h); [apply daily_summary_fills|intros ?].
    do 3 (eapply fills_bind with (fa := fun h => h);
          [apply gated_fills; appends|intros ?]).
    apply gated_fills; appends.
  - intros h'. by apply fills_date_add.
Qed.

Lemma fitness_step_fills self st :
  logs (fitness_step w self st)
    (fun r n => when_ok r
       (fun st' => filled_from fm_metadata fitness_series st.2 n st'.2)).
Proof.
  destruct st as [current f]. unfold fitness_step. cbn [snd].
  do 4 (eapply fills_bind with (fa := fun f => f);
        [apply gated_fills; appends|intros ?]).
  by apply fills_date_add.
Qed.

Lemma specialized_step_fills self st :
  logs (specialized_step w self st)
    (fun r n => when_ok r
       (fun st' => filled_from sh_metadata specialized_series st.2 n st'.2)).
Proof.
  destruct st as [current x]. unfold specialized_step. cbn [snd].
  do 3 (eapply fills_bind with (fa := fun x => x);
        [apply gated_fills; appends|intros ?]).
  by apply fills_date_add.
Qed.

Ltac as_logs :=
  match goal with
  | |- exists new, calls (?m ?s0).2 = _ /\ when_ok _ (@?P new) =>
      let Hl := fresh "Hl" in
      cut (logs m (fun r new => when_ok r (P new)));
      [intros Hl; exact (Hl s0)|]
  end.

Ltac series_of_table Hs :=
  repeat (let Hseries := fresh "Hseries" in
          apply Forall_cons in Hs as [Hseries Hs]; simpl in Hseries);
  repeat split; done.

(** The series of a run of the daily health collector. *)
Lemma daily_run_fills self days_back s :
  let end_date := dt_date (clock w (ticks s)) in
  let final := export_daily_health_metrics w self days_back s in
  exists new,
    calls final.2 = calls s ++ new
    /\ when_ok final.1 (fun h =>
         dh_metadata h
         = {| period_start := end_date - days_back; period_end := end_date;
              sampling_strategy := "every_2nd_day" |}
         /\ daily_filled new h).
Proof.
  intros end_date final. subst final. unfold export_daily_health_metrics.
  rewrite now_then. fold end_date.
  set (s' := {| stdout := _ |}). change (calls s) with (calls s').
  as_logs. clear s'. apply logs_date_add_then; [|done].
  rewrite Z.add_opp_r. set (start_date := end_date - days_back).
  cbv zeta. set (h0 := {| dh_metadata := _ |}).
  eapply logs_weaken;
    [eapply fills_bind with (meta := dh_metadata) (table := daily_series)
       (h := h0) (fa := fun st : Z * Z * DailyHealth => st.2) (fb := fun h => h)|].
  - apply (fills_while dh_metadata daily_series
             (fun st : Z * Z * DailyHealth => st.2) _ _ (daily_step_fills self)).
  - intros st. apply logs_ret, filled_from_refl.
  - intros [h|e] new; [|done]. simpl. intros [Hm Hs]. split; [done|].
    unfold daily_filled. series_of_table Hs.
Qed.

(** X7.  When the daily health collector returns, each of its five
    series holds exactly the true results of its operation, in the order
    of the calls: one sample point, dated as the call, for every call that
    returned a true value, and nothing for a call that failed or returned
    an empty value.  The metadata give the range and the sampling
    strategy. *)
Theorem daily_series_hold_the_true_results self days_back s :
  let end_date := dt_date (clock w (ticks s)) in
  let final := export_daily_health_metrics w self days_back s in
  exists new,
    calls final.2 = calls s ++ new
    /\ when_ok final.1 (fun h =>
         dh_metadata h
         = {| period_start := end_date - days_back; period_end := end_date;
              sampling_strategy := "every_2nd_day" |}
         /\ daily_filled new h).
Proof. apply daily_run_fills. Qed.

(** The series of a run of the fitness collector. *)
Lemma fitness_run_fills self days_back s :
  let end_date := dt_date (clock w (ticks s)) in
  let final := export_fitness_metrics w self days_back s in
  exists new,
    calls final.2 = calls s ++ new
    /\ when_ok final.1 (fun f =>
         fm_metadata f
         = {| period_start := end_date - days_back; period_end := end_date;
              sampling_strategy := "weekly" |}
         /\ fitness_filled new f).
Proof.
  intros end_date final. subst final. unfold export_fitness_metrics.
  rewrite now_then. fold end_date.
  set (s' := {| stdout := _ |}). change (calls s) with (calls s').
  as_logs. clear s'. apply logs_date_add_then; [|done].
  rewrite Z.add_opp_r. set (start_date := end_date - days_back).
  cbv zeta. set (f0 := {| fm_metadata := _ |}).
  eapply logs_weaken;
    [eapply fills_bind with (meta := fm_metadata) (table := fitness_series)
       (h := f0) (fa := fun st : Z * Fitness => st.2) (fb := fun f => f)|].
  - apply (fills_while fm_metadata fitness_series
             (fun st : Z * Fitness => st.2) _ _ (fitness_step_fills self)).
  - intros st. destruct (available self "get_weigh_ins");
      [|apply logs_ret, filled_from_refl].
    apply logs_try with
      (Φ1 := fun r n => match r with
                        | Ok f => filled_from fm_metadata fitness_series st.2 n f
                        | Raise _ => n = []
                        end)
      (Φ2 := fun _ r n => n = [] /\ r = Ok st.2).
    + apply logs_attr_call; [|done]. intros o. apply logs_ret.
      apply filled_from_other; [done|done|].
      repeat (apply Forall_cons; split; [done|]). apply Forall_nil_2.
    + intros _. by apply logs_ret.
    + by intros f n.
    + intros e n1 r n2 -> [-> ->]. apply filled_from_refl.
  - intros [f|e] new; [|done]. simpl. intros [Hm Hs]. split; [done|].
    unfold fitness_filled. series_of_table Hs.
Qed.

(** X8.  When the fitness collector returns, each of its four series
    holds exactly the true results of its operation, in the order of the
    calls; the call for the weigh-ins of the whole period adds no sample
    point.  The metadata give the range and the sampling strategy. *)
Theorem fitness_series_hold_the_true_results self days_back s :
  let end_date := dt_date (clock w (ticks s)) in
  let final := export_fitness_metrics w self days_back s in
  exists new,
    calls final.2 = calls s ++ new
    /\ when_ok final.1 (fun f =>
         fm_metadata f
         = {| period_start := end_date - days_back; period_end := end_date;
              sampling_strategy := "weekly" |}
         /\ fitness_filled new f).
Proof. apply fitness_run_fills. Qed.

(** The series of a run of the specialized health collector. *)
Lemma specialized_run_fills self days_back s :
  let end_date := dt_date (clock w (ticks s)) in
  let final := export_specialized_health w self days_back s in
  exists new,
    calls final.2 = calls s ++ new
    /\ when_ok final.1 (fun x =>
         sh_metadata x
         = {| period_start := end_date - days_back; period_end := end_date;
              sampling_strategy := "weekly" |}
         /\ specialized_filled new x).
Proof.
  intros end_date final. subst final. unfold export_specialized_health.
  rewrite now_then. fold end_date.
  set (s' := {| stdout := _ |}). change (calls s) with (calls s').
  as_logs. clear s'. apply logs_date_add_then; [|done].
  rewrite Z.add_opp_r. set (start_date := end_date - days_back).
  cbv zeta. set (x0 := {| sh_metadata := _ |}).
  eapply logs_weaken;
    [eapply fills_bind with (meta := sh_metadata) (table := specialized_series)
       (h := x0) (fa := fun st : Z * Specialized => st.2) (fb := fun x => x)|].
  - apply (fills_while sh_metadata specialized_series
             (fun st : Z * Specialized => st.2) _ _ (specialized_step_fills self)).
  - intros st. eapply fills_bind with (fa := fun x => x).
    + destruct (available self "get_menstrual_calendar_data");
        [|apply logs_ret, filled_from_refl].
      apply logs_attr_call; [|done]. intros o. apply logs_ret.
      apply filled_from_other; [done|done|].
      repeat (apply Forall_cons; split; [done|]). apply Forall_nil_2.
    + intros x. destruct (available self "get_pregnancy_summary");
        [|apply logs_ret, filled_from_refl].
      apply logs_attr_call; [|done]. intros o. apply logs_ret.
      apply filled_from_other; [done|done|].
      repeat (apply Forall_cons; split; [done|]). apply Forall_nil_2.
  - intros [x|e] new; [|done]. simpl. intros [Hm Hs]. split; [done|].
    unfold specialized_filled. series_of_table Hs.
Qed.

(** X9.  When the specialized health collector returns, each of its
    three series holds exactly the true results of its operation, in the
    order of the calls; the two calls for the whole period add no sample
    point.  The metadata give the range and the sampling strategy. *)
Theorem specialized_series_hold_the_true_results self days_back s :
  let end_date := dt_date (clock w (ticks s)) in
  let final := export_specialized_health w self days_back s in
  exists new,
    calls final.2 = calls s ++ new
    /\ when_ok final.1 (fun x =>
         sh_metadata x
         = {| period_start := end_date - days_back; period_end := end_date;
              sampling_strategy := "weekly" |}
         /\ specialized_filled new x).
Proof. apply specialized_run_fills. Qed.

End Provenance.

(** ** Order of the sample points *)

Section Ordering.

Variable w : World.

Lemma sublist_lookup_lt {A} (l1 l2 : list A) :
  l1 `sublist_of` l2 ->
  forall i j a b, (i < j)%nat -> l1 !! i = Some a -> l1 !! j = Some b ->
    exists i' j', (i' < j')%nat /\ l2 !! i' = Some a /\ l2 !! j' = Some b.
Proof.
  induction 1 as [|x l1 l2 Hsub IH|x l1 l2 Hsub IH]; intros i j a b Hlt Hi Hj.
  - done.
  - destruct j as [|j]; [lia|]. destruct i as [|i]; simpl in *.
    + injection Hi as ->.
      assert (b ∈ l2) as Hb by (eapply elem_of_sublist; [by eapply list_elem_of_lookup_2|done]).
      apply list_elem_of_lookup_1 in Hb as [j' Hj'].
      exists 0%nat, (S j'). split; [lia|]. by split.
    + destruct (IH i j a b) as (i' & j' & ? & ? & ?); [lia|done|done|].
      exists (S i'), (S j'). split; [lia|]. by split.
  - destruct (IH i j a b) as (i' & j' & ? & ? & ?); [lia|done|done|].
    exists (S i'), (S j'). split; [lia|]. by split.
Qed.

Lemma strided_lookup k start dates :
  strided k start dates ->
  forall i d, dates !! i = Some d -> d = start + k * Z.of_nat i.
Proof.
  intros [Hfirst Hnext]. induction i as [|i IH]; intros d Hd.
  - rewrite (Hfirst d Hd). lia.
  - destruct (dates !! i) as [c|] eqn:Hc.
    + rewrite (Hnext i c d Hc Hd), (IH c eq_refl). lia.
    + apply lookup_ge_None in Hc. apply lookup_lt_Some in Hd. lia.
Qed.

Lemma points_dates_sublist name new :
  (date <$> points_of name new) `sublist_of` dates_of name (call <$> new).
Proof.
  induction new as [|r new IH]; [done|].
  change (r :: new) with ([r] ++ new).
  rewrite points_of_app, !fmap_app, dates_of_app.
  apply sublist_app; [|done].
  destruct r as [[f a] o]. unfold points_of, dates_of. simpl.
  rewrite (String.eqb_sym f name). destruct (String.eqb name f); [|done].
  destruct a as [|[d|v] [|? ?]]; try done.
  destruct o as [v|e]; simpl; [|by apply sublist_cons].
  destruct (truthy v); simpl; [done|by apply sublist_cons].
Qed.

Lemma points_ascending k start name new :
  0 < k -> strided k start (dates_of name (call <$> new)) ->
  ascending k (points_of name new).
Proof.
  intros Hk Hstrided i j p q Hlt Hp Hq.
  destruct (sublist_lookup_lt _ _ (points_dates_sublist name new) i j (date p) (date q))
    as (i' & j' & Hlt' & Hi' & Hj'); [done|by rewrite list_lookup_fmap, Hp
                                      |by rewrite list_lookup_fmap, Hq|].
  apply (strided_lookup _ _ _ Hstrided) in Hi', Hj'.
  exists (Z.of_nat j' - Z.of_nat i'). split; [lia|]. rewrite Hj', Hi'. lia.
Qed.

(** X10.  In every fragment that a date-strided collector returns, the
    sample points of each series are in the order of their dates, with
    no date twice: a point that comes later in a series is dated a
    positive multiple of the stride (2 days for daily health, 7 days for
    fitness and specialized health) after every point before it. *)
Theorem series_ascend_by_the_stride self days_back s :
  when_ok (export_daily_health_metrics w self days_back s).1
    (fun h => Forall (fun ns => ascending 2 (ns.2 h)) daily_series)
  /\ when_ok (export_fitness_metrics w self days_back s).1
       (fun f => Forall (fun ns => ascending 7 (ns.2 f)) fitness_series)
  /\ when_ok (export_specialized_health w self days_back s).1
       (fun x => Forall (fun ns => ascending 7 (ns.2 x)) specialized_series).
Proof.
  split; [|split].
  - destruct (daily_run_fills w self days_back s) as (new & Hcalls & Hfill).
    destruct (export_daily_health_metrics w self days_back s).1 as [h|e]; [|done].
    simpl in *. destruct Hfill as (_ & H1 & H2 & H3 & H4 & H5).
    assert (forall name, ascending 2 (points_of name new)) as Hasc.
    { intros name.
      destruct (daily_sampled w self days_back name s) as (new' & Hcalls' & Hs & _).
      rewrite Hcalls in Hcalls'. apply app_inv_head in Hcalls' as <-.
      by eapply points_ascending. }
    repeat (apply Forall_cons;
            split; [simpl; by first [rewrite H1|rewrite H2|rewrite H3|rewrite H4
                                    |rewrite H5]|]).
    apply Forall_nil_2.
  - destruct (fitness_run_fills w self days_back s) as (new & Hcalls & Hfill).
    destruct (export_fitness_metrics w self days_back s).1 as [f|e]; [|done].
    simpl in *. destruct Hfill as (_ & H1 & H2 & H3 & H4).
    assert (forall name, ascending 7 (points_of name new)) as Hasc.
    { intros name.
      destruct (fitness_sampled w self days_back name s) as (new' & Hcalls' & Hs & _).
      rewrite Hcalls in Hcalls'. apply app_inv_head in Hcalls' as <-.
      by eapply points_ascending. }
    repeat (apply Forall_cons;
            split; [simpl; by first [rewrite H1|rewrite H2|rewrite H3|rewrite H4]|]).
    apply Forall_nil_2.
  - destruct (specialized_run_fills w self days_back s) as (new & Hcalls & Hfill).
    destruct (export_specialized_health w self days_back s).1 as [x|e]; [|done].
    simpl in *. destruct Hfill as (_ & H1 & H2 & H3).
    assert (forall name, ascending 7 (points_of name new)) as Hasc.
    { intros name.
      destruct (specialized_sampled w self days_back name s)
        as (new' & Hcalls' & Hs & _).
      rewrite Hcalls in Hcalls'. apply app_inv_head in Hcalls' as <-.
      by eapply points_ascending. }
    repeat (apply Forall_cons;
            split; [simpl; by first [rewrite H1|rewrite H2|rewrite H3]|]).
    apply Forall_nil_2.
Qed.

End Ordering.

(** ** Number of calls *)

Section CallBudget.

Variable w : World.

Lemma strided_length_le k start end_date dates :
  0 < k -> strided k start dates ->
  Forall (fun d => start <= d <= end_date) dates ->
  (length dates <= Z.to_nat ((end_date - start) / k + 1))%nat.
Proof.
  intros Hk Hstrided Hrange.
  destruct (length dates) as [|n] eqn:Hlen; [lia|].
  destruct (lookup_lt_is_Some_2 dates n) as [d Hd]; [lia|].
  pose proof (strided_lookup _ _ _ Hstrided n d Hd) as Heq.
  rewrite Forall_forall in Hrange.
  pose proof (Hrange d (list_elem_of_lookup_2 _ _ _ Hd)) as [_ Hle].
  assert (Z.of_nat n <= (end_date - start) / k).
  { apply Z.div_le_lower_bound; lia. }
  lia.
Qed.

Lemma strided_length k start end_date dates :
  0 < k -> strided k start dates ->
  Forall (fun d => start <= d <= end_date) dates ->
  covers k start end_date dates ->
  length dates = Z.to_nat ((end_date - start) / k + 1).
Proof.
  intros Hk Hstrided Hrange Hcovers.
  pose proof (strided_length_le _ _ _ _ Hk Hstrided Hrange) as Hle.
  destruct (decide (start <= end_date)) as [Hse|Hse].
  - set (j := (end_date - start) / k).
    assert (0 <= j) by (apply Z.div_pos; lia).
    assert (k * j <= end_date - start) by (apply Z.mul_div_le; lia).
    destruct (list_elem_of_lookup_1 _ _ (Hcovers j ltac:(lia) ltac:(lia))) as [i Hi].
    pose proof (strided_lookup _ _ _ Hstrided i _ Hi) as Heq.
    apply lookup_lt_Some in Hi. fold j in Hle. nia.
  - assert ((end_date - start) / k < 0) by (apply Z.div_lt_upper_bound; lia).
    lia.
Qed.

Lemma sampled_counted k ops days_back start end_date returned new :
  0 < k -> end_date - start = days_back ->
  (forall name, sampled_every k ops name start end_date returned new) ->
  called_once_per_date k days_back ops returned new.
Proof.
  intros Hk <- Hsampled. split.
  - intros name. destruct (Hsampled name) as (Hs & Hr & _).
    by eapply strided_length_le.
  - destruct returned; [|done]. apply Forall_forall. intros name Hin.
    destruct (Hsampled name) as (Hs & Hr & Hc).
    eapply strided_length; eauto.
Qed.

Ltac same_run Hcalls Hcalls' :=
  rewrite Hcalls in Hcalls'; apply app_inv_head in Hcalls' as <-.

(** X11.  A run over [days_back] days calls no operation for more dates
    than the loop retains, [days_back / 2 + 1] for daily health and
    [days_back / 7 + 1] for fitness and specialized health (none when
    [days_back] is negative); when the collector returns, each operation
    it uses per date has been called for exactly that many dates. *)
Theorem every_retained_date_costs_one_call self days_back s :
  let daily := export_daily_health_metrics w self days_back s in
  let fitness := export_fitness_metrics w self days_back s in
  let specialized := export_specialized_health w self days_back s in
  (exists new, calls daily.2 = calls s ++ new
     /\ called_once_per_date 2 days_back (daily_operations self)
          (is_ok daily.1) new)
  /\ (exists new, calls fitness.2 = calls s ++ new
       /\ called_once_per_date 7 days_back (fitness_operations self)
            (is_ok fitness.1) new)
  /\ (exists new, calls specialized.2 = calls s ++ new
       /\ called_once_per_date 7 days_back (specialized_operations self)
            (is_ok specialized.1) new).
Proof.
  intros daily fitness specialized. split; [|split].
  - destruct (daily_sampled w self days_back "" s) as (new & Hcalls & _).
    exists new. split; [done|].
    apply sampled_counted with (start := dt_date (clock w (ticks s)) - days_back)
                               (end_date := dt_date (clock w (ticks s)));
      [lia|lia|].
    intros name.
    destruct (daily_sampled w self days_back name s) as (new' & Hcalls' & Hs).
    by same_run Hcalls Hcalls'.
  - destruct (fitness_sampled w self days_back "" s) as (new & Hcalls & _).
    exists new. split; [done|].
    apply sampled_counted with (start := dt_date (clock w (ticks s)) - days_back)
                               (end_date := dt_date (clock w (ticks s)));
      [lia|lia|].
    intros name.
    destruct (fitness_sampled w self days_back name s) as (new' & Hcalls' & Hs).
    by same_run Hcalls Hcalls'.
  - destruct (specialized_sampled w self days_back "" s) as (new & Hcalls & _).
    exists new. split; [done|].
    apply sampled_counted with (start := dt_date (clock w (ticks s)) - days_back)
                               (end_date := dt_date (clock w (ticks s)));
      [lia|lia|].
    intros name.
    destruct (specialized_sampled w self days_back name s) as (new' & Hcalls' & Hs).
    by same_run Hcalls Hcalls'.
Qed.

End CallBudget.

(** ** Export driver *)

Section Driver.

Variable w : World.

Lemma print_all_run lines s :
  exists s', print_all lines s = (Ok tt, s')
    /\ calls s' = calls s /\ ticks s' = ticks s /\ files s' = files s.
Proof.
  revert s. induction lines as [|l lines IH]; intros s; simpl.
  - by exists s.
  - unfold bind, print. simpl.
    destruct (IH {| stdout := stdout s ++ [l]; calls := calls s; ticks := ticks s;
                    typed := typed s; files := files s |}) as (s' & -> & ?).
    by exists s'.
Qed.

Lemma report_run filename all_data s :
  exists s', report filename all_data s = (Ok tt, s') /\ files s' = files s.
Proof.
  unfold report. unfold bind at 1, print at 1. cbv beta iota.
  set (s1 := {| stdout := _ |}).
  destruct (print_all_run
              (map (fun name => SectionStatus name true) (section_names all_data)) s1)
    as (s2 & Hrun & _ & _ & Hf).
  rewrite (bind_ok _ _ _ _ _ Hrun). unfold print. eexists. split; [reflexivity|].
  simpl. by rewrite Hf.
Qed.

(** The three ways in which the document is saved, or not. *)
Lemma save_run all_data s :
  let filename := strftime (clock w (ticks s)) in
  let final := save_document w all_data s in
  match final.1 with
  | Ok f =>
      f = filename /\ files final.2 = <[filename := Complete all_data]> (files s)
      /\ open_fault w filename = None /\ dump_fault w all_data = None
  | Raise e =>
      files final.2 = files s
      \/ (files final.2 = <[filename := Partial]> (files s)
          /\ is_Some (dump_fault w all_data))
  end.
Proof.
  intros filename. unfold save_document, open_for_writing, json_dump, set_file,
    bind, now, ret, raise. simpl. fold filename.
  destruct (open_fault w filename); simpl; [by left|].
  destruct (dump_fault w all_data); simpl; [right; by split|].
  by rewrite insert_insert_eq.
Qed.

Lemma collected_sections self days_back :
  returns (collect_sections w self days_back)
    (fun all_data => section_names all_data = all_sections).
Proof.
  unfold collect_sections.
  do 6 (eapply returns_bind; [apply returns_any|intros ? _]).
  by apply returns_ret.
Qed.

(** The run of the driver past an accepted login. *)
Lemma driver_past_login self days_back s self' s1 :
  authenticate w self s = (Ok (self', true), s1) ->
  files s1 = files s ->
  exists result s',
    export_complete_dataset w self days_back s = (Ok (self', result), s')
    /\ written w (files s) (files s') result.
Proof.
  intros Hauth Hf1.
  rewrite (driver_after_authentication w _ _ _ _ _ Hauth).
  set (s2 := (print (Banner days_back) s1).2).
  assert (files s2 = files s) as Hf2 by done.
  unfold try_except.
  pose proof (collect_sections_keeps_files w self' days_back s2) as Hkeep.
  pose proof (collected_sections self' days_back s2) as Hnames.
  destruct (collect_sections w self' days_back s2) as [[all_data|e] s3] eqn:Hcollect.
  - rewrite (bind_ok _ _ _ _ _ Hcollect).
    pose proof (save_run all_data s3) as Hsave.
    destruct (save_document w all_data s3) as [[f|e] s4] eqn:Hs.
    + rewrite (bind_ok _ _ _ _ _ Hs).
      destruct (report_run f all_data s4) as (s5 & Hrep & Hf5).
      rewrite (bind_ok _ _ _ _ _ Hrep). unfold ret.
      eexists _, _. split; [reflexivity|].
      simpl in *. destruct Hsave as (-> & Hfiles & Hopen & Hdump).
      exists all_data. rewrite Hf5, Hfiles, Hkeep, Hf2.
      split; [done|]. split; [by apply Hnames|]. by split.
    + rewrite (bind_raise _ _ _ _ _ Hs). unfold bind, print, ret.
      eexists _, _. split; [reflexivity|].
      simpl in *. rewrite Hkeep, Hf2 in Hsave.
      destruct Hsave as [Hsame|[Hpartial Hfault]]; [by left|].
      right. by eexists _, all_data.
  - rewrite (bind_raise _ _ _ _ _ Hcollect). unfold bind, print, ret.
    eexists _, _. split; [reflexivity|].
    simpl in *. left. congruence.
Qed.

(** X12.  [export_complete_dataset] raises only when [authenticate]
    does, which it calls outside its [try]: with what a prompt for a
    missing credential raises ([EOFError] at the end of the input), and
    then no client operation has been called and no file touched.
    Otherwise it answers a file name or [False].  A file name is answered
    only after that file has been written with the whole document, which
    has all six sections, the rest of the working directory being as it
    was; with [False] the working directory is as it was, unless
    [json.dump] failed and left the file it had begun.  When no login is
    accepted the answer is [False] and no client operation has been
    called. *)
Theorem export_answers_unless_the_input_ends self days_back s :
  exists s',
    match login_outcome w self s with
    | Raise e =>
        export_complete_dataset w self days_back s = (Raise e, s')
        /\ raised_at_a_prompt w e /\ calls s' = calls s /\ files s' = files s
    | Ok accepted =>
        exists self' result,
          export_complete_dataset w self days_back s = (Ok (self', result), s')
          /\ written w (files s) (files s') result
          /\ (if accepted then True
              else result = ReturnFalse /\ calls s' = calls s)
    end.
Proof.
  destruct (authenticate_run w self s) as (s1 & Hc1 & _ & Hf1 & Hauth).
  destruct (login_outcome w self s) as [[|]|e].
  - destruct Hauth as (self' & Hauth & _).
    destruct (driver_past_login self days_back s self' s1 Hauth Hf1)
      as (result & s' & Hrun & Hwritten).
    exists s', self', result. by split.
  - destruct Hauth as (self' & Hauth & _).
    exists s1, self', ReturnFalse.
    unfold export_complete_dataset. rewrite (bind_ok _ _ _ _ _ Hauth).
    split; [reflexivity|]. split; [by left|done].
  - destruct Hauth as [Hauth Hprompt]. exists s1.
    unfold export_complete_dataset. by rewrite (bind_raise _ _ _ _ _ Hauth).
Qed.

End Driver.

(** ** Graceful degradation *)

Section Degradation.

Variable w : World.
Variable self : Exporter.
Variable days_back : Z.

Hypothesis logged_in : client self = true.
Hypothesis sound_capabilities : forall name,
  name ∈ methods_to_check -> available self name = true -> has_attr w name = true.
Hypothesis base_client : forall name,
  name ∈ always_attempted -> has_attr w name = true.
Hypothesis listing : forall history,
  listing_can_run w (result_of (respond w history listing_call)) = true.
Hypothesis fitting : dates_fit w days_back.

Lemma total_weaken {A} (m : M A) (P Q : A -> Prop) :
  total m P -> (forall a, P a -> Q a) -> total m Q.
Proof. intros Hm HPQ s. destruct (Hm s) as (a & ? & ?). eauto. Qed.

Lemma total_now : total (now w) (fun t => exists n, t = clock w n).
Proof. intros s. eexists. split; [reflexivity|]. by eexists. Qed.

Lemma call_returns {B} name args (k : PyVal -> M B) (Q : B -> Prop) :
  has_attr w name = true ->
  (forall v, total (k v) Q) ->
  total (do f <- client_attr w self name; do v <- safe_call w f args; k v) Q.
Proof.
  intros Hattr Hk s. unfold client_attr.
  rewrite logged_in, Hattr. unfold bind at 1, ret at 1.
  destruct (safe_call_run w name args s) as (s1 & Hrun & _).
  rewrite (bind_ok _ _ _ _ _ Hrun). apply Hk.
Qed.

Lemma gated_returns {H} name d (append : SamplePoint -> H -> H) h :
  name ∈ methods_to_check ->
  total (gated w self name d append h) (fun _ => True).
Proof.
  intros Hin. unfold gated.
  destruct (available self name) eqn:Hav; [|by apply total_ret].
  apply call_returns; [by apply sound_capabilities|].
  intros v. by apply total_ret.
Qed.

Ltac listed := apply (bool_decide_unpack _); by vm_compute.

Ltac returns_step :=
  first
    [ apply total_ret; done
    | eapply total_bind; [apply gated_returns; listed|intros ? _]
    | eapply total_bind; [apply total_print|intros ? _]
    | apply call_returns; [apply base_client; listed|intros ?] ].

Lemma profile_returns : total (export_user_profile w self) (fun _ => True).
Proof.
  unfold export_user_profile. returns_step.
  eapply total_bind; [apply total_now|intros t _].
  do 4 returns_step. by apply total_ret.
Qed.

(** A listing that the activities collector has got past has a length
    whenever it is true. *)
Lemma listing_has_len limit :
  returns (export_activities w self limit)
    (fun a => truthy (all_activities a) = true -> has_len (all_activities a) = true).
Proof.
  unfold export_activities.
  do 2 (eapply returns_bind; [apply returns_any|intros ? _]).
  eapply returns_bind; [apply returns_any|intros activities_list _].
  do 3 (eapply returns_bind; [apply returns_any|intros ? _]).
  eapply returns_bind with
    (P := fun _ => truthy activities_list = true -> has_len activities_list = true).
  - intros s count. destruct (truthy activities_list); [|done].
    by destruct activities_list.
  - intros count Hlen. by apply returns_ret.
Qed.

Lemma activities_returns :
  total (export_activities w self 300)
    (fun a => truthy (all_activities a) = true -> has_len (all_activities a) = true).
Proof.
  intros s. pose proof (activities_run_ok w self 300 s) as Hok. cbv zeta in Hok.
  fold listing_call in Hok.
  rewrite logged_in, listing, !base_client in Hok by listed.
  destruct (export_activities w self 300 s).1 as [a|e] eqn:Hrun; [|done].
  exists a. split; [done|]. by eapply listing_has_len.
Qed.

Lemma daily_returns :
  total (export_daily_health_metrics w self days_back) (fun _ => True).
Proof.
  unfold export_daily_health_metrics. returns_step.
  eapply total_bind; [apply total_now|intros t [n ->]].
  destruct (fitting n) as [Hstart Hend].
  eapply total_bind; [apply total_date_add; lia|intros start ->].
  eapply total_bind; [|intros st _; by apply total_ret].
  apply total_while with (Inv := fun st => date_min <= st.1.1); [|simpl; lia].
  intros [[current day] h] Hinv Hc. simpl in *. apply Z.leb_le in Hc.
  unfold daily_step.
  eapply total_bind with (P := fun _ => True).
  - destruct (_ =? _); [|by apply total_ret].
    unfold daily_day. returns_step.
    eapply total_bind with (P := fun _ => True).
    { unfold daily_summary. returns_step. by apply total_ret. }
    intros h1 _. do 3 returns_step. apply gated_returns. listed.
  - intros h' _. eapply total_bind; [apply total_date_add; lia|intros c ->].
    apply total_ret. simpl. lia.
Qed.

Lemma fitness_returns :
  total (export_fitness_metrics w self days_back) (fun _ => True).
Proof.
  unfold export_fitness_metrics. returns_step.
  eapply total_bind; [apply total_now|intros t [n ->]].
  destruct (fitting n) as [Hstart Hend].
  eapply total_bind; [apply total_date_add; lia|intros start ->].
  eapply total_bind with (P := fun _ => True).
  - apply total_while with (Inv := fun st => date_min <= st.1); [|simpl; lia].
    intros [current f] Hinv Hc. simpl in *. apply Z.leb_le in Hc.
    unfold fitness_step. do 4 returns_step.
    eapply total_bind; [apply total_date_add; lia|intros c ->].
    apply total_ret. simpl. lia.
  - intros st _. destruct (available self "get_weigh_ins") eqn:Hav;
      [|by apply total_ret].
    apply total_try. apply call_returns; [apply sound_capabilities; [listed|done]|].
    intros v. by apply total_ret.
Qed.

Lemma specialized_returns :
  total (export_specialized_health w self days_back) (fun _ => True).
Proof.
  unfold export_specialized_health. returns_step.
  eapply total_bind; [apply total_now|intros t [n ->]].
  destruct (fitting n) as [Hstart Hend].
  eapply total_bind; [apply total_date_add; lia|intros start ->].
  eapply total_bind with (P := fun _ => True).
  - apply total_while with (Inv := fun st => date_min <= st.1); [|simpl; lia].
    intros [current x] Hinv Hc. simpl in *. apply Z.leb_le in Hc.
    unfold specialized_step. do 3 returns_step.
    eapply total_bind; [apply total_date_add; lia|intros c ->].
    apply total_ret. simpl. lia.
  - intros st _. eapply total_bind with (P := fun _ => True).
    + destruct (available self "get_menstrual_calendar_data") eqn:Hav;
        [|by apply total_ret].
      apply call_returns; [apply sound_capabilities; [listed|done]|].
      intros v. by apply total_ret.
    + intros x _. destruct (available self "get_pregnancy_summary") eqn:Hav;
        [|by apply total_ret].
      apply call_returns; [apply sound_capabilities; [listed|done]|].
      intros v. by apply total_ret.
Qed.

(** The synthesizer returns on a document whose listing of activities
    has a length when it is true. *)
Lemma synthesizer_returns all_data :
  (forall a, doc_activities all_data = Some a ->
     truthy (all_activities a) = true -> has_len (all_activities a) = true) ->
  total (create_llm_analysis_context w all_data) (fun _ => True).
Proof.
  intros Hlen. unfold create_llm_analysis_context.
  eapply total_bind; [apply total_now|intros t _].
  eapply total_bind with (P := fun _ => True); [|intros c _; by apply total_ret].
  unfold note_activities.
  destruct (doc_activities all_data) as [a|] eqn:Ha; [|by apply total_ret].
  destruct (truthy (all_activities a)) eqn:Htrue; [|by apply total_ret].
  specialize (Hlen a eq_refl Htrue).
  destruct (all_activities a); try done; unfold py_len;
    (eapply total_bind with (P := fun _ => True);
     [by apply total_ret|intros ? _; by apply total_ret]).
Qed.

Lemma collect_returns :
  total (collect_sections w self days_back) (fun _ => True).
Proof.
  unfold collect_sections.
  eapply total_bind; [apply profile_returns|intros p _].
  eapply total_bind; [apply activities_returns|intros a Ha].
  eapply total_bind; [apply daily_returns|intros h _].
  eapply total_bind; [apply fitness_returns|intros f _].
  eapply total_bind; [apply specialized_returns|intros x _].
  eapply total_bind; [|intros c _; by apply total_ret].
  apply synthesizer_returns. simpl. by intros ? [= <-].
Qed.

End Degradation.

(** X13.  Failing calls never abort the export.  After an accepted login,
    with a client that has the eight operations that are called without
    asking the capability set, a listing of activities that is nothing or
    a list of dicts, dates that a [date] can hold and a file that can be
    written, [export_complete_dataset] writes the whole document and
    answers its file name, whatever each of the calls answers or raises. *)
Theorem export_survives_failing_calls w self days_back s self' s1 :
  authenticate w self s = (Ok (self', true), s1) ->
  (forall name, name ∈ always_attempted -> has_attr w name = true) ->
  (forall history,
     listing_can_run w (result_of (respond w history listing_call)) = true) ->
  dates_fit w days_back ->
  (forall filename, open_fault w filename = None) ->
  (forall all_data, dump_fault w all_data = None) ->
  exists filename all_data s',
    export_complete_dataset w self days_back s
    = (Ok (self', ReturnFilename filename), s')
    /\ files s' = <[filename := Complete all_data]> (files s)
    /\ section_names all_data = all_sections.
Proof.
  intros Hauth Hbase Hlisting Hdates Hopen Hdump.
  destruct (authenticated_capabilities w self s self' s1 Hauth) as (Hcl & Hf1 & Hav).
  assert (forall name, name ∈ methods_to_check ->
            available self' name = true -> has_attr w name = true) as Hsound.
  { intros name Hin. by rewrite (Hav name Hin). }
  destruct (driver_past_login w self days_back s self' s1 Hauth Hf1)
    as (result & s' & Hdriver & Hwritten).
  pose proof Hdriver as Hdriver'.
  rewrite (driver_after_authentication w _ _ _ _ _ Hauth) in Hdriver'.
  set (s2 := (print (Banner days_back) s1).2) in Hdriver'.
  unfold try_except in Hdriver'.
  destruct (collect_returns w self' days_back Hcl Hsound Hbase Hlisting Hdates s2)
    as (all_data & Hcollect & _).
  destruct (collect_sections w self' days_back s2) as [r s3] eqn:Hc.
  simpl in Hcollect. subst r. rewrite (bind_ok _ _ _ _ _ Hc) in Hdriver'.
  pose proof (save_run w all_data s3) as Hsave. cbv zeta in Hsave.
  destruct (save_document w all_data s3) as [[f|e] s4] eqn:Hs; simpl in Hsave.
  - rewrite (bind_ok _ _ _ _ _ Hs) in Hdriver'.
    destruct (report_run f all_data s4) as (s5 & Hrep & _).
    rewrite (bind_ok _ _ _ _ _ Hrep) in Hdriver'. unfold ret in Hdriver'.
    injection Hdriver' as <- <-.
    destruct Hwritten as (doc & Hfiles & Hnames & _).
    by exists f, doc, s5.
  - exfalso. destruct Hsave as [Hsame|[_ [e' He']]].
    + revert Hs. unfold save_document, open_for_writing, json_dump, set_file,
        bind, now, ret, raise. simpl. by rewrite Hopen, Hdump.
    + by rewrite Hdump in He'.
Qed.

(** Every call of the client fails with "not found", and the export of
    three weeks still ends with its file. *)
Lemma export_survives_on_the_missing_client :
  exists filename all_data s',
    export_complete_dataset missing_world (init None None) 21 idle
    = (Ok (authenticated missing_world, ReturnFilename filename), s')
    /\ files s' = <[filename := Complete all_data]> ∅
    /\ section_names all_data = all_sections.
Proof.
  apply (export_survives_failing_calls missing_world (init None None) 21 idle
           (authenticated missing_world)
           (authenticate missing_world (init None None) idle).2).
  - reflexivity.
  - reflexivity.
  - reflexivity.
  - intros n. unfold date_min, date_max. simpl. lia.
  - reflexivity.
  - reflexivity.
Defined.

(** ** The synthesizer on collected activities *)

Section Overview.

Variable w : World.

(** The count in the metadata of a fragment that the activities
    collector returns is the length of its listing. *)
Lemma listing_counted self limit :
  returns (export_activities w self limit)
    (fun a => if truthy (all_activities a)
              then py_len (all_activities a) = ret (actual_count (act_metadata a))
              else actual_count (act_metadata a) = 0%nat).
Proof.
  unfold export_activities.
  do 2 (eapply returns_bind; [apply returns_any|intros ? _]).
  eapply returns_bind; [apply returns_any|intros activities_list _].
  do 3 (eapply returns_bind; [apply returns_any|intros ? _]).
  eapply returns_bind with
    (P := fun count => if truthy activities_list
                       then py_len activities_list = ret count else count = 0%nat).
  - intros s count. destruct (truthy activities_list).
    + destruct activities_list; simpl; try done; by intros [= <-].
    + by intros [= <-].
  - intros count Hcount. by apply returns_ret.
Qed.

(** X14.  On a document whose activities are a fragment that the
    activities collector has returned, the context synthesizer returns,
    so that it cannot be what aborts an export; its overview has the one
    entry "activities", with the count of the fragment's metadata, when
    the listing is true, and no entry otherwise. *)
Theorem synthesizer_counts_the_collected_activities
    self limit s a s1 all_data s2 :
  export_activities w self limit s = (Ok a, s1) ->
  doc_activities all_data = Some a ->
  exists c s3,
    create_llm_analysis_context w all_data s2 = (Ok c, s3)
    /\ data_overview c
       = (if truthy (all_activities a)
          then {[ "activities" := ActivitiesRecorded (actual_count (act_metadata a)) ]}
          else ∅)
    /\ data_quality_notes c = []
    /\ analysis_instructions c = analysis_instructions_text.
Proof.
  intros Hrun Hdoc.
  pose proof (listing_counted self limit s a) as Hcount.
  rewrite Hrun in Hcount. specialize (Hcount eq_refl).
  rewrite (synthesizer_runs w all_data s2). cbv zeta.
  set (c0 := {| export_timestamp := _ |}). set (s3 := {| stdout := _ |}).
  assert (exists c, (note_activities all_data c0 s3).1 = Ok c
            /\ data_overview c
               = (if truthy (all_activities a)
                  then {[ "activities"
                          := ActivitiesRecorded (actual_count (act_metadata a)) ]}
                  else ∅)
            /\ data_quality_notes c = []
            /\ analysis_instructions c = analysis_instructions_text)
    as (c & -> & Hover & Hnotes & Htext).
  { unfold note_activities. rewrite Hdoc.
    destruct (truthy (all_activities a)); [|by exists c0].
    rewrite Hcount. eexists. split; [reflexivity|]. by split. }
  eexists _, s3. split; [reflexivity|].
  destruct (note_daily_health_extends all_data c) as [(_ & _ & _ & Hq1 & Hi1) Ho1].
  destruct (note_fitness_extends all_data (note_daily_health all_data c))
    as [(_ & _ & _ & Hq2 & Hi2) Ho2].
  rewrite Ho2, Ho1, Hq2, Hq1, Hi2, Hi1. by split.
Qed.

End Overview.

(** After a listing of three activities the overview counts three. *)
Lemma three_activities_are_counted :
  export_activities listing_world (authenticated listing_world) 300 idle
  = (Ok three_activities,
     (export_activities listing_world (authenticated listing_world) 300 idle).2)
  /\ exists c s3,
       create_llm_analysis_context listing_world
         (update_activities three_activities empty_document) idle
       = (Ok c, s3)
       /\ data_overview c = {[ "activities" := ActivitiesRecorded 3 ]}
       /\ data_quality_notes c = []
       /\ analysis_instructions c = analysis_instructions_text.
Proof.
  split; [reflexivity|].
  exact (synthesizer_counts_the_collected_activities listing_world
           (authenticated listing_world) 300 idle three_activities
           (export_activities listing_world (authenticated listing_world) 300 idle).2
           (update_activities three_activities empty_document) idle
           eq_refl eq_refl).
Defined.

(** ** Classes of faults *)

Section Classes.

Lemma append_cons c (s t : string) : String c s +:+ t = String c (s +:+ t).
Proof. reflexivity. Qed.

Lemma prefix_occurs needle text :
  String.prefix needle text = true <-> exists after, text = needle +:+ after.
Proof.
  revert text. induction needle as [|a needle IH]; intros text.
  - split; [intros _; by exists text|by destruct text].
  - destruct text as [|b text]; simpl.
    + split; [done|]. intros [after Heq]. by rewrite append_cons in Heq.
    + destruct (Ascii.ascii_dec a b) as [->|Hne].
      * rewrite IH. split; intros [after Heq]; exists after;
          rewrite append_cons in *; congruence.
      * split; [done|]. intros [after Heq]. rewrite append_cons in Heq. congruence.
Qed.

Lemma contains_occurs needle text :
  contains needle text = true <-> occurs needle text.
Proof.
  induction text as [|c text IH].
  - cbn [contains]. rewrite orb_false_r, prefix_occurs. split.
    + intros [after Heq]. by exists ""%string, after.
    + intros ([|? ?] & after & Heq); [by exists after|].
      by rewrite append_cons in Heq.
  - cbn [contains]. rewrite orb_true_iff, prefix_occurs, IH. split.
    + intros [[after Heq]|(before & after & Heq)].
      * by exists ""%string, after.
      * exists (String c before), after. by rewrite append_cons, Heq.
    + intros ([|c' before] & after & Heq).
      * left. by exists after.
      * right. exists before, after. rewrite append_cons in Heq. congruence.
Qed.

(** X15.  The class that [safe_call] reports for a fault depends on what
    occurs in the text of the fault as a run of consecutive characters,
    wherever it is: a bad request exactly when "400" occurs, whatever
    else does; not found exactly when "404" occurs and "400" does not;
    invalid parameters exactly when "arguments" occurs and neither
    number does. *)
Theorem fault_classes_follow_the_text text :
  (classify text = BadRequest <-> occurs "400" text)
  /\ (classify text = NotFound <-> ~ occurs "400" text /\ occurs "404" text)
  /\ (classify text = InvalidParameters
      <-> ~ occurs "400" text /\ ~ occurs "404" text /\ occurs "arguments" text).
Proof.
  rewrite <- !contains_occurs. unfold classify.
  destruct (contains "400" text), (contains "404" text), (contains "arguments" text);
    repeat split; try done; intros; try done;
    repeat match goal with H : _ /\ _ |- _ => destruct H end; done.
Qed.

End Classes.

(** ** Order of the calls *)

Section CallOrder.

Variable w : World.

Lemma strided_retained k start end_date dates :
  0 < k -> strided k start dates ->
  Forall (fun d => start <= d <= end_date) dates ->
  covers k start end_date dates ->
  dates = retained_dates k start (end_date - start).
Proof.
  intros Hk Hstrided Hrange Hcovers.
  pose proof (strided_length _ _ _ _ Hk Hstrided Hrange Hcovers) as Hlen.
  fold (retained_count k (end_date - start)) in Hlen.
  apply list_eq. intros i. unfold retained_dates. rewrite list_lookup_fmap.
  destruct (decide (i < length dates)%nat) as [Hi|Hi].
  - destruct (lookup_lt_is_Some_2 dates i Hi) as [d Hd].
    rewrite Hd, (strided_lookup _ _ _ Hstrided i d Hd).
    rewrite lookup_seq_lt by lia. done.
  - rewrite lookup_ge_None_2 by lia.
    rewrite lookup_seq_ge by lia. done.
Qed.

Lemma schedule_every_kth_calls ops k end_date fuel current :
  schedule fuel (fun c => c <=? end_date) (fun c => c + k) (calls_at ops) current
  = flat_map (calls_at ops) (every_kth fuel k current end_date).
Proof.
  revert current. induction fuel as [|fuel IH]; intros current; simpl; [done|].
  destruct (current <=? end_date); [|done]. simpl. by rewrite IH.
Qed.

Lemma schedule_every_other_calls ops end_date fuel current day_counter :
  schedule fuel (fun key => key.1 <=? end_date) (fun key => (key.1 + 1, key.2 + 1))
    (fun key => if key.2 mod 2 =? 0 then calls_at ops key.1 else [])
    (current, day_counter)
  = flat_map (calls_at ops) (every_other fuel current day_counter end_date).
Proof.
  revert current day_counter.
  induction fuel as [|fuel IH]; intros current day_counter; simpl; [done|].
  destruct (current <=? end_date); [|done]. rewrite IH, flat_map_app.
  destruct (_ =? _); simpl; by rewrite ?app_nil_r.
Qed.

Lemma every_kth_retained k start end_date :
  0 < k ->
  every_kth (days_left start end_date) k start end_date
  = retained_dates k start (end_date - start).
Proof.
  intros Hk. apply strided_retained with (end_date := end_date); [done| | |].
  - apply every_kth_strided.
  - apply every_kth_range. lia.
  - by apply every_kth_covers.
Qed.

Lemma every_other_retained start end_date :
  every_other (days_left start end_date) start 0 end_date
  = retained_dates 2 start (end_date - start).
Proof.
  apply strided_retained with (end_date := end_date); [done| | |].
  - apply (every_other_strided _ start 0).
  - apply every_other_range.
  - intros j Hj Hle. apply every_other_covers; [done|lia|].
    replace (start + 2 * j - start + 0) with (j * 2) by lia.
    apply Z_mod_mult.
Qed.

Lemma emits_date_add_then {B} d n (f : Z -> M B) l (Q : B -> Prop) :
  emits_with (f (d + n)) l Q -> emits_with (do x <- date_add d n; f x) l Q.
Proof.
  intros H s. unfold date_add, bind.
  destruct (_ && _); simpl; [apply H|].
  exists []. rewrite app_nil_r. split; [done|apply prefix_nil].
Qed.

(** The call for the weigh-ins, inside its [try]. *)
Lemma weigh_ins_emits self start_date end_date f :
  emits
    (if available self "get_weigh_ins" then
       try_except
         (do g <- client_attr w self "get_weigh_ins";
          do weight_data <- safe_call w g [ADate start_date; ADate end_date];
          ret (set_weight_measurements weight_data f))
         (fun _ => ret f)
     else ret f)
    (whole_period_call
       (available self "get_weigh_ins" && hasattr w self "get_weigh_ins")
       "get_weigh_ins" [ADate start_date; ADate end_date]).
Proof.
  destruct (available self "get_weigh_ins"); [|apply emits_ret].
  intros s. unfold try_except, client_attr, hasattr.
  destruct (client self); [destruct (has_attr w "get_weigh_ins")|];
    try (exists []; by rewrite app_nil_r).
  rewrite (bind_ok (ret "get_weigh_ins") _ s _ s eq_refl).
  destruct (safe_call_run w "get_weigh_ins" [ADate start_date; ADate end_date] s)
    as (s1 & Hrun & Hcalls & _).
  rewrite (bind_ok _ _ _ _ _ Hrun). unfold ret. simpl.
  eexists. split; [exact Hcalls|done].
Qed.

Lemma whole_period_emits self name a (store : PyVal -> Specialized) x :
  emits
    (if available self name then
       do f <- client_attr w self name;
       do v <- safe_call w f a;
       ret (store v)
     else ret x)
    (whole_period_call (available self name) name a).
Proof.
  destruct (available self name); [|apply emits_ret].
  apply emits_attr_call. intros v. by apply emits_with_ret.
Qed.

Ltac as_emits :=
  match goal with
  | |- exists new, calls (?m ?s0).2 = _ /\ follows _ _ ?l =>
      let Hl := fresh "Hl" in
      cut (emits m l);
      [intros Hl; destruct (Hl s0) as (new & Hcalls & Hnew); exists new;
       split; [exact Hcalls|]; unfold follows;
       destruct (m s0).1; [by destruct Hnew|done]
      |]
  end.

(** X16.  The calls of a date-strided collector that returns are, in
    this order: for each retained date in turn, from the start of the
    range upwards by the stride, one call of each per-date operation the
    collector uses, in the order of the source; then the calls for the
    whole period.  Those are the weigh-ins from the start to the end of
    the range, asked for when the capability is available and the client
    has the operation (the missing operation is passed over in silence),
    and for specialized health the menstrual calendar from the start to
    the end of the range and then the pregnancy summary, each when its
    capability is available.  A run that raises has made an initial part
    of these calls. *)
Theorem collectors_call_date_by_date self days_back s :
  let end_date := dt_date (clock w (ticks s)) in
  let start_date := end_date - days_back in
  let daily := export_daily_health_metrics w self days_back s in
  let fitness := export_fitness_metrics w self days_back s in
  let specialized := export_specialized_health w self days_back s in
  (exists new, calls daily.2 = calls s ++ new
     /\ follows daily.1 (call <$> new)
          (flat_map (calls_at (daily_operations self))
             (retained_dates 2 start_date days_back)))
  /\ (exists new, calls fitness.2 = calls s ++ new
       /\ follows fitness.1 (call <$> new)
            (flat_map (calls_at (fitness_operations self))
               (retained_dates 7 start_date days_back)
             ++ whole_period_call
                  (available self "get_weigh_ins" && hasattr w self "get_weigh_ins")
                  "get_weigh_ins" [ADate start_date; ADate end_date]))
  /\ (exists new, calls specialized.2 = calls s ++ new
       /\ follows specialized.1 (call <$> new)
            (flat_map (calls_at (specialized_operations self))
               (retained_dates 7 start_date days_back)
             ++ whole_period_call (available self "get_menstrual_calendar_data")
                  "get_menstrual_calendar_data" [ADate start_date; ADate end_date]
             ++ whole_period_call (available self "get_pregnancy_summary")
                  "get_pregnancy_summary" [])).
Proof.
  intros end_date start_date daily fitness specialized.
  assert (days_back = end_date - start_date) as Hback by (unfold start_date; lia).
  split; [|split].
  - subst daily. unfold export_daily_health_metrics.
    rewrite now_then. fold end_date.
    set (s' := {| stdout := _ |}). change (calls s) with (calls s').
    as_emits. apply emits_date_add_then.
    rewrite Z.add_opp_r. fold start_date.
    eapply emits_eq; [eapply emits_bind|].
    + apply (emits_while (fun st : Z * Z * DailyHealth => (st.1.1, st.1.2))
               (fun key => key.1 <=? end_date) (fun key => (key.1 + 1, key.2 + 1))
               (fun key => if key.2 mod 2 =? 0
                           then calls_at (daily_operations self) key.1 else []));
        [done|].
      intros [[current day_counter] h]. apply daily_step_emits.
    + intros st. apply emits_ret.
    + rewrite app_nil_r. cbn [fst snd].
      by rewrite schedule_every_other_calls, every_other_retained, <- Hback.
  - subst fitness. unfold export_fitness_metrics.
    rewrite now_then. fold end_date.
    set (s' := {| stdout := _ |}). change (calls s) with (calls s').
    as_emits. apply emits_date_add_then.
    rewrite Z.add_opp_r. fold start_date.
    eapply emits_eq; [eapply emits_bind|].
    + apply (emits_while (fun st : Z * Fitness => st.1)
               (fun c => c <=? end_date) (fun c => c + 7)
               (calls_at (fitness_operations self))); [done|].
      intros [current f]. apply fitness_step_emits.
    + intros st. apply weigh_ins_emits.
    + cbn [fst snd].
      by rewrite schedule_every_kth_calls, every_kth_retained, <- Hback.
  - subst specialized. unfold export_specialized_health.
    rewrite now_then. fold end_date.
    set (s' := {| stdout := _ |}). change (calls s) with (calls s').
    as_emits. apply emits_date_add_then.
    rewrite Z.add_opp_r. fold start_date.
    eapply emits_eq; [eapply emits_bind|].
    + apply (emits_while (fun st : Z * Specialized => st.1)
               (fun c => c <=? end_date) (fun c => c + 7)
               (calls_at (specialized_operations self))); [done|].
      intros [current x]. apply specialized_step_emits.
    + intros st. eapply emits_bind; [apply whole_period_emits|].
      intros x. apply whole_period_emits.
    + cbn [fst snd].
      by rewrite schedule_every_kth_calls, every_kth_retained, <- Hback.
Qed.

End CallOrder.

(** ** Runs on the stub collaborators *)

(** An operation that raises an error containing "404": [safe_call]
    returns [None] and reports "Data not found". *)
Example safe_call_on_not_found :
  safe_call missing_world "get_sleep_data" [ADate 739924] idle
  = (Ok PNone,
     {| stdout := [Warn "get_sleep_data" NotFound];
        calls := [record "get_sleep_data" [ADate 739924] (Raise not_found)];
        ticks := 0; typed := 0; files := ∅ |}).
Proof. reflexivity. Qed.

(** Daily health over the four days up to the 4th of November 2026: the
    1st and the 3rd are retained, both have a summary, and only the first
    mentions Body Battery. *)
Example daily_health_over_four_days :
  exists h,
    (export_daily_health_metrics summary_world (authenticated summary_world) 3 idle).1
    = Ok h
    /\ daily_summaries h
       = [ {| date := 739921;
              data := PDict [("bodyBatteryValuesArray", PList []);
                             ("totalSteps", PInt 8042)] |};
           {| date := 739923; data := PDict [("totalSteps", PInt 12)] |} ]
    /\ body_battery_indicators h = [ {| ind_date := 739921; found_in_summary := true |} ]
    /\ heart_rate_data h = [] /\ sleep_data h = []
    /\ dh_metadata h
       = {| period_start := 739921; period_end := 739924;
            sampling_strategy := "every_2nd_day" |}.
Proof. eexists. split; [by vm_compute|]. by vm_compute. Qed.

(** The text in which the keywords are looked for. *)
Example summary_text :
  py_str_stub (PDict [("bodyBatteryValuesArray", PList []); ("totalSteps", PInt 8042)])
  = "{'bodyBatteryValuesArray': [], 'totalSteps': 8042}".
Proof. by vm_compute. Qed.

(** The details of the listed activities: against the client that lists
    three records, of which only the first has an identifier, the
    activities collector makes the two leading calls and then one detail
    call, for that identifier. *)
Example details_of_the_listed_activities :
  call <$> calls (export_activities listing_world (authenticated listing_world)
                    300 idle).2
  = [ {| op := "get_activities"; args := [AVal (PInt 0); AVal (PInt 300)] |};
      {| op := "get_last_activity"; args := [] |};
      {| op := "get_activity"; args := [AVal (PInt 1)] |} ].
Proof. reflexivity. Qed.

(** At the end of the input, without stored tokens and without
    credentials, the prompt for the email raises [EOFError], which leaves
    [authenticate] and the driver: nothing has been called or written. *)
Example export_at_the_end_of_the_input :
  let final := export_complete_dataset closed_input_world (init None None) 21 idle in
  (authenticate closed_input_world (init None None) idle).1 = Raise EOFError
  /\ final.1 = Raise EOFError
  /\ stdout final.2 = [PromptEmail] /\ calls final.2 = [] /\ files final.2 = ∅.
Proof. by repeat split. Qed.

(** A full export against the quiet client: 92 calls, one complete file
    named after the clock, and the file name returned. *)
Example full_export_on_the_quiet_client :
  let final := export_complete_dataset quiet_world (init None None) 21 idle in
  final.1 = Ok (authenticated quiet_world, ReturnFilename (739924, 43200))
  /\ length (calls final.2) = 92%nat
  /\ exists all_data, files final.2 !! (739924, 43200) = Some (Complete all_data).
Proof. split; [by vm_compute|]. split; [by vm_compute|]. eexists. by vm_compute. Qed.
